(** * INR100 load-testing harness: a shallow embedding and its properties

    The development follows the three scripts of the harness:
    - [scripts/load-testing.js]          (class [LoadTester]),
    - [scripts/database-load-testing.js] (class [DatabaseLoadTester]),
    - [scripts/load-test-runner.js]      (class [LoadTestRunner]).

    JavaScript numbers are modelled as rationals extended with the three
    special values of IEEE arithmetic.  The operations of [JS] give the
    value of a result before it is rounded; [Binary64] gives the rounding to
    the nearest double, and is used where the order between two computed
    doubles depends on it (the average of a batch against its extremes, the
    index of a percentile).
    Promises are modelled by their final state, and the platform (clock,
    network, database driver, URL parser beyond the scheme) is a parameter
    of every operation that touches it. *)

From Stdlib Require Import QArith Qminmax Qround Qabs Qpower ZArith List String
  Ascii Lia Lqa Bool.
From Stdlib Require Import Sorted Permutation.
From stdpp Require Import gmap strings pretty.
Import ListNotations.

(** ** JavaScript numbers *)

Module JS.

(** A double is a finite value, [Infinity], [-Infinity] or [NaN].  Finite
    values are kept exact; the only zero is [+0], which is the zero every
    denominator of the harness can take (array lengths and differences of
    clock readings). *)
Inductive number : Type :=
| Fin (q : Q)
| PosInf
| NegInf
| NaN.

Definition of_nat (n : nat) : number := Fin (inject_Z (Z.of_nat n)).

Definition Qltb (a b : Q) : bool := negb (Qle_bool b a).

(** [x / y] *)
Definition div (x y : number) : number :=
  match x, y with
  | NaN, _ | _, NaN => NaN
  | Fin a, Fin b =>
      if Qeq_bool b 0 then
        if Qeq_bool a 0 then NaN
        else if Qltb 0 a then PosInf else NegInf
      else Fin (a / b)
  | Fin _, (PosInf | NegInf) => Fin 0
  | PosInf, Fin b => if Qltb b 0 then NegInf else PosInf
  | NegInf, Fin b => if Qltb b 0 then PosInf else NegInf
  | (PosInf | NegInf), (PosInf | NegInf) => NaN
  end.

(** [x * y] *)
Definition mul (x y : number) : number :=
  match x, y with
  | NaN, _ | _, NaN => NaN
  | Fin a, Fin b => Fin (a * b)
  | Fin a, PosInf | PosInf, Fin a =>
      if Qeq_bool a 0 then NaN else if Qltb 0 a then PosInf else NegInf
  | Fin a, NegInf | NegInf, Fin a =>
      if Qeq_bool a 0 then NaN else if Qltb 0 a then NegInf else PosInf
  | PosInf, PosInf | NegInf, NegInf => PosInf
  | PosInf, NegInf | NegInf, PosInf => NegInf
  end.

(** [x - y] *)
Definition sub (x y : number) : number :=
  match x, y with
  | NaN, _ | _, NaN => NaN
  | Fin a, Fin b => Fin (a - b)
  | Fin _, PosInf => NegInf
  | Fin _, NegInf => PosInf
  | PosInf, PosInf | NegInf, NegInf => NaN
  | PosInf, _ => PosInf
  | NegInf, _ => NegInf
  end.

(** [x < y]; every comparison with [NaN] is false. *)
Definition lt (x y : number) : bool :=
  match x, y with
  | NaN, _ | _, NaN => false
  | Fin a, Fin b => Qltb a b
  | NegInf, (Fin _ | PosInf) => true
  | Fin _, PosInf => true
  | _, _ => false
  end.

(** [x > y] *)
Definition gt (x y : number) : bool := lt y x.

(** [Math.max(...xs)] and [Math.min(...xs)] on an array of finite numbers:
    the empty spread gives [-Infinity] and [Infinity]. *)
Definition Math_max (xs : list Q) : number :=
  match xs with
  | [] => NegInf
  | x :: tl => Fin (fold_left Qmax tl x)
  end.

Definition Math_min (xs : list Q) : number :=
  match xs with
  | [] => PosInf
  | x :: tl => Fin (fold_left Qmin tl x)
  end.

(** Two values of the model are the same number: rationals up to [Qeq],
    each special value the same as itself only.  (This is sameness of
    values, not the [===] of JavaScript, for which [NaN] differs from
    itself.) *)
Definition eqv (x y : number) : Prop :=
  match x, y with
  | Fin a, Fin b => a == b
  | PosInf, PosInf | NegInf, NegInf | NaN, NaN => True
  | _, _ => False
  end.

(** [x || d] on numbers: [0] and [NaN] are falsy. *)
Definition or_default (x d : number) : number :=
  match x with
  | NaN => d
  | Fin a => if Qeq_bool a 0 then d else x
  | _ => x
  end.

End JS.

(** ** Rounding to binary64

    The arithmetic of [JS] above gives every result as an exact rational,
    which is the value of the double up to rounding.  Where an order
    between computed doubles is at stake, the rounding matters; it is given
    here for rationals: the nearest double, ties to even, with its
    subnormal range and its overflow to [Infinity]. *)

(** The unit roundoff of binary64. *)
Definition unit_roundoff : Q := 2 ^ (-53).

Module Binary64.

(** The exponent of a positive rational [x]: the [e] with
    [2^e <= x < 2^(e+1)]. *)
Definition exponent (x : Q) : Z :=
  let e := (Z.log2 (Qnum x) - Z.log2 (Z.pos (Qden x)))%Z in
  if Qle_bool (2 ^ e) x then e else (e - 1)%Z.

(** The integer nearest to a rational, the even one of the two when it is
    half way. *)
Definition nearest_even (x : Q) : Z :=
  let f := Qfloor x in
  match (x - inject_Z f ?= 1 # 2)%Q with
  | Lt => f
  | Gt => (f + 1)%Z
  | Eq => if Z.even f then f else (f + 1)%Z
  end.

(** A positive rational rounded to the nearest double, ties to even: 53
    significant bits from the exponent of the number, fewer below
    [2^-1022], and [Infinity] from [2^1024] on. *)
Definition round_positive (x : Q) : JS.number :=
  let e := (Z.max (exponent x) (-1022) - 52)%Z in
  let r := Qred (inject_Z (nearest_even (x / 2 ^ e)) * 2 ^ e) in
  if Qle_bool (2 ^ 1024) r then JS.PosInf else JS.Fin r.

Definition opposite (x : JS.number) : JS.number :=
  match x with
  | JS.Fin q => JS.Fin (- q)
  | JS.PosInf => JS.NegInf
  | JS.NegInf => JS.PosInf
  | JS.NaN => JS.NaN
  end.

(** The double nearest to a rational. *)
Definition round (x : Q) : JS.number :=
  match (x ?= 0)%Q with
  | Eq => JS.Fin 0
  | Gt => round_positive x
  | Lt => opposite (round_positive (- x))
  end.

(** The result of an operation on doubles is its exact result, rounded. *)
Definition rounded (x : JS.number) : JS.number :=
  match x with
  | JS.Fin q => round q
  | _ => x
  end.

Definition div (x y : JS.number) : JS.number := rounded (JS.div x y).
Definition mul (x y : JS.number) : JS.number := rounded (JS.mul x y).
Definition sub (x y : JS.number) : JS.number := rounded (JS.sub x y).

(** [x + y] *)
Definition add (x y : JS.number) : JS.number :=
  match x, y with
  | JS.NaN, _ | _, JS.NaN => JS.NaN
  | JS.Fin a, JS.Fin b => round (a + b)
  | JS.PosInf, JS.NegInf | JS.NegInf, JS.PosInf => JS.NaN
  | JS.PosInf, _ | _, JS.PosInf => JS.PosInf
  | JS.NegInf, _ | _, JS.NegInf => JS.NegInf
  end.

End Binary64.

(** ** Promises *)

(** A promise is observed through its final state.  [Pending] is the promise
    that never settles. *)
Inductive Promise (A : Type) : Type :=
| Fulfilled (value : A)
| Rejected (reason : string)
| Pending.

Arguments Fulfilled {A} value.
Arguments Rejected {A} reason.
Arguments Pending {A}.

(** [await p; k]: an async function continues on fulfilment, rejects when the
    awaited promise rejects, and never settles when it never settles. *)
Definition await {A B : Type} (p : Promise A) (k : A -> Promise B) : Promise B :=
  match p with
  | Fulfilled a => k a
  | Rejected e => Rejected e
  | Pending => Pending
  end.

#[global] Instance Promise_ret : MRet Promise := fun A a => Fulfilled a.
#[global] Instance Promise_bind : MBind Promise := fun A B k p => await p k.

(** [Promise.all]: the values in the order of the promises; the first
    rejection in array order stands for the rejection that wins, and a batch
    with a promise that never settles and no rejection never settles. *)
Fixpoint first_rejection {A : Type} (ps : list (Promise A)) : option string :=
  match ps with
  | [] => None
  | Rejected e :: _ => Some e
  | _ :: tl => first_rejection tl
  end.

Fixpoint all_values {A : Type} (ps : list (Promise A)) : option (list A) :=
  match ps with
  | [] => Some []
  | Fulfilled a :: tl =>
      match all_values tl with
      | Some vs => Some (a :: vs)
      | None => None
      end
  | _ :: _ => None
  end.

Definition Promise_all {A : Type} (ps : list (Promise A)) : Promise (list A) :=
  match first_rejection ps with
  | Some e => Rejected e
  | None =>
      match all_values ps with
      | Some vs => Fulfilled vs
      | None => Pending
      end
  end.

(** ** The URL constructor *)

Module Url.

(** The fields of a [URL] object that [makeRequest] reads. *)
Record URL : Type := mkURL {
  protocol : string;
  hostname : string;
  port : string;
  pathname : string;
  search : string
}.

Definition code (c : ascii) : nat := nat_of_ascii c.

(** C0 control or space: U+0000 to U+0020. *)
Definition is_c0_or_space (c : ascii) : bool := Nat.leb (code c) 32.

(** ASCII tab or newline: U+0009, U+000A, U+000D. *)
Definition is_tab_or_newline (c : ascii) : bool :=
  Nat.eqb (code c) 9 || Nat.eqb (code c) 10 || Nat.eqb (code c) 13.

Definition is_alpha (c : ascii) : bool :=
  (Nat.leb 65 (code c) && Nat.leb (code c) 90)
  || (Nat.leb 97 (code c) && Nat.leb (code c) 122).

Definition is_digit (c : ascii) : bool :=
  Nat.leb 48 (code c) && Nat.leb (code c) 57.

(** The code points a scheme continues with: alphanumeric, [+], [-], [.]. *)
Definition is_scheme_char (c : ascii) : bool :=
  is_alpha c || is_digit c
  || Nat.eqb (code c) 43 || Nat.eqb (code c) 45 || Nat.eqb (code c) 46.

Fixpoint drop_while (f : ascii -> bool) (l : list ascii) : list ascii :=
  match l with
  | [] => []
  | c :: tl => if f c then drop_while f tl else l
  end.

(** Input preparation: strip leading and trailing C0 control or space, then
    remove every tab and newline. *)
Definition prepare (l : list ascii) : list ascii :=
  List.filter (fun c => negb (is_tab_or_newline c))
    (rev (drop_while is_c0_or_space (rev (drop_while is_c0_or_space l)))).

Definition to_lower (c : ascii) : ascii :=
  if Nat.leb 65 (code c) && Nat.leb (code c) 90
  then ascii_of_nat (code c + 32) else c.

(** Scheme state: read scheme characters, lowercased, up to the first [:];
    anything else, the end of the input included, leaves the input without a
    scheme. *)
Fixpoint scheme_state (buffer : list ascii) (l : list ascii)
  : option (list ascii * list ascii) :=
  match l with
  | [] => None
  | c :: tl =>
      if is_scheme_char c then scheme_state (buffer ++ [to_lower c]) tl
      else if Nat.eqb (code c) 58 then Some (buffer, tl)
      else None
  end.

(** Scheme start state: a scheme begins with an ASCII letter. *)
Definition scheme_start_state (l : list ascii)
  : option (list ascii * list ascii) :=
  match l with
  | c :: tl => if is_alpha c then scheme_state [to_lower c] tl else None
  | [] => None
  end.

Section Constructor.

(** The parser states after the scheme (authority, host, port, path, query),
    which can fail on their own; they receive the scheme and what follows
    the colon. *)
Variable after_scheme : string -> string -> option URL.

(** [new URL(url)] with no base: [None] is the [TypeError] thrown for an
    invalid URL.  Without a scheme and without a base the parser fails in
    its no-scheme state. *)
Definition new_URL (url : string) : option URL :=
  match scheme_start_state (prepare (list_ascii_of_string url)) with
  | None => None
  | Some (scheme, rest) =>
      after_scheme (string_of_list_ascii scheme) (string_of_list_ascii rest)
  end.

End Constructor.

End Url.

(** ** Request executors *)

(** *** [LoadTester.makeRequest] *)

(** The object a request resolves to ([headers] is not read anywhere in the
    harness and is left out). *)
Record HttpOutcome : Type := mkHttpOutcome {
  statusCode : Z;
  data : string;
  responseTime : Q;
  success : bool;
  error : option string
}.

(** The [options] object handed to [http.request] / [https.request].  The
    port is kept as text: the port of the URL, or the default 443 or 80. *)
Record RequestOptions : Type := mkRequestOptions {
  secure : bool;            (* the [https] module was chosen *)
  opt_hostname : string;
  opt_port : string;
  opt_path : string;
  opt_method : string
}.

(** What the network does with one request: the response ends with a status
    code ([res.on('end')]), the request emits ['error'], or neither event is
    ever emitted.  The time is the [performance.now()] read in the handler. *)
Inductive NetReply : Type :=
| ReplyEnd (status : Z) (body : string) (endTime : Q)
| ReplyError (message : string) (endTime : Q)
| NoReply.

Section MakeRequest.

Variable after_scheme : string -> string -> option Url.URL.

Definition request_options (parsedUrl : Url.URL) (method : string)
  : RequestOptions :=
  let https := String.eqb (Url.protocol parsedUrl) "https:" in
  {| secure := https;
     opt_hostname := Url.hostname parsedUrl;
     opt_port := if String.eqb (Url.port parsedUrl) "" then
                   (if https then "443" else "80")
                 else Url.port parsedUrl;
     opt_path := Url.pathname parsedUrl ++ Url.search parsedUrl;
     opt_method := method |}.

(** [makeRequest(url, method)], as the harness calls it (no extra header,
    no body).  [startTime] is the clock read on entry and [net] the
    behaviour of the network for the request sent.  The executor of
    [new Promise] runs [new URL(url)] with no handler around it, so its
    [TypeError] rejects the promise. *)
Definition makeRequest (startTime : Q) (net : RequestOptions -> NetReply)
    (url : string) (method : string) : Promise HttpOutcome :=
  match Url.new_URL after_scheme url with
  | None => Rejected "Invalid URL"
  | Some parsedUrl =>
      match net (request_options parsedUrl method) with
      | ReplyEnd status body endTime =>
          Fulfilled {| statusCode := status;
                       data := body;
                       responseTime := endTime - startTime;
                       success := (status <? 400)%Z;
                       error := None |}
      | ReplyError message endTime =>
          Fulfilled {| statusCode := 0;
                       data := "";
                       responseTime := endTime - startTime;
                       success := false;
                       error := Some message |}
      | NoReply => Pending
      end
  end.

End MakeRequest.

(** *** [DatabaseLoadTester.executeQuery] *)

Record QueryOutcome : Type := mkQueryOutcome {
  q_success : bool;
  queryTime : Q;
  rowsAffected : nat;
  q_error : option string
}.

(** The pool is [null] until [initialize] has run; an initialised pool is
    observed through the number of connections checked out. *)
Definition Pool : Type := option nat.

(** The driver's answers to one query: [getConnection] hands out a
    connection, fails (acquisition timeout, server gone) or never settles;
    [execute] returns rows ([Some n] for an array of [n] rows, [None] for a
    result header), fails with an SQL error or never settles.  The time is
    the clock read after the step that ended the query. *)
Inductive AcquireReply : Type :=
| Acquired
| AcquireFailed (message : string)
| AcquirePending.

Inductive ExecuteReply : Type :=
| Rows (rows : option nat)
| ExecuteFailed (message : string)
| ExecutePending.

Record QueryWorld : Type := mkQueryWorld {
  acquire : AcquireReply;
  execute : ExecuteReply;
  q_endTime : Q
}.

Definition failed_query (startTime endTime : Q) (message : string)
  : QueryOutcome :=
  {| q_success := false;
     queryTime := endTime - startTime;
     rowsAffected := 0;
     q_error := Some message |}.

(** The driver settles what [executeQuery] awaits: the checkout, and the
    query when the checkout succeeds. *)
Definition settles (w : QueryWorld) : bool :=
  match acquire w with
  | Acquired =>
      match execute w with
      | ExecutePending => false
      | _ => true
      end
  | AcquireFailed _ => true
  | AcquirePending => false
  end.

(** [executeQuery(query, params)]: [try] / [catch] / [finally] around the
    checkout and the query; the connection goes back to the pool on both
    exits of the [try].  An await that never settles leaves the call pending,
    with the connection still checked out when it is the query that hangs. *)
Definition executeQuery (startTime : Q) (w : QueryWorld) (pool : Pool)
  : Promise QueryOutcome * Pool :=
  match pool with
  | None =>
      (* [this.pool.getConnection] on [null]: a TypeError, caught *)
      (Fulfilled (failed_query startTime (q_endTime w)
                    "Cannot read properties of null (reading 'getConnection')"),
       None)
  | Some inUse =>
      match acquire w with
      | AcquireFailed message =>
          (Fulfilled (failed_query startTime (q_endTime w) message),
           Some inUse)
      | AcquirePending => (Pending, Some inUse)
      | Acquired =>
          let checkedOut := S inUse in
          let released := Nat.pred checkedOut in
          match execute w with
          | Rows rows =>
              (Fulfilled {| q_success := true;
                            queryTime := q_endTime w - startTime;
                            rowsAffected := match rows with
                                            | Some n => n
                                            | None => 0
                                            end;
                            q_error := None |},
               Some released)
          | ExecuteFailed message =>
              (Fulfilled (failed_query startTime (q_endTime w) message),
               Some released)
          | ExecutePending => (Pending, Some checkedOut)
          end
      end
  end.

(** ** [LoadTester]: load generator and metrics *)

Module EndpointResult.
Record t : Type := mk {
  url : string;
  concurrentUsers : nat;
  requestsPerUser : nat;
  totalRequests : nat;
  successfulRequests : nat;
  failedRequests : nat;
  totalTime : Q;
  avgResponseTime : JS.number;
  maxResponseTime : JS.number;
  minResponseTime : JS.number;
  requestsPerSecond : JS.number;
  errorRate : JS.number;
  statusCodes : gmap string nat
}.
End EndpointResult.

Module Summary.
Record t : Type := mk {
  totalRequests : nat;
  successfulRequests : nat;
  failedRequests : nat;
  totalTime : Q;
  avgResponseTime : JS.number;
  maxResponseTime : JS.number;
  minResponseTime : JS.number;
  requestsPerSecond : JS.number;
  errorRate : JS.number
}.
End Summary.

(** [this.results] of a [LoadTester]. *)
Record LoadTester : Type := mkLoadTester {
  summary : Summary.t;
  detailed : list HttpOutcome;
  endpoints : gmap string EndpointResult.t
}.

(** The constructor. *)
Definition new_LoadTester : LoadTester :=
  {| summary := {| Summary.totalRequests := 0;
                   Summary.successfulRequests := 0;
                   Summary.failedRequests := 0;
                   Summary.totalTime := 0;
                   Summary.avgResponseTime := JS.Fin 0;
                   Summary.maxResponseTime := JS.Fin 0;
                   Summary.minResponseTime := JS.PosInf;
                   Summary.requestsPerSecond := JS.Fin 0;
                   Summary.errorRate := JS.Fin 0 |};
     detailed := [];
     endpoints := ∅ |}.

(** [getStatusCodeDistribution]: the key is the status code, or ['ERROR']
    for the falsy code [0] of a failed request. *)
Definition status_key (code : Z) : string :=
  if (code =? 0)%Z then "ERROR" else pretty code.

Definition count_status (distribution : gmap string nat) (result : HttpOutcome)
  : gmap string nat :=
  let status := status_key (statusCode result) in
  <[status := default 0%nat (distribution !! status) + 1]> distribution.

Definition getStatusCodeDistribution (results : list HttpOutcome)
  : gmap string nat :=
  fold_left count_status results ∅.

(** [xs.reduce((a, b) => a + b, 0)] *)
Definition sum (xs : list Q) : Q := fold_left Qplus xs 0%Q.

(** The average of the latencies as the code computes it,
    [responseTimes.reduce((a, b) => a + b, 0) / responseTimes.length] on
    doubles: every addition and the division round. *)
Definition avgResponseTime_binary64 (responseTimes : list Q) : JS.number :=
  Binary64.div
    (fold_left (fun a b => Binary64.add a (JS.Fin b)) responseTimes (JS.Fin 0))
    (JS.of_nat (length responseTimes)).

(** What the platform does during one call of [testEndpoint]: the clock read
    on entry of each [makeRequest] and the network's answer to it, both by
    (user, request); the clock read once every request is launched, and the
    clock read once [Promise.all] has resolved. *)
Record BatchWorld : Type := mkBatchWorld {
  clock_at : nat -> nat -> Q;
  net_at : nat -> nat -> RequestOptions -> NetReply;
  launchedTime : Q;
  joinedTime : Q
}.

Section TestEndpoint.

Variable after_scheme : string -> string -> option Url.URL.

(** The promise pushed for one (user, request): it resolves with the outcome
    of [makeRequest].  Its executor is an async function whose own rejection
    nobody observes, so when [makeRequest] rejects, the pushed promise never
    settles.  The delay that follows [resolve] is not part of the value. *)
Definition pushed_promise (w : BatchWorld) (url : string) (user request : nat)
  : Promise HttpOutcome :=
  match makeRequest after_scheme (clock_at w user request)
          (net_at w user request) url "GET" with
  | Fulfilled result => Fulfilled result
  | Rejected _ | Pending => Pending
  end.

(** The two nested loops filling [promises]. *)
Definition push_all (w : BatchWorld) (url : string)
    (concurrentUsers requestsPerUser : nat) : list (Promise HttpOutcome) :=
  flat_map
    (fun user => map (pushed_promise w url user) (seq 0 requestsPerUser))
    (seq 0 concurrentUsers).

(** The analysis of the resolved batch, up to the record returned.  The
    numeric fields hold the values before rounding; the double that the code
    stores in [avgResponseTime] is [avgResponseTime_binary64 responseTimes]. *)
Definition endpoint_result (url : string) (concurrentUsers requestsPerUser : nat)
    (results : list HttpOutcome) (totalTime : Q) : EndpointResult.t :=
  let successful := List.filter (fun r => success r) results in
  let failed := List.filter (fun r => negb (success r)) results in
  let responseTimes := map responseTime results in
  let avgResponseTime :=
    JS.div (JS.Fin (sum responseTimes)) (JS.of_nat (length responseTimes)) in
  let maxResponseTime := JS.Math_max responseTimes in
  let minResponseTime := JS.Math_min responseTimes in
  let requestsPerSecond :=
    JS.div (JS.of_nat (length results))
           (JS.div (JS.Fin totalTime) (JS.Fin 1000)) in
  let errorRate :=
    JS.mul (JS.div (JS.of_nat (length failed)) (JS.of_nat (length results)))
           (JS.Fin 100) in
  {| EndpointResult.url := url;
     EndpointResult.concurrentUsers := concurrentUsers;
     EndpointResult.requestsPerUser := requestsPerUser;
     EndpointResult.totalRequests := length results;
     EndpointResult.successfulRequests := length successful;
     EndpointResult.failedRequests := length failed;
     EndpointResult.totalTime := totalTime;
     EndpointResult.avgResponseTime := avgResponseTime;
     EndpointResult.maxResponseTime := maxResponseTime;
     EndpointResult.minResponseTime := minResponseTime;
     EndpointResult.requestsPerSecond := requestsPerSecond;
     EndpointResult.errorRate := errorRate;
     EndpointResult.statusCodes := getStatusCodeDistribution results |}.

(** The update of [this.results] at the end of [testEndpoint]. *)
Definition store_results (self : LoadTester) (url : string)
    (endpointResult : EndpointResult.t) (results : list HttpOutcome)
  : LoadTester :=
  let s := summary self in
  {| summary :=
       {| Summary.totalRequests :=
            Summary.totalRequests s + length results;
          Summary.successfulRequests :=
            Summary.successfulRequests s
            + EndpointResult.successfulRequests endpointResult;
          Summary.failedRequests :=
            Summary.failedRequests s
            + EndpointResult.failedRequests endpointResult;
          Summary.totalTime :=
            Qmax (Summary.totalTime s) (EndpointResult.totalTime endpointResult);
          Summary.avgResponseTime := Summary.avgResponseTime s;
          Summary.maxResponseTime := Summary.maxResponseTime s;
          Summary.minResponseTime := Summary.minResponseTime s;
          Summary.requestsPerSecond := Summary.requestsPerSecond s;
          Summary.errorRate := Summary.errorRate s |};
     detailed := detailed self ++ results;
     endpoints := <[url := endpointResult]> (endpoints self) |}.

(** [testEndpoint(url, concurrentUsers, requestsPerUser, delayBetweenRequests)]:
    the record returned and the tester after the call. *)
Definition testEndpoint (w : BatchWorld) (self : LoadTester) (url : string)
    (concurrentUsers requestsPerUser : nat) (delayBetweenRequests : Q)
  : Promise (EndpointResult.t * LoadTester) :=
  let promises := push_all w url concurrentUsers requestsPerUser in
  let startTime := launchedTime w in
  results ← Promise_all promises;
  let totalTime := (joinedTime w - startTime)%Q in
  let endpointResult :=
    endpoint_result url concurrentUsers requestsPerUser results totalTime in
  mret (endpointResult, store_results self url endpointResult results).

(** [enduranceTest(url, users, durationMinutes)]: one batch sized from the
    duration.  With [users = 0] JavaScript divides by zero where this model
    has a quotient of [0]; the loop over users is empty in both, and so is
    the batch. *)
Definition enduranceTest (w : BatchWorld) (self : LoadTester) (url : string)
    (users durationMinutes : nat) : Promise (EndpointResult.t * LoadTester) :=
  let seconds := (inject_Z (Z.of_nat durationMinutes) * 60)%Q in
  let requestsPerUser :=
    Z.to_nat (Qceiling (seconds / inject_Z (Z.of_nat users))) in
  let delayBetweenRequests :=
    Qmax 100 (seconds * 1000
              / inject_Z (Z.of_nat (users * requestsPerUser)))%Q in
  testEndpoint w self url users requestsPerUser delayBetweenRequests.

End TestEndpoint.

(** *** Percentiles and the report *)

(** [xs.sort((a, b) => a - b)]: a stable sort by numeric order. *)
Fixpoint insert_sorted (x : Q) (l : list Q) : list Q :=
  match l with
  | [] => [x]
  | y :: tl => if Qle_bool x y then x :: l else y :: insert_sorted x tl
  end.

Definition sort_numeric (l : list Q) : list Q := fold_right insert_sorted [] l.

(** [percentile(sortedArray, p)]; [None] is the [undefined] read at an index
    outside the array.  The quotient and the product are taken before
    rounding. *)
Definition percentile (sortedArray : list Q) (p : Q) : option Q :=
  let index :=
    (Qceiling ((p / 100) * inject_Z (Z.of_nat (length sortedArray)))%Q - 1)%Z in
  sortedArray !! Z.to_nat (Z.max 0 index).

(** The same with the quotient [p / 100] and the product rounded as the
    code rounds them.  An index of [Infinity] reads [undefined];
    [Math.max(0, -Infinity)] is [0]. *)
Definition percentile_binary64 (sortedArray : list Q) (p : Q) : option Q :=
  match Binary64.mul (Binary64.div (JS.Fin p) (JS.Fin 100))
          (JS.of_nat (length sortedArray)) with
  | JS.Fin x => sortedArray !! Z.to_nat (Z.max 0 (Qceiling x - 1))
  | JS.NegInf => sortedArray !! 0%nat
  | JS.PosInf | JS.NaN => None
  end.

Record Performance : Type := mkPerformance {
  p50 : option Q;
  p90 : option Q;
  p95 : option Q;
  p99 : option Q;
  throughput : JS.number;
  averageResponseTime : JS.number
}.

(** [analyzePerformance()] *)
Definition analyzePerformance (self : LoadTester) : Performance :=
  let responseTimes := map responseTime (detailed self) in
  let sortedTimes := sort_numeric responseTimes in
  {| p50 := percentile sortedTimes 50;
     p90 := percentile sortedTimes 90;
     p95 := percentile sortedTimes 95;
     p99 := percentile sortedTimes 99;
     throughput := Summary.requestsPerSecond (summary self);
     averageResponseTime := Summary.avgResponseTime (summary self) |}.

(** The [summary] field of [generateReport()]. *)
Definition report_summary (self : LoadTester) : Summary.t :=
  let s := summary self in
  let times := map responseTime (detailed self) in
  {| Summary.totalRequests := Summary.totalRequests s;
     Summary.successfulRequests := Summary.successfulRequests s;
     Summary.failedRequests := Summary.failedRequests s;
     Summary.totalTime := Summary.totalTime s;
     Summary.avgResponseTime :=
       JS.or_default (Summary.avgResponseTime s)
         (JS.div (JS.Fin (sum times)) (JS.of_nat (length (detailed self))));
     Summary.maxResponseTime := JS.Math_max times;
     Summary.minResponseTime := JS.Math_min times;
     Summary.requestsPerSecond :=
       JS.div (JS.of_nat (Summary.totalRequests s))
              (JS.div (JS.Fin (Summary.totalTime s)) (JS.Fin 1000));
     Summary.errorRate :=
       JS.mul (JS.div (JS.of_nat (Summary.failedRequests s))
                      (JS.of_nat (Summary.totalRequests s)))
              (JS.Fin 100) |}.

(** ** The order of events inside one [testEndpoint] call *)

Module EventLoop.

(** What can be observed of one (user, request): the request is sent (entry
    of [makeRequest]), its promise resolves, the delay that follows is armed,
    the delay elapses. *)
Inductive Event : Type :=
| RequestStarted (user request : nat)
| RequestCompleted (user request : nat)
| DelayStarted (user request : nat)
| DelayElapsed (user request : nat).

(** The callbacks the event loop runs once the synchronous part of
    [testEndpoint] has reached [await Promise.all]: a response has arrived,
    or a timer has fired. *)
Inductive Callback : Type :=
| ResponseArrived (user request : nat)
| TimerFired (user request : nat).

(** The two nested loops: the executor of each pushed promise runs at once,
    up to its first [await], which is after [makeRequest] has been entered. *)
Definition launch (concurrentUsers requestsPerUser : nat) : list Event :=
  flat_map
    (fun user => map (RequestStarted user) (seq 0 requestsPerUser))
    (seq 0 concurrentUsers).

(** The rest of the pushed promise's executor, run by a callback. *)
Definition run_callback (requestsPerUser : nat) (cb : Callback) : list Event :=
  match cb with
  | ResponseArrived user request =>
      RequestCompleted user request
      :: (if request <? requestsPerUser - 1
          then [DelayStarted user request] else [])
  | TimerFired user request => [DelayElapsed user request]
  end.

(** The events of a call, for the order [schedule] in which the platform
    delivers responses and timers. *)
Definition trace (concurrentUsers requestsPerUser : nat)
    (schedule : list Callback) : list Event :=
  launch concurrentUsers requestsPerUser
  ++ flat_map (run_callback requestsPerUser) schedule.

(** One user's requests in sequence: a request after the first one starts
    only when the one before it has completed and its delay has elapsed. *)
Definition sequential (tr : list Event) : Prop :=
  forall user request i,
    tr !! i = Some (RequestStarted user (S request)) ->
    exists j d,
      j < d /\ d < i
      /\ tr !! j = Some (RequestCompleted user request)
      /\ tr !! d = Some (DelayElapsed user request).

End EventLoop.

(** ** [LoadTestRunner]: scenarios *)

(** [config.scenarios.spikeTest], the two fields read by the runner. *)
Record SpikeConfig : Type := mkSpikeConfig {
  baseUsers : nat;
  spikeUsers : nat
}.

Definition config_spikeTest : SpikeConfig :=
  {| baseUsers := 10; spikeUsers := 200 |}.

Record SpikeTestResults : Type := mkSpikeTestResults {
  baseline : EndpointResult.t;
  spike : EndpointResult.t;
  recovery : EndpointResult.t;
  spikeMultiplier : JS.number;
  degradationRatio : JS.number;
  passed : bool
}.

Section Runner.

Variable after_scheme : string -> string -> option Url.URL.

(** [runSpikeTest]: baseline, spike and recovery batches on one tester; the
    ten seconds slept before the recovery batch leave no mark on the value. *)
Definition runSpikeTest (w_baseline w_spike w_recovery : BatchWorld)
    (baseUrl : string) (spikeConfig : SpikeConfig)
  : Promise SpikeTestResults :=
  let tester := new_LoadTester in
  let url := (baseUrl ++ "/api/health")%string in
  '(baselineResult, tester) ←
    testEndpoint after_scheme w_baseline tester url (baseUsers spikeConfig) 5 100;
  '(spikeResult, tester) ←
    testEndpoint after_scheme w_spike tester url (spikeUsers spikeConfig) 3 10;
  '(recoveryResult, tester) ←
    testEndpoint after_scheme w_recovery tester url (baseUsers spikeConfig) 5 100;
  mret {| baseline := baselineResult;
          spike := spikeResult;
          recovery := recoveryResult;
          spikeMultiplier :=
            JS.div (JS.of_nat (spikeUsers spikeConfig))
                   (JS.of_nat (baseUsers spikeConfig));
          degradationRatio :=
            JS.div (EndpointResult.avgResponseTime spikeResult)
                   (EndpointResult.avgResponseTime baselineResult);
          passed :=
            JS.lt (EndpointResult.errorRate spikeResult) (JS.Fin 5)
            && JS.lt (EndpointResult.avgResponseTime spikeResult)
                     (JS.mul (EndpointResult.avgResponseTime baselineResult)
                             (JS.Fin 3)) |}.

(** [calculateStabilityScore(result)] *)
Definition calculateStabilityScore (result : EndpointResult.t) : Z :=
  let score := 100%Z in
  let score :=
    if JS.gt (EndpointResult.errorRate result) (JS.Fin 1) then (score - 20)%Z
    else if JS.gt (EndpointResult.errorRate result) (JS.Fin (1 # 10))
         then (score - 10)%Z
    else score in
  let score :=
    if JS.gt (EndpointResult.avgResponseTime result) (JS.Fin 1000)
    then (score - 30)%Z
    else if JS.gt (EndpointResult.avgResponseTime result) (JS.Fin 500)
         then (score - 15)%Z
    else if JS.gt (EndpointResult.avgResponseTime result) (JS.Fin 200)
         then (score - 5)%Z
    else score in
  let variance :=
    JS.sub (EndpointResult.maxResponseTime result)
           (EndpointResult.minResponseTime result) in
  let score :=
    if JS.gt variance (JS.Fin 3000) then (score - 20)%Z
    else if JS.gt variance (JS.Fin 1000) then (score - 10)%Z
    else score in
  Z.max 0 score.




End Runner.

(** ** States a tester can be in *)

(** The counters of a summary agree. *)
Definition summary_consistent (s : Summary.t) : Prop :=
  Summary.successfulRequests s + Summary.failedRequests s
  = Summary.totalRequests s.

(** The testers obtained from the constructor by [testEndpoint] calls that
    returned. *)
Inductive reachable (after_scheme : string -> string -> option Url.URL)
  : LoadTester -> Prop :=
| reachable_new : reachable after_scheme new_LoadTester
| reachable_testEndpoint :
    forall self w url concurrentUsers requestsPerUser delay endpointResult self',
      reachable after_scheme self ->
      testEndpoint after_scheme w self url concurrentUsers requestsPerUser delay
      = Fulfilled (endpointResult, self') ->
      reachable after_scheme self'.


(** ** The percentile rule as the specification words it *)

(** The index for percentile [p] of [n] values: [ceil(p/100 * n) - 1]
    clamped to the interval from [0] to [n - 1]. *)
Definition clamped_index (n : nat) (p : Q) : nat :=
  Z.to_nat
    (Z.min (Z.of_nat n - 1)
       (Z.max 0 (Qceiling (p / 100 * inject_Z (Z.of_nat n))%Q - 1))).

(** The latencies 1, 2, ..., [n] ms. *)
Definition latencies_up_to (n : nat) : list Q :=
  map (fun k => inject_Z (Z.of_nat k)) (seq 1 n).

(** ** The stability score as the specification words it *)





(** ** Sample platforms, used in the examples *)

(** A parser tail that accepts whatever follows the scheme and reports the
    local development server. *)
Definition local_after_scheme (scheme rest : string) : option Url.URL :=
  Some {| Url.protocol := scheme ++ ":";
          Url.hostname := "localhost";
          Url.port := "3000";
          Url.pathname := "/api/health";
          Url.search := "" |}.

(** Every request is answered with [status] after [latency] ms, and the
    batch is joined [elapsed] ms after its launch. *)
Definition steady_world (status : Z) (latency elapsed : Q) : BatchWorld :=
  {| clock_at := fun _ _ => 0%Q;
     net_at := fun _ _ _ => ReplyEnd status "" latency;
     launchedTime := 0%Q;
     joinedTime := elapsed |}.

(** User [u]'s request [k] takes [u * requestsPerUser + k + 1] ms. *)
Definition ramp_world (requestsPerUser : nat) : BatchWorld :=
  {| clock_at := fun _ _ => 0%Q;
     net_at := fun user request _ =>
       ReplyEnd 200 ""
         (inject_Z (Z.of_nat (user * requestsPerUser + request + 1)));
     launchedTime := 0%Q;
     joinedTime := 100%Q |}.

(** The requests of user 0 fail with a connection error, the others succeed. *)
Definition flaky_world (latency elapsed : Q) : BatchWorld :=
  {| clock_at := fun _ _ => 0%Q;
     net_at := fun user _ _ =>
       match user with
       | O => ReplyError "ECONNREFUSED" latency
       | S _ => ReplyEnd 200 "" latency
       end;
     launchedTime := 0%Q;
     joinedTime := elapsed |}.


(** User [u]'s request [k] takes [total - (u * requestsPerUser + k)] ms: the
    latencies arrive in descending order. *)
Definition countdown_world (requestsPerUser total : nat) : BatchWorld :=
  {| clock_at := fun _ _ => 0%Q;
     net_at := fun user request _ =>
       ReplyEnd 200 ""
         (inject_Z (Z.of_nat (total - (user * requestsPerUser + request))));
     launchedTime := 0%Q;
     joinedTime := inject_Z (Z.of_nat total) |}.

(** A tester holding three outcomes of 30, 10 and 20 ms. *)
Definition three_outcomes : LoadTester :=
  {| summary := summary new_LoadTester;
     detailed := [ mkHttpOutcome 200 "" 30 true None;
                   mkHttpOutcome 200 "" 10 true None;
                   mkHttpOutcome 500 "" 20 false None ];
     endpoints := ∅ |}.

Definition health_url : string := "http://localhost:3000/api/health".

(** The doubles nearest to 0.1 and to 0.7. *)
Definition one_tenth : Q := 3602879701896397 # 36028797018963968.
Definition seven_tenths : Q := 3152519739159347 # 4503599627370496.


(** ** More of the arithmetic of JavaScript numbers *)

Module Number.

(** [x + y] *)
Definition add (x y : JS.number) : JS.number :=
  match x, y with
  | JS.NaN, _ | _, JS.NaN => JS.NaN
  | JS.Fin a, JS.Fin b => JS.Fin (a + b)
  | JS.PosInf, JS.NegInf | JS.NegInf, JS.PosInf => JS.NaN
  | JS.PosInf, _ | _, JS.PosInf => JS.PosInf
  | JS.NegInf, _ | _, JS.NegInf => JS.NegInf
  end.

(** [Math.abs(x)] *)
Definition abs (x : JS.number) : JS.number :=
  match x with
  | JS.Fin a => JS.Fin (Qabs a)
  | JS.NaN => JS.NaN
  | JS.PosInf | JS.NegInf => JS.PosInf
  end.

(** A number is truthy unless it is [0] or [NaN]. *)
Definition truthy (x : JS.number) : bool :=
  match x with
  | JS.NaN => false
  | JS.Fin a => negb (Qeq_bool a 0)
  | JS.PosInf | JS.NegInf => true
  end.

(** [xs.reduce((a, b) => a + b, 0)] on an array of numbers. *)
Definition sum (xs : list JS.number) : JS.number :=
  fold_left add xs (JS.Fin 0).

(** [Math.ceil(a / b)] for two counts, [b] not zero. *)
Definition ceil_div (a b : nat) : nat :=
  Z.to_nat (Qceiling (inject_Z (Z.of_nat a) / inject_Z (Z.of_nat b))).

End Number.

(** ** [LoadTester]: recommendations and the stress test *)

Record Recommendation : Type := mkRecommendation {
  rec_type : string;
  severity : string;
  message : string;
  action : string
}.

Definition rec_performance : Recommendation :=
  {| rec_type := "performance"; severity := "high";
     message := "High average response time detected (>2s). Consider optimizing database queries and implementing caching.";
     action := "Review and optimize slow endpoints" |}.

Definition rec_reliability : Recommendation :=
  {| rec_type := "reliability"; severity := "high";
     message := "High error rate detected (>5%). Investigate failing endpoints and improve error handling.";
     action := "Fix failing requests and improve error handling" |}.

Definition rec_scalability : Recommendation :=
  {| rec_type := "scalability"; severity := "medium";
     message := "Low throughput detected (<100 RPS). Consider horizontal scaling or load balancing.";
     action := "Implement load balancing and auto-scaling" |}.

Definition rec_success : Recommendation :=
  {| rec_type := "success"; severity := "info";
     message := "Excellent performance metrics! System is ready for production traffic.";
     action := "Continue monitoring in production" |}.

(** [generateRecommendations()]: it reads the running summary of the
    tester, not the summary rebuilt by [generateReport]. *)
Definition generateRecommendations (self : LoadTester) : list Recommendation :=
  let s := summary self in
  let avgResponseTime := JS.or_default (Summary.avgResponseTime s) (JS.Fin 0) in
  let errorRate := JS.or_default (Summary.errorRate s) (JS.Fin 0) in
  let requestsPerSecond :=
    JS.or_default (Summary.requestsPerSecond s) (JS.Fin 0) in
  (if JS.gt avgResponseTime (JS.Fin 2000) then [rec_performance] else [])
  ++ (if JS.gt errorRate (JS.Fin 5) then [rec_reliability] else [])
  ++ (if JS.lt requestsPerSecond (JS.Fin 100) then [rec_scalability] else [])
  ++ (if JS.lt avgResponseTime (JS.Fin 500) && JS.lt errorRate (JS.Fin 1)
      then [rec_success] else []).

(** One entry of the array returned by [stressTest]: [{users, ...result}]. *)
Record StressStep : Type := mkStressStep {
  users : nat;
  step_result : EndpointResult.t
}.

(** The test of the breaking point. *)
Definition breaking_point (result : EndpointResult.t) : bool :=
  JS.gt (EndpointResult.errorRate result) (JS.Fin 10)
  || JS.gt (EndpointResult.avgResponseTime result) (JS.Fin 5000).

Section StressTest.

Variable after_scheme : string -> string -> option Url.URL.

(** The loop of [stressTest], from the user count [users] on.  [worlds]
    gives the platform of each iteration; [fuel] bounds the number of
    iterations, and [None] is a loop that has not ended within it.  With
    [users = 0] JavaScript computes [Math.ceil(requestsPerStep / 0)] where
    this model has [0]; the loop over users is empty in both. *)
Fixpoint stressTest_loop (fuel : nat) (worlds : nat -> BatchWorld)
    (iteration : nat) (self : LoadTester) (baseUrl : string)
    (users maxUsers step requestsPerStep : nat)
  : option (Promise (list StressStep * LoadTester)) :=
  match fuel with
  | O => None
  | S fuel' =>
      if users <=? maxUsers then
        match testEndpoint after_scheme (worlds iteration) self baseUrl users
                (Number.ceil_div requestsPerStep users) 50 with
        | Fulfilled (result, self') =>
            let entry := {| users := users; step_result := result |} in
            if breaking_point result then Some (Fulfilled ([entry], self'))
            else
              match stressTest_loop fuel' worlds (S iteration) self' baseUrl
                      (users + step) maxUsers step requestsPerStep with
              | Some (Fulfilled (rest, self'')) =>
                  Some (Fulfilled (entry :: rest, self''))
              | Some (Rejected e) => Some (Rejected e)
              | Some Pending => Some Pending
              | None => None
              end
        | Rejected e => Some (Rejected e)
        | Pending => Some Pending
        end
      else Some (Fulfilled ([], self))
  end.

(** [stressTest(baseUrl, startUsers, maxUsers, step, requestsPerStep)] *)
Definition stressTest (fuel : nat) (worlds : nat -> BatchWorld)
    (self : LoadTester) (baseUrl : string)
    (startUsers maxUsers step requestsPerStep : nat)
  : option (Promise (list StressStep * LoadTester)) :=
  stressTest_loop fuel worlds 0 self baseUrl startUsers maxUsers step
    requestsPerStep.

End StressTest.


(** Every request is refused with a connection error after [latency] ms. *)
Definition refusing_world (latency elapsed : Q) : BatchWorld :=
  {| clock_at := fun _ _ => 0%Q;
     net_at := fun _ _ _ => ReplyError "ECONNREFUSED" latency;
     launchedTime := 0%Q;
     joinedTime := elapsed |}.

(** The number of outcomes filed under the key [key] by
    [getStatusCodeDistribution]. *)
Definition count_key (key : string) (results : list HttpOutcome) : nat :=
  length (List.filter
            (fun r => String.eqb (status_key (statusCode r)) key) results).


(** ** [DatabaseLoadTester]: batches of queries *)

(** [getConnectionPoolStats()]: the figures of the pool, or the message of
    the error caught. *)
Record PoolFigures : Type := mkPoolFigures {
  configuredConnections : nat;
  activeConnections : nat;
  totalConnections : nat;
  poolReady : nat;
  poolIdle : nat;
  poolQueueing : nat
}.

Inductive PoolStats : Type :=
| StatsFigures (figures : PoolFigures)
| StatsError (message : string).

(** What the two [SHOW STATUS] queries and the pool report: the figures,
    the message of the query that failed, or nothing when a query never
    settles. *)
Inductive StatsReply : Type :=
| StatsAnswered (figures : PoolFigures)
| StatsFailed (message : string)
| StatsPending.

(** [getConnectionPoolStats()].  On a tester that was not initialised,
    reading [this.pool.pool] throws, and the error is caught. *)
Definition getConnectionPoolStats (pool : Pool) (statsReply : StatsReply)
  : Promise PoolStats :=
  match pool with
  | None =>
      Fulfilled (StatsError "Cannot read properties of null (reading 'pool')")
  | Some _ =>
      match statsReply with
      | StatsAnswered figures => Fulfilled (StatsFigures figures)
      | StatsFailed message => Fulfilled (StatsError message)
      | StatsPending => Pending
      end
  end.

Module PoolResult.
Record t : Type := mk {
  concurrentConnections : nat;
  queriesPerConnection : nat;
  totalQueries : nat;
  successfulQueries : nat;
  failedQueries : nat;
  totalTime : Q;
  avgQueryTime : JS.number;
  maxQueryTime : JS.number;
  minQueryTime : JS.number;
  queriesPerSecond : JS.number;
  connectionPoolStats : PoolStats
}.
End PoolResult.

(** What the platform does during one batch of queries: the clock read on
    entry of each [executeQuery] and the driver's answers to it, by two
    indices (connection and query, or query and run, or iteration and 0);
    the clock read at the start and once [Promise.all] has resolved; the
    answer to the statistics queries; and, for the loop of
    [testConcurrentLoad], the clock read and the number drawn by
    [Math.random()] at each iteration. *)
Record QueryBatchWorld : Type := mkQueryBatchWorld {
  query_clock_at : nat -> nat -> Q;
  query_world_at : nat -> nat -> QueryWorld;
  batchStart : Q;
  batchJoined : Q;
  statsReply : StatsReply;
  loop_clock_at : nat -> Q;
  random_at : nat -> Q
}.

(** The promise of one query of a batch. *)
Definition query_promise (w : QueryBatchWorld) (pool : Pool) (i j : nat)
  : Promise QueryOutcome :=
  fst (executeQuery (query_clock_at w i j) (query_world_at w i j) pool).

(** [testConnectionPool(concurrentConnections, queriesPerConnection)] *)
Definition testConnectionPool (w : QueryBatchWorld) (pool : Pool)
    (concurrentConnections queriesPerConnection : nat)
  : Promise PoolResult.t :=
  let startTime := batchStart w in
  let promises :=
    flat_map
      (fun conn => map (query_promise w pool conn) (seq 0 queriesPerConnection))
      (seq 0 concurrentConnections) in
  results ← Promise_all promises;
  let totalTime := (batchJoined w - startTime)%Q in
  let successful := List.filter (fun r => q_success r) results in
  let failed := List.filter (fun r => negb (q_success r)) results in
  let queryTimes := map queryTime results in
  connectionPoolStats ← getConnectionPoolStats pool (statsReply w);
  mret {| PoolResult.concurrentConnections := concurrentConnections;
          PoolResult.queriesPerConnection := queriesPerConnection;
          PoolResult.totalQueries := length results;
          PoolResult.successfulQueries := length successful;
          PoolResult.failedQueries := length failed;
          PoolResult.totalTime := totalTime;
          PoolResult.avgQueryTime :=
            JS.div (JS.Fin (sum queryTimes)) (JS.of_nat (length queryTimes));
          PoolResult.maxQueryTime := JS.Math_max queryTimes;
          PoolResult.minQueryTime := JS.Math_min queryTimes;
          PoolResult.queriesPerSecond :=
            JS.div (JS.of_nat (length results))
                   (JS.div (JS.Fin totalTime) (JS.Fin 1000));
          PoolResult.connectionPoolStats := connectionPoolStats |}.

(** The statistics [testINR100Queries] keeps for one named query. *)
Record QueryStats : Type := mkQueryStats {
  query : string;
  weight : nat;
  runs : nat;
  successful : nat;
  failed : nat;
  qs_avgQueryTime : JS.number;
  qs_maxQueryTime : JS.number;
  qs_minQueryTime : JS.number;
  successRate : JS.number
}.

(** The double quote, for the query texts that hold one. *)
Definition dquote : string := String (ascii_of_nat 34) EmptyString.

(** The named queries of [testINR100Queries]: name, text and weight. *)
Definition inr100_queries : list (string * (string * nat)) :=
  [ ("User Count Query",
     ("SELECT COUNT(*) as user_count FROM users WHERE active = 1", 10));
    ("Recent Transactions",
     ("SELECT id, user_id, amount, created_at FROM transactions ORDER BY created_at DESC LIMIT 100", 15));
    ("Market Data Query",
     ("SELECT symbol, price, change_percent FROM market_data WHERE updated_at > NOW() - INTERVAL 1 HOUR ORDER BY updated_at DESC", 12));
    ("Pending Orders",
     (("SELECT id, user_id, symbol, quantity, price FROM orders WHERE status = "
       ++ dquote ++ "pending" ++ dquote
       ++ " ORDER BY created_at ASC LIMIT 50")%string, 8));
    ("Portfolio Summary",
     ("SELECT u.id, u.username, SUM(t.amount) as total_amount FROM users u LEFT JOIN transactions t ON u.id = t.user_id GROUP BY u.id, u.username ORDER BY total_amount DESC LIMIT 20", 5));
    ("Daily Trading Volume",
     ("SELECT DATE(created_at) as trade_date, COUNT(*) as transaction_count, SUM(amount) as total_volume FROM transactions WHERE created_at >= DATE_SUB(NOW(), INTERVAL 7 DAY) GROUP BY DATE(created_at) ORDER BY trade_date DESC", 6));
    ("User Performance Analytics",
     ("SELECT u.id, u.username, COUNT(t.id) as transaction_count, AVG(t.amount) as avg_amount FROM users u LEFT JOIN transactions t ON u.id = t.user_id WHERE t.created_at >= DATE_SUB(NOW(), INTERVAL 30 DAY) GROUP BY u.id, u.username HAVING transaction_count > 0 ORDER BY transaction_count DESC LIMIT 50", 4)) ].

(** [!r.error]: the error of an outcome is [null], or a message, and the
    empty message is falsy too. *)
Definition no_error (r : QueryOutcome) : bool :=
  match q_error r with
  | None => true
  | Some message => String.eqb message ""
  end.

(** A loop that awaits one promise after the other. *)
Fixpoint await_each {A : Type} (ps : list (Promise A)) : Promise (list A) :=
  match ps with
  | [] => mret []
  | p :: rest =>
      a ← p;
      others ← await_each rest;
      mret (a :: others)
  end.

(** The ten runs of the query of index [i], one after the other. *)
Definition query_runs (w : QueryBatchWorld) (pool : Pool) (i : nat)
  : Promise (list QueryOutcome) :=
  await_each (map (query_promise w pool i) (seq 0 10)).

(** The statistics of one query from its runs; [failed] is the filter
    [results.filter(r => !r.error)] of the source. *)
Definition query_stats (text : string) (weight : nat)
    (results : list QueryOutcome) : QueryStats :=
  let runs := 10 in
  let successful := List.filter (fun r => q_success r) results in
  let failed := List.filter no_error results in
  let queryTimes := map queryTime results in
  {| query := text;
     weight := weight;
     runs := runs;
     successful := length successful;
     failed := length failed;
     qs_avgQueryTime :=
       JS.div (JS.Fin (sum queryTimes)) (JS.of_nat (length queryTimes));
     qs_maxQueryTime := JS.Math_max queryTimes;
     qs_minQueryTime := JS.Math_min queryTimes;
     successRate :=
       JS.mul (JS.div (JS.of_nat (length successful)) (JS.of_nat runs))
              (JS.Fin 100) |}.

(** The loop of [testINR100Queries] over the named queries, from index [i]. *)
Fixpoint testINR100Queries_from (w : QueryBatchWorld) (pool : Pool) (i : nat)
    (queries : list (string * (string * nat)))
  : Promise (list (string * QueryStats)) :=
  match queries with
  | [] => mret []
  | (name, (text, weight)) :: rest =>
      results ← query_runs w pool i;
      tail ← testINR100Queries_from w pool (S i) rest;
      mret ((name, query_stats text weight results) :: tail)
  end.

(** [testINR100Queries()]: the entries of the object returned, in the order
    of the queries. *)
Definition testINR100Queries (w : QueryBatchWorld) (pool : Pool)
  : Promise (list (string * QueryStats)) :=
  testINR100Queries_from w pool 0 inr100_queries.


(** The weighted queries of [testConcurrentLoad]: text and weight. *)
Definition weightedQueries : list (string * nat) :=
  [ ("SELECT COUNT(*) FROM users WHERE active = 1", 3);
    ("SELECT * FROM transactions ORDER BY created_at DESC LIMIT 10", 5);
    ("SELECT symbol, price FROM market_data ORDER BY updated_at DESC LIMIT 20", 4);
    (("SELECT * FROM orders WHERE status = " ++ dquote ++ "pending" ++ dquote
      ++ " LIMIT 5")%string, 2);
    ("SELECT u.username, COUNT(t.id) as tx_count FROM users u LEFT JOIN transactions t ON u.id = t.user_id GROUP BY u.id, u.username LIMIT 10", 1) ].

(** The inner loop that selects a query for the number drawn: the first
    query whose cumulative share of the weights reaches it. *)
Fixpoint select_from (random : Q) (cumulativeWeight : nat)
    (queries : list (string * nat)) : option string :=
  match queries with
  | [] => None
  | (text, weight) :: rest =>
      let cumulativeWeight := cumulativeWeight + weight in
      let total :=
        fold_left (fun sum q => sum + snd q) weightedQueries 0 in
      if Qle_bool random
           (inject_Z (Z.of_nat cumulativeWeight) / inject_Z (Z.of_nat total))
      then Some text
      else select_from random cumulativeWeight rest
  end.

Definition select_query (random : Q) : option string :=
  select_from random 0 weightedQueries.

(** The loop of [testConcurrentLoad] that launches the queries: it stops at
    [totalQueries] iterations or when the clock has reached [endTime]. *)
Fixpoint launch_queries (w : QueryBatchWorld) (pool : Pool) (endTime : Q)
    (remaining i : nat) : list (Promise QueryOutcome) :=
  match remaining with
  | O => []
  | S remaining' =>
      if Qle_bool endTime (loop_clock_at w i) then []
      else
        (match select_query (random_at w i) with
         | Some _ => [query_promise w pool i 0]
         | None => []
         end)
        ++ launch_queries w pool endTime remaining' (S i)
  end.

Module ConcurrentResult.
Record t : Type := mk {
  concurrentUsers : nat;
  durationSeconds : nat;
  totalQueries : nat;
  successfulQueries : nat;
  failedQueries : nat;
  totalTime : Q;
  avgQueryTime : JS.number;
  maxQueryTime : JS.number;
  minQueryTime : JS.number;
  queriesPerSecond : JS.number;
  errorRate : JS.number;
  connectionPoolStats : PoolStats
}.
End ConcurrentResult.

(** The analysis of the resolved queries of [testConcurrentLoad]. *)
Definition concurrent_result (connectionPoolStats : PoolStats)
    (concurrentUsers durationSeconds : nat) (results : list QueryOutcome)
    (totalTime : Q) : ConcurrentResult.t :=
  let successful := List.filter (fun r => q_success r) results in
  let failed := List.filter (fun r => negb (q_success r)) results in
  let queryTimes := map queryTime results in
  {| ConcurrentResult.concurrentUsers := concurrentUsers;
     ConcurrentResult.durationSeconds := durationSeconds;
     ConcurrentResult.totalQueries := length results;
     ConcurrentResult.successfulQueries := length successful;
     ConcurrentResult.failedQueries := length failed;
     ConcurrentResult.totalTime := totalTime;
     ConcurrentResult.avgQueryTime :=
       JS.div (JS.Fin (sum queryTimes)) (JS.of_nat (length queryTimes));
     ConcurrentResult.maxQueryTime := JS.Math_max queryTimes;
     ConcurrentResult.minQueryTime := JS.Math_min queryTimes;
     ConcurrentResult.queriesPerSecond :=
       JS.div (JS.of_nat (length results))
              (JS.div (JS.Fin totalTime) (JS.Fin 1000));
     ConcurrentResult.errorRate :=
       JS.mul (JS.div (JS.of_nat (length failed)) (JS.of_nat (length results)))
              (JS.Fin 100);
     ConcurrentResult.connectionPoolStats := connectionPoolStats |}.

(** [testConcurrentLoad(concurrentUsers, durationSeconds)] *)
Definition testConcurrentLoad (w : QueryBatchWorld) (pool : Pool)
    (concurrentUsers durationSeconds : nat) : Promise ConcurrentResult.t :=
  let startTime := batchStart w in
  let endTime := (startTime + inject_Z (Z.of_nat durationSeconds) * 1000)%Q in
  let totalQueries :=
    Z.to_nat (Qfloor (inject_Z (Z.of_nat concurrentUsers)
                      * (inject_Z (Z.of_nat durationSeconds) / 2))) in
  let promises := launch_queries w pool endTime totalQueries 0 in
  results ← Promise_all promises;
  let totalTime := (batchJoined w - startTime)%Q in
  connectionPoolStats ← getConnectionPoolStats pool (statsReply w);
  mret (concurrent_result connectionPoolStats concurrentUsers durationSeconds
          results totalTime).


(** ** [LoadTestRunner]: the overall summary, the grade and the trend *)

(** A value of [this.results.databaseTests]: the object returned by
    [testINR100Queries] (its entries, by query name) or the record returned
    by [testConcurrentLoad]. *)
Inductive DbResult : Type :=
| DbQueries (entries : list (string * QueryStats))
| DbConcurrent (c : ConcurrentResult.t).

(** The summary reads the fields [queriesPerSecond] and [avgQueryTime] of
    each value.  On the object of [testINR100Queries] they are [undefined]
    as long as no query bears the name of one of them; an object with such a
    key is outside this model. *)
Definition plain_entries (r : DbResult) : bool :=
  match r with
  | DbQueries entries =>
      forallb (fun entry =>
                 negb (String.eqb (fst entry) "queriesPerSecond")
                 && negb (String.eqb (fst entry) "avgQueryTime"))
        entries
  | DbConcurrent _ => true
  end.

(** [r.queriesPerSecond] and [r.avgQueryTime]; [None] is [undefined]. *)
Definition field_queriesPerSecond (r : DbResult) : option JS.number :=
  match r with
  | DbQueries _ => None
  | DbConcurrent c => Some (ConcurrentResult.queriesPerSecond c)
  end.

Definition field_avgQueryTime (r : DbResult) : option JS.number :=
  match r with
  | DbQueries _ => None
  | DbConcurrent c => Some (ConcurrentResult.avgQueryTime c)
  end.

(** Truthiness of a field, and [field || 0]. *)
Definition field_truthy (o : option JS.number) : bool :=
  match o with
  | None => false
  | Some x => Number.truthy x
  end.

Definition field_or_zero (o : option JS.number) : JS.number :=
  match o with
  | None => JS.Fin 0
  | Some x => JS.or_default x (JS.Fin 0)
  end.

Record DatabaseSummary : Type := mkDatabaseSummary {
  queryTests : nat;
  concurrentTests : nat;
  averageQueryTime : JS.number;
  concurrentThroughput : JS.number
}.

(** [summarizeDatabaseResults(dbResults)]; [None] for an input outside the
    model (see [plain_entries]). *)
Definition summarizeDatabaseResults (dbResults : list DbResult)
  : option DatabaseSummary :=
  if forallb plain_entries dbResults then
    let queryResults :=
      List.filter (fun r => negb (field_truthy (field_queriesPerSecond r)))
        dbResults in
    let concurrentResults :=
      List.filter (fun r => field_truthy (field_queriesPerSecond r))
        dbResults in
    Some
      {| queryTests := length queryResults;
         concurrentTests := length concurrentResults;
         averageQueryTime :=
           if 0 <? length queryResults then
             JS.div
               (fold_left
                  (fun sum r =>
                     Number.add sum (field_or_zero (field_avgQueryTime r)))
                  queryResults (JS.Fin 0))
               (JS.of_nat (length queryResults))
           else JS.Fin 0;
         concurrentThroughput :=
           if 0 <? length concurrentResults then
             JS.div
               (fold_left
                  (fun sum r =>
                     Number.add sum
                       (field_or_zero (field_queriesPerSecond r)))
                  concurrentResults (JS.Fin 0))
               (JS.of_nat (length concurrentResults))
           else JS.Fin 0 |}
  else None.

Module WebSummary.
Record t : Type := mk {
  totalRequests : nat;
  successfulRequests : nat;
  avgResponseTime : JS.number;
  errorRate : JS.number
}.
End WebSummary.

Module Grade.
Inductive t : Type := A | B | C | D | F.
End Grade.

(** [calculateOverallGrade(webSummary)]: the grade and the score. *)
Definition calculateOverallGrade (webSummary : WebSummary.t) : Grade.t * Z :=
  let score := 100%Z in
  let score :=
    if JS.gt (WebSummary.avgResponseTime webSummary) (JS.Fin 2000)
    then (score - 30)%Z
    else if JS.gt (WebSummary.avgResponseTime webSummary) (JS.Fin 1000)
         then (score - 20)%Z
    else if JS.gt (WebSummary.avgResponseTime webSummary) (JS.Fin 500)
         then (score - 10)%Z
    else score in
  let score :=
    if JS.gt (WebSummary.errorRate webSummary) (JS.Fin 5) then (score - 25)%Z
    else if JS.gt (WebSummary.errorRate webSummary) (JS.Fin 1)
         then (score - 15)%Z
    else if JS.gt (WebSummary.errorRate webSummary) (JS.Fin (1 # 10))
         then (score - 5)%Z
    else score in
  let grade :=
    if (90 <=? score)%Z then Grade.A
    else if (80 <=? score)%Z then Grade.B
    else if (70 <=? score)%Z then Grade.C
    else if (60 <=? score)%Z then Grade.D
    else Grade.F in
  (grade, score).

Record Readiness : Type := mkReadiness {
  ready : bool;
  criteria_responseTime : bool;
  criteria_errorRate : bool;
  criteria_stability : bool;
  recommendation : string
}.

(** [assessProductionReadiness(webSummary)] *)
Definition assessProductionReadiness (webSummary : WebSummary.t) : Readiness :=
  let responseTime :=
    JS.lt (WebSummary.avgResponseTime webSummary) (JS.Fin 500) in
  let errorRate := JS.lt (WebSummary.errorRate webSummary) (JS.Fin 1) in
  let stability := true in
  let passed := forallb (fun c => c) [responseTime; errorRate; stability] in
  {| ready := passed;
     criteria_responseTime := responseTime;
     criteria_errorRate := errorRate;
     criteria_stability := stability;
     recommendation :=
       if passed then "System is ready for production deployment"
       else "System requires optimization before production deployment" |}.

(** The reduction of [generateOverallSummary] over the web results, and the
    two divisions by their number. *)
Definition web_summary (allResults : list EndpointResult.t) : WebSummary.t :=
  let acc :=
    fold_left
      (fun acc result =>
         {| WebSummary.totalRequests :=
              WebSummary.totalRequests acc
              + EndpointResult.totalRequests result;
            WebSummary.successfulRequests :=
              WebSummary.successfulRequests acc
              + EndpointResult.successfulRequests result;
            WebSummary.avgResponseTime :=
              Number.add (WebSummary.avgResponseTime acc)
                (EndpointResult.avgResponseTime result);
            WebSummary.errorRate :=
              Number.add (WebSummary.errorRate acc)
                (EndpointResult.errorRate result) |})
      allResults
      {| WebSummary.totalRequests := 0;
         WebSummary.successfulRequests := 0;
         WebSummary.avgResponseTime := JS.Fin 0;
         WebSummary.errorRate := JS.Fin 0 |} in
  if 0 <? length allResults then
    {| WebSummary.totalRequests := WebSummary.totalRequests acc;
       WebSummary.successfulRequests := WebSummary.successfulRequests acc;
       WebSummary.avgResponseTime :=
         JS.div (WebSummary.avgResponseTime acc)
                (JS.of_nat (length allResults));
       WebSummary.errorRate :=
         JS.div (WebSummary.errorRate acc) (JS.of_nat (length allResults)) |}
  else acc.

Inductive OverallSummary : Type :=
| NoResults                        (* [{ message: 'No test results available' }] *)
| Overall (webApplication : WebSummary.t) (database : DatabaseSummary)
          (overallGrade : Grade.t * Z) (readiness : Readiness).

(** [generateOverallSummary()], from the values of [this.results.webTests]
    and of [this.results.databaseTests] in the order of their keys; [None]
    for database values outside the model. *)
Definition generateOverallSummary (allResults : list EndpointResult.t)
    (allDbResults : list DbResult) : option OverallSummary :=
  if (length allResults =? 0) && (length allDbResults =? 0) then Some NoResults
  else
    let webSummary := web_summary allResults in
    match summarizeDatabaseResults allDbResults with
    | Some database =>
        Some (Overall webSummary database (calculateOverallGrade webSummary)
                (assessProductionReadiness webSummary))
    | None => None
    end.

Inductive StabilityTrend : Type := Stable | Degrading | Improving.

(** [analyzeStabilityTrend(results)], on the samples of the monitoring. *)
Definition analyzeStabilityTrend (results : list EndpointResult.t)
  : StabilityTrend :=
  let responseTimes := map EndpointResult.avgResponseTime results in
  let half := length responseTimes / 2 in
  let firstHalf := firstn half responseTimes in
  let secondHalf := skipn half responseTimes in
  let firstAvg :=
    JS.div (Number.sum firstHalf) (JS.of_nat (length firstHalf)) in
  let secondAvg :=
    JS.div (Number.sum secondHalf) (JS.of_nat (length secondHalf)) in
  let trend := JS.div (JS.sub secondAvg firstAvg) firstAvg in
  if JS.lt (Number.abs trend) (JS.Fin (1 # 10)) then Stable
  else if JS.gt trend (JS.Fin (1 # 10)) then Degrading
  else Improving.

(** The database results the runner stores: what [testINR100Queries] and
    [testConcurrentLoad] returned. *)
Inductive produced_by_tester : DbResult -> Prop :=
| produced_queries :
    forall w pool entries,
      testINR100Queries w pool = Fulfilled entries ->
      produced_by_tester (DbQueries entries)
| produced_concurrent :
    forall w pool concurrentUsers durationSeconds c,
      testConcurrentLoad w pool concurrentUsers durationSeconds = Fulfilled c ->
      produced_by_tester (DbConcurrent c).

Module ContinuousMonitoring.
Record t : Type := mk {
  durationMinutes : Z;
  samples : nat;
  averageResponseTime : JS.number;
  averageErrorRate : JS.number;
  stabilityTrend : StabilityTrend
}.
End ContinuousMonitoring.

Section ContinuousTest.

Variable after_scheme : string -> string -> option Url.URL.

(** The loop of [runContinuousTest].  [now_at k] is what [Date.now()]
    returns at the test of the loop once [k] samples are taken, and
    [worlds k] the platform of the batch that follows; [fuel] bounds the
    number of iterations, and [None] is a loop that has not ended within
    it.  The timestamp of a sample is not kept. *)
Fixpoint continuous_loop (fuel : nat) (worlds : nat -> BatchWorld)
    (now_at : nat -> Q) (endTime : Q) (tester : LoadTester) (url : string)
    (monitoringResults : list EndpointResult.t)
  : option (Promise (list EndpointResult.t)) :=
  match fuel with
  | O => None
  | S fuel' =>
      if JS.Qltb (now_at (length monitoringResults)) endTime then
        match testEndpoint after_scheme (worlds (length monitoringResults))
                tester url 5 2 100 with
        | Fulfilled (result, tester') =>
            continuous_loop fuel' worlds now_at endTime tester' url
              (monitoringResults ++ [result])
        | Rejected e => Some (Rejected e)
        | Pending => Some Pending
        end
      else Some (Fulfilled monitoringResults)
  end.

(** [runContinuousTest(environment, durationMinutes)], for the base URL of
    the environment; [startTime] is the first reading of [Date.now()]. *)
Definition runContinuousTest (fuel : nat) (worlds : nat -> BatchWorld)
    (startTime : Q) (now_at : nat -> Q) (baseUrl : string)
    (durationMinutes : Z) : option (Promise ContinuousMonitoring.t) :=
  let tester := new_LoadTester in
  let endTime := (startTime + inject_Z durationMinutes * 60 * 1000)%Q in
  match continuous_loop fuel worlds now_at endTime tester
          (baseUrl ++ "/api/health")%string [] with
  | Some p =>
      Some
        (monitoringResults ← p;
         mret
           {| ContinuousMonitoring.durationMinutes := durationMinutes;
              ContinuousMonitoring.samples := length monitoringResults;
              ContinuousMonitoring.averageResponseTime :=
                JS.div
                  (fold_left
                     (fun sum r =>
                        Number.add sum (EndpointResult.avgResponseTime r))
                     monitoringResults (JS.Fin 0))
                  (JS.of_nat (length monitoringResults));
              ContinuousMonitoring.averageErrorRate :=
                JS.div
                  (fold_left
                     (fun sum r =>
                        Number.add sum (EndpointResult.errorRate r))
                     monitoringResults (JS.Fin 0))
                  (JS.of_nat (length monitoringResults));
              ContinuousMonitoring.stabilityTrend :=
                analyzeStabilityTrend monitoringResults |})
  | None => None
  end.

End ContinuousTest.


(** ** [LoadTestRunner]: scenarios *)

(** The fields of a scenario of the configuration that [runScenario] reads;
    [None] is a field the scenario does not have. *)
Module Scenario.
Record t : Type := mk {
  concurrentUsers : option nat;
  requestsPerUser : option nat;
  delayBetweenRequests : option Q;
  endpoints : option (list string);
  databaseQueries : option (list string)
}.
End Scenario.

(** [config.scenarios] *)
Definition config_scenarios : list (string * Scenario.t) :=
  [ ("lightLoad",
     {| Scenario.concurrentUsers := Some 10;
        Scenario.requestsPerUser := Some 5;
        Scenario.delayBetweenRequests := Some 200%Q;
        Scenario.endpoints :=
          Some [ "/api/health"; "/api/users/profile"; "/api/markets/price";
                 "/api/transactions/history" ];
        Scenario.databaseQueries := None |});
    ("moderateLoad",
     {| Scenario.concurrentUsers := Some 50;
        Scenario.requestsPerUser := Some 10;
        Scenario.delayBetweenRequests := Some 100%Q;
        Scenario.endpoints :=
          Some [ "/api/health"; "/api/users/profile"; "/api/markets/price";
                 "/api/transactions/history"; "/api/orders/create";
                 "/api/orders/history" ];
        Scenario.databaseQueries := None |});
    ("heavyLoad",
     {| Scenario.concurrentUsers := Some 100;
        Scenario.requestsPerUser := Some 15;
        Scenario.delayBetweenRequests := Some 50%Q;
        Scenario.endpoints :=
          Some [ "/api/health"; "/api/users/profile"; "/api/markets/price";
                 "/api/transactions/history"; "/api/orders/create";
                 "/api/orders/history"; "/api/portfolio/summary";
                 "/api/analytics/performance" ];
        Scenario.databaseQueries := None |});
    ("spikeTest",
     {| Scenario.concurrentUsers := None;
        Scenario.requestsPerUser := None;
        Scenario.delayBetweenRequests := None;
        Scenario.endpoints := Some [ "/api/health"; "/api/markets/price" ];
        Scenario.databaseQueries := None |});
    ("enduranceTest",
     {| Scenario.concurrentUsers := Some 25;
        Scenario.requestsPerUser := None;
        Scenario.delayBetweenRequests := None;
        Scenario.endpoints :=
          Some [ "/api/health"; "/api/users/profile"; "/api/markets/price" ];
        Scenario.databaseQueries := None |});
    ("databaseLoad",
     {| Scenario.concurrentUsers := Some 30;
        Scenario.requestsPerUser := None;
        Scenario.delayBetweenRequests := None;
        Scenario.endpoints := None;
        Scenario.databaseQueries :=
          Some [ "SELECT COUNT(*) FROM users WHERE active = true";
                 "SELECT * FROM transactions WHERE user_id = ? ORDER BY created_at DESC LIMIT 10";
                 "SELECT symbol, price FROM market_data WHERE updated_at > NOW() - INTERVAL 1 HOUR";
                 ("SELECT * FROM orders WHERE status = " ++ dquote
                  ++ "pending" ++ dquote
                  ++ " ORDER BY created_at ASC LIMIT 20")%string ] |}) ].

(** [config.environments]: the base URL of each environment. *)
Definition config_environments : list (string * string) :=
  [ ("development", "http://localhost:3000");
    ("staging", "https://staging.inr100.com");
    ("production", "https://api.inr100.com") ].

(** [object[key]] on an object literal; [None] is [undefined].  (The keys an
    object inherits, such as [constructor], are left out.) *)
Fixpoint property {A : Type} (key : string) (object : list (string * A))
  : option A :=
  match object with
  | [] => None
  | (name, value) :: rest =>
      if String.eqb key name then Some value else property key rest
  end.

(** [this.results] of the runner, the two objects that [runScenario]
    writes. *)
Record RunnerResults : Type := mkRunnerResults {
  webTests : gmap string EndpointResult.t;
  databaseTests : gmap string DbResult
}.

(** What the database does during one scenario: whether the two modules
    were loaded, the outcome of [initialize], the platforms of the two
    tests, and the error of [pool.end()] if it fails. *)
Inductive InitReply : Type :=
| CreatePoolFailed (message : string)
| ConnectionFailed (message : string)
| Connected.

Record DatabasePlatform : Type := mkDatabasePlatform {
  testerLoaded : bool;          (* [DatabaseLoadTester] is not [null] *)
  mysqlLoaded : bool;           (* [mysql] is not [null] *)
  initReply : InitReply;
  queriesWorld : QueryBatchWorld;
  concurrentWorld : QueryBatchWorld;
  endReply : option string
}.

(** [initialize()]: the pool is set as soon as it is created, also when the
    connection test that follows fails. *)
Definition initialize (mysqlLoaded : bool) (reply : InitReply)
  : Promise bool * Pool :=
  if mysqlLoaded then
    match reply with
    | CreatePoolFailed message => (Rejected message, None)
    | ConnectionFailed message => (Rejected message, Some 0)
    | Connected => (Fulfilled true, Some 0)
    end
  else
    (Rejected
       "MySQL2 module not available. Please install with: npm install mysql2",
     None).

(** [cleanup()] *)
Definition cleanup (pool : Pool) (endReply : option string) : Promise unit :=
  match pool with
  | Some _ =>
      match endReply with
      | None => Fulfilled tt
      | Some message => Rejected message
      end
  | None => Fulfilled tt
  end.

(** The database tests of [runScenario], with their [try], [catch] and
    [finally]: an error of the tests is caught, one of [cleanup] is not.
    [None] is a call outside this model: [Math.min] of a field the
    scenario does not have is [NaN]. *)
Definition database_tests (db : DatabasePlatform) (scenarioName : string)
    (scenario : Scenario.t) (databaseTests : gmap string DbResult)
  : option (Promise unit * gmap string DbResult) :=
  match initialize (mysqlLoaded db) (initReply db) with
  | (Fulfilled _, pool) =>
      match testINR100Queries (queriesWorld db) pool with
      | Fulfilled dbResults =>
          let databaseTests :=
            <[(scenarioName ++ "_queries")%string := DbQueries dbResults]>
              databaseTests in
          match Scenario.concurrentUsers scenario,
                Scenario.requestsPerUser scenario with
          | Some concurrentUsers, Some requestsPerUser =>
              match testConcurrentLoad (concurrentWorld db) pool
                      (Nat.min concurrentUsers 30)
                      (Nat.min (requestsPerUser * 10) 60) with
              | Fulfilled concurrentResults =>
                  Some (cleanup pool (endReply db),
                        <[(scenarioName ++ "_concurrent")%string :=
                            DbConcurrent concurrentResults]> databaseTests)
              | Rejected _ => Some (cleanup pool (endReply db), databaseTests)
              | Pending => Some (Pending, databaseTests)
              end
          | _, _ => None
          end
      | Rejected _ => Some (cleanup pool (endReply db), databaseTests)
      | Pending => Some (Pending, databaseTests)
      end
  | (Rejected _, pool) => Some (cleanup pool (endReply db), databaseTests)
  | (Pending, _) => Some (Pending, databaseTests)
  end.

Section RunScenario.

Variable after_scheme : string -> string -> option Url.URL.

(** The loop of [runScenario] over the endpoints; [worlds i] is the
    platform of the batch of index [i]. *)
Fixpoint run_endpoints (worlds : nat -> BatchWorld) (i : nat)
    (tester : LoadTester) (scenarioName baseUrl : string)
    (concurrentUsers requestsPerUser : nat) (delayBetweenRequests : Q)
    (endpoints : list string) (webTests : gmap string EndpointResult.t)
  : Promise unit * gmap string EndpointResult.t :=
  match endpoints with
  | [] => (Fulfilled tt, webTests)
  | endpoint :: rest =>
      match testEndpoint after_scheme (worlds i) tester
              (baseUrl ++ endpoint)%string concurrentUsers requestsPerUser
              delayBetweenRequests with
      | Fulfilled (result, tester') =>
          run_endpoints worlds (S i) tester' scenarioName baseUrl
            concurrentUsers requestsPerUser delayBetweenRequests rest
            (<[(scenarioName ++ "_" ++ endpoint)%string := result]> webTests)
      | Rejected e => (Rejected e, webTests)
      | Pending => (Pending, webTests)
      end
  end.

(** [runScenario(scenarioName, environment)]: how the call ends, and
    [this.results] at that point.  [saveReply] is the error of writing the
    file of the scenario, if it fails.  A field the scenario does not have
    is passed as [undefined], for which [testEndpoint] takes its default. *)
Definition runScenario (worlds : nat -> BatchWorld) (db : DatabasePlatform)
    (saveReply : option string) (results : RunnerResults)
    (scenarioName environment : string)
  : option (Promise unit * RunnerResults) :=
  match property scenarioName config_scenarios with
  | None =>
      Some (Rejected ("Scenario '" ++ scenarioName ++ "' not found")%string,
            results)
  | Some scenario =>
      match property environment config_environments with
      | None =>
          Some (Rejected
                  "Cannot read properties of undefined (reading 'baseUrl')",
                results)
      | Some baseUrl =>
          let tester := new_LoadTester in
          match Scenario.endpoints scenario with
          | None => Some (Rejected "scenario.endpoints is not iterable", results)
          | Some endpoints =>
              let concurrentUsers :=
                match Scenario.concurrentUsers scenario with
                | Some n => n
                | None => 10
                end in
              let requestsPerUser :=
                match Scenario.requestsPerUser scenario with
                | Some n => n
                | None => 1
                end in
              let delayBetweenRequests :=
                match Scenario.delayBetweenRequests scenario with
                | Some d => if Qeq_bool d 0 then 100%Q else d
                | None => 100%Q
                end in
              match run_endpoints worlds 0 tester scenarioName baseUrl
                      concurrentUsers requestsPerUser delayBetweenRequests
                      endpoints (webTests results) with
              | (Fulfilled _, webTests) =>
                  let save (databaseTests : gmap string DbResult) :=
                    (match saveReply with
                     | None => Fulfilled tt
                     | Some message => Rejected message
                     end,
                     {| webTests := webTests;
                        databaseTests := databaseTests |}) in
                  match Scenario.databaseQueries scenario with
                  | Some _ =>
                      if testerLoaded db then
                        match database_tests db scenarioName scenario
                                (databaseTests results) with
                        | Some (Fulfilled _, databaseTests) =>
                            Some (save databaseTests)
                        | Some (Rejected e, databaseTests) =>
                            Some (Rejected e,
                                  {| webTests := webTests;
                                     databaseTests := databaseTests |})
                        | Some (Pending, databaseTests) =>
                            Some (Pending,
                                  {| webTests := webTests;
                                     databaseTests := databaseTests |})
                        | None => None
                        end
                      else Some (save (databaseTests results))
                  | None => Some (save (databaseTests results))
                  end
              | (Rejected e, webTests) =>
                  Some (Rejected e,
                        {| webTests := webTests;
                           databaseTests := databaseTests results |})
              | (Pending, webTests) =>
                  Some (Pending,
                        {| webTests := webTests;
                           databaseTests := databaseTests results |})
              end
          end
      end
  end.

End RunScenario.


(** ** More sample platforms *)

(** A database that answers every query with one row after [latency] ms. *)
Definition steady_query_world (latency elapsed : Q) : QueryBatchWorld :=
  {| query_clock_at := fun _ _ => 0%Q;
     query_world_at := fun _ _ =>
       {| acquire := Acquired; execute := Rows (Some 1);
          q_endTime := latency |};
     batchStart := 0%Q;
     batchJoined := elapsed;
     statsReply :=
       StatsAnswered
         {| configuredConnections := 50; activeConnections := 1;
              totalConnections := 1; poolReady := 1; poolIdle := 1;
              poolQueueing := 0 |};
     loop_clock_at := fun i => inject_Z (Z.of_nat (5 * i));
     random_at := fun _ => (1 # 2)%Q |}.

(** A clock that is read every two minutes. *)
Definition two_minute_clock (k : nat) : Q :=
  inject_Z (120000 * Z.of_nat k).

(** ** Facts about numbers *)

Lemma Qltb_lt (a b : Q) : JS.Qltb a b = true <-> (a < b)%Q.
Proof.
  unfold JS.Qltb. rewrite negb_true_iff.
  split.
  - intros H. apply Qnot_le_lt. intros Hle.
    apply Qle_bool_iff in Hle. congruence.
  - intros H. destruct (Qle_bool b a) eqn:E; [|reflexivity].
    apply Qle_bool_iff in E. exfalso. apply (Qlt_not_le _ _ H E).
Qed.

Lemma Qltb_ge (a b : Q) : JS.Qltb a b = false <-> (b <= a)%Q.
Proof.
  unfold JS.Qltb. rewrite negb_false_iff. apply Qle_bool_iff.
Qed.

Lemma of_nat_pos (n : nat) : 0 < n -> (0 < inject_Z (Z.of_nat n))%Q.
Proof.
  intros H. change 0%Q with (inject_Z 0). rewrite <- Zlt_Qlt. lia.
Qed.

Lemma of_nat_nonzero (n : nat) :
  0 < n -> Qeq_bool (inject_Z (Z.of_nat n)) 0 = false.
Proof.
  intros H. destruct (Qeq_bool _ _) eqn:E; [|reflexivity].
  apply Qeq_bool_eq in E. pose proof (of_nat_pos n H) as Hp.
  rewrite E in Hp. exfalso. apply (Qlt_irrefl _ Hp).
Qed.

Lemma div_by_count (s : Q) (n : nat) :
  0 < n -> JS.div (JS.Fin s) (JS.of_nat n) = JS.Fin (s / inject_Z (Z.of_nat n)).
Proof.
  intros H. unfold JS.div, JS.of_nat. now rewrite of_nat_nonzero.
Qed.

(** [lt] and [gt] do not tell apart two representations of a number. *)
Lemma lt_eqv_l (x x' y : JS.number) :
  JS.eqv x x' -> JS.lt x y = JS.lt x' y.
Proof.
  destruct x, x'; simpl; try contradiction; try reflexivity.
  intros E. destruct y; try reflexivity.
  unfold JS.lt, JS.Qltb. now rewrite E.
Qed.


(** *** Sums, minima and maxima of an array *)

Lemma fold_plus_acc (l : list Q) (acc : Q) :
  (fold_left Qplus l acc == acc + sum l)%Q.
Proof.
  unfold sum. revert acc.
  induction l as [|x l IH]; intros acc; simpl.
  - ring.
  - rewrite (IH (acc + x)%Q), (IH (0 + x)%Q). ring.
Qed.

Lemma sum_cons (x : Q) (l : list Q) : (sum (x :: l) == x + sum l)%Q.
Proof.
  unfold sum at 1. simpl. rewrite fold_plus_acc. ring.
Qed.

Lemma sum_lower (a : Q) (l : list Q) :
  Forall (fun y => (a <= y)%Q) l ->
  (a * inject_Z (Z.of_nat (length l)) <= sum l)%Q.
Proof.
  induction 1 as [|y l Hy Hl IH].
  - unfold sum. simpl. rewrite Qmult_0_r. apply Qle_refl.
  - rewrite sum_cons. simpl length. rewrite Nat2Z.inj_succ.
    unfold Z.succ. rewrite inject_Z_plus.
    change (inject_Z 1) with 1%Q. lra.
Qed.

Lemma sum_upper (b : Q) (l : list Q) :
  Forall (fun y => (y <= b)%Q) l ->
  (sum l <= b * inject_Z (Z.of_nat (length l)))%Q.
Proof.
  induction 1 as [|y l Hy Hl IH].
  - unfold sum. simpl. rewrite Qmult_0_r. apply Qle_refl.
  - rewrite sum_cons. simpl length. rewrite Nat2Z.inj_succ.
    unfold Z.succ. rewrite inject_Z_plus.
    change (inject_Z 1) with 1%Q. lra.
Qed.

Lemma fold_min_le_acc (l : list Q) (acc : Q) :
  (fold_left Qmin l acc <= acc)%Q.
Proof.
  revert acc. induction l as [|x l IH]; intros acc; simpl.
  - apply Qle_refl.
  - eapply Qle_trans; [apply IH | apply Q.le_min_l].
Qed.

Lemma fold_min_le_all (l : list Q) (acc : Q) :
  Forall (fun y => (fold_left Qmin l acc <= y)%Q) l.
Proof.
  revert acc. induction l as [|x l IH]; intros acc; simpl.
  - constructor.
  - constructor; [|apply IH].
    eapply Qle_trans; [apply fold_min_le_acc | apply Q.le_min_r].
Qed.

Lemma fold_max_ge_acc (l : list Q) (acc : Q) :
  (acc <= fold_left Qmax l acc)%Q.
Proof.
  revert acc. induction l as [|x l IH]; intros acc; simpl.
  - apply Qle_refl.
  - eapply Qle_trans; [apply Q.le_max_l | apply IH].
Qed.

Lemma fold_max_ge_all (l : list Q) (acc : Q) :
  Forall (fun y => (y <= fold_left Qmax l acc)%Q) l.
Proof.
  revert acc. induction l as [|x l IH]; intros acc; simpl.
  - constructor.
  - constructor; [|apply IH].
    eapply Qle_trans; [apply Q.le_max_r | apply fold_max_ge_acc].
Qed.

(** ** Facts about promises and batches *)

Lemma all_values_length {A : Type} (ps : list (Promise A)) (vs : list A) :
  all_values ps = Some vs -> length vs = length ps.
Proof.
  revert vs. induction ps as [|p ps IH]; intros vs H; simpl in H.
  - now inversion H.
  - destruct p as [a| |]; try discriminate.
    destruct (all_values ps) as [vs'|]; try discriminate.
    inversion H; subst. simpl. f_equal. now apply IH.
Qed.

Lemma Promise_all_fulfilled {A : Type} (ps : list (Promise A)) (vs : list A) :
  Promise_all ps = Fulfilled vs -> all_values ps = Some vs.
Proof.
  unfold Promise_all. destruct (first_rejection ps); [discriminate|].
  destruct (all_values ps); [|discriminate]. congruence.
Qed.

Lemma all_values_Forall2 {A : Type} (ps : list (Promise A)) (vs : list A) :
  all_values ps = Some vs -> Forall2 (fun p v => p = Fulfilled v) ps vs.
Proof.
  revert vs. induction ps as [|p ps IH]; intros vs H; simpl in H.
  - inversion H. constructor.
  - destruct p as [a| |]; try discriminate.
    destruct (all_values ps) as [vs'|]; try discriminate.
    inversion H; subst. constructor; [reflexivity | now apply IH].
Qed.

Lemma filter_partition_length {A : Type} (f : A -> bool) (l : list A) :
  length (List.filter f l) + length (List.filter (fun x => negb (f x)) l)
  = length l.
Proof.
  induction l as [|x l IH]; simpl; [reflexivity|].
  destruct (f x); simpl; lia.
Qed.

Section BatchFacts.

Variable after_scheme : string -> string -> option Url.URL.

Lemma push_all_length (w : BatchWorld) (url : string) (C M : nat) :
  length (push_all after_scheme w url C M) = C * M.
Proof.
  unfold push_all. generalize 0 at 2.
  induction C as [|C IH]; intros start; simpl; [reflexivity|].
  rewrite length_app, length_map, length_seq, IH. reflexivity.
Qed.

(** A call that returns has joined every request of the batch. *)
Lemma testEndpoint_inv (w : BatchWorld) (self : LoadTester) (url : string)
    (C M : nat) (D : Q) (r : EndpointResult.t) (self' : LoadTester) :
  testEndpoint after_scheme w self url C M D = Fulfilled (r, self') ->
  exists results,
    Promise_all (push_all after_scheme w url C M) = Fulfilled results
    /\ r = endpoint_result url C M results (joinedTime w - launchedTime w)
    /\ self' = store_results self url r results.
Proof.
  unfold testEndpoint, mbind, Promise_bind, await, mret, Promise_ret.
  destruct (Promise_all _) as [results| |]; try discriminate.
  intros H. inversion H; subst. exists results. auto.
Qed.

Lemma testEndpoint_totalRequests (w : BatchWorld) (self : LoadTester)
    (url : string) (C M : nat) (D : Q) (r : EndpointResult.t)
    (self' : LoadTester) :
  testEndpoint after_scheme w self url C M D = Fulfilled (r, self') ->
  EndpointResult.totalRequests r = C * M.
Proof.
  intros H. apply testEndpoint_inv in H as (results & Hall & -> & _).
  simpl. apply Promise_all_fulfilled, all_values_length in Hall.
  now rewrite Hall, push_all_length.
Qed.

Lemma endpoint_result_counts (url : string) (C M : nat)
    (results : list HttpOutcome) (t : Q) :
  let r := endpoint_result url C M results t in
  EndpointResult.successfulRequests r + EndpointResult.failedRequests r
  = EndpointResult.totalRequests r.
Proof. simpl. apply filter_partition_length. Qed.

Lemma store_results_consistent (self : LoadTester) (url : string) (C M : nat)
    (results : list HttpOutcome) (t : Q) :
  summary_consistent (summary self) ->
  summary_consistent
    (summary (store_results self url (endpoint_result url C M results t)
                results)).
Proof.
  unfold summary_consistent. intros H. simpl.
  pose proof (filter_partition_length (fun r => success r) results). lia.
Qed.

End BatchFacts.

(** ** Counts of a batch and of the running summary *)

(** C9.  Every batch result returned by [testEndpoint] has
    [successfulRequests + failedRequests = totalRequests]; a call keeps the
    same equation true of the running summary of the tester, and so the
    summary satisfies it after any sequence of calls on one instance. *)
Theorem testEndpoint_counts_add_up
    (after_scheme : string -> string -> option Url.URL) :
  (forall w self url C M D r self',
      testEndpoint after_scheme w self url C M D = Fulfilled (r, self') ->
      EndpointResult.successfulRequests r + EndpointResult.failedRequests r
      = EndpointResult.totalRequests r
      /\ (summary_consistent (summary self) ->
          summary_consistent (summary self')))
  /\ (forall self,
         reachable after_scheme self -> summary_consistent (summary self)).
Proof.
  assert (Hstep : forall w self url C M D r self',
             testEndpoint after_scheme w self url C M D = Fulfilled (r, self') ->
             EndpointResult.successfulRequests r
             + EndpointResult.failedRequests r
             = EndpointResult.totalRequests r
             /\ (summary_consistent (summary self) ->
                 summary_consistent (summary self'))).
  { intros w self url C M D r self' H.
    apply testEndpoint_inv in H as (results & _ & -> & ->).
    split; [apply endpoint_result_counts|].
    apply store_results_consistent. }
  split; [exact Hstep|].
  induction 1 as [|self w url C M D r self' _ IH Hcall].
  - reflexivity.
  - now apply (Hstep _ _ _ _ _ _ _ _ Hcall).
Qed.

(** Two users, three requests each, the requests of user 0 refused: the
    counters of the batch and of the tester after the call agree. *)
Lemma testEndpoint_counts_add_up_witness :
  exists r self',
    testEndpoint local_after_scheme (flaky_world 50 60) new_LoadTester
      health_url 2 3 100 = Fulfilled (r, self')
    /\ EndpointResult.failedRequests r = 3
    /\ EndpointResult.successfulRequests r + EndpointResult.failedRequests r
       = EndpointResult.totalRequests r
    /\ summary_consistent (summary self').
Proof.
  eexists. eexists. split; [vm_compute; reflexivity|].
  split; [reflexivity|].
  refine (let H := proj1 (testEndpoint_counts_add_up local_after_scheme)
                     (flaky_world 50 60) new_LoadTester health_url 2 3 100%Q
                     _ _ _ in
          conj (proj1 H) (proj2 H eq_refl)).
  vm_compute. reflexivity.
Defined.

(** Ten users, five requests each, every request answered with 200 after
    50 ms: fifty requests, no error, 50 ms on average. *)
Example testEndpoint_fixed_latency :
  exists r self',
    testEndpoint local_after_scheme (steady_world 200 50 60) new_LoadTester
      health_url 10 5 100 = Fulfilled (r, self')
    /\ EndpointResult.totalRequests r = 50
    /\ JS.eqv (EndpointResult.errorRate r) (JS.Fin 0)
    /\ JS.eqv (EndpointResult.avgResponseTime r) (JS.Fin 50).
Proof.
  eexists. eexists. split; [vm_compute; reflexivity|].
  repeat split.
Qed.

(** ** Error rate of a batch *)

Lemma error_rate_quotient (failed total : nat) :
  0 < total ->
  JS.eqv (JS.mul (JS.div (JS.of_nat failed) (JS.of_nat total)) (JS.Fin 100))
    (JS.Fin (100 * inject_Z (Z.of_nat failed) / inject_Z (Z.of_nat total))).
Proof.
  intros Hn. unfold JS.of_nat at 1.
  rewrite div_by_count by exact Hn. cbn [JS.mul JS.eqv].
  pose proof (of_nat_pos _ Hn) as Hp.
  field. intros E. rewrite E in Hp. apply (Qlt_irrefl _ Hp).
Qed.

(** C4, amended.  For a batch result returned by [testEndpoint], [errorRate]
    is [100 * failedRequests / totalRequests] when [totalRequests > 0]; the
    division has no guard, and for an empty batch [errorRate] is [NaN]. *)
Theorem testEndpoint_errorRate
    (after_scheme : string -> string -> option Url.URL)
    (w : BatchWorld) (self : LoadTester) (url : string) (C M : nat) (D : Q)
    (r : EndpointResult.t) (self' : LoadTester) :
  testEndpoint after_scheme w self url C M D = Fulfilled (r, self') ->
  (0 < EndpointResult.totalRequests r ->
   JS.eqv (EndpointResult.errorRate r)
     (JS.Fin (100 * inject_Z (Z.of_nat (EndpointResult.failedRequests r))
              / inject_Z (Z.of_nat (EndpointResult.totalRequests r)))))
  /\ (EndpointResult.totalRequests r = 0 ->
      EndpointResult.errorRate r = JS.NaN)
  /\ (let s := report_summary self' in
      (0 < Summary.totalRequests s ->
       JS.eqv (Summary.errorRate s)
         (JS.Fin (100 * inject_Z (Z.of_nat (Summary.failedRequests s))
                  / inject_Z (Z.of_nat (Summary.totalRequests s)))))
      /\ (Summary.totalRequests s = 0 -> Summary.failedRequests s = 0 ->
          Summary.errorRate s = JS.NaN)).
Proof.
  intros H. apply testEndpoint_inv in H as (results & _ & -> & _).
  unfold endpoint_result.
  cbn [EndpointResult.errorRate EndpointResult.totalRequests
       EndpointResult.failedRequests].
  split; [|split].
  - intros Hn. now apply error_rate_quotient.
  - intros Hn. apply length_zero_iff_nil in Hn. subst results. reflexivity.
  - unfold report_summary.
    cbn [Summary.errorRate Summary.totalRequests Summary.failedRequests].
    split.
    + intros Hn. now apply error_rate_quotient.
    + intros -> ->. reflexivity.
Qed.

(** Two users, one request each; the request of user 0 is refused: one
    failure out of two requests. *)
Lemma testEndpoint_errorRate_witness :
  exists r self',
    testEndpoint local_after_scheme (flaky_world 50 60) new_LoadTester
      health_url 2 1 100 = Fulfilled (r, self')
    /\ EndpointResult.totalRequests r = 2
    /\ EndpointResult.failedRequests r = 1
    /\ JS.eqv (EndpointResult.errorRate r)
         (JS.Fin (100 * inject_Z (Z.of_nat (EndpointResult.failedRequests r))
                  / inject_Z (Z.of_nat (EndpointResult.totalRequests r)))).
Proof.
  eexists. eexists. split; [vm_compute; reflexivity|].
  split; [reflexivity|]. split; [reflexivity|].
  eapply (testEndpoint_errorRate local_after_scheme (flaky_world 50 60)
            new_LoadTester health_url 2 1 100).
  - vm_compute. reflexivity.
  - vm_compute. lia.
Defined.

(** C4, as stated, fails: a call with no user returns a batch of no request
    whose [errorRate] is [NaN], not [0]. *)
Lemma testEndpoint_empty_batch_errorRate :
  exists r self',
    testEndpoint local_after_scheme (steady_world 200 50 60) new_LoadTester
      health_url 0 5 100 = Fulfilled (r, self')
    /\ EndpointResult.totalRequests r = 0
    /\ EndpointResult.errorRate r = JS.NaN
    /\ ~ JS.eqv (EndpointResult.errorRate r) (JS.Fin 0).
Proof.
  eexists. eexists. split; [vm_compute; reflexivity|].
  repeat split. intros H. exact H.
Qed.

(** ** Throughput of a batch *)

(** C5, amended.  [requestsPerSecond] is the quotient
    [totalRequests / (totalTime / 1000)] of JavaScript, with no guard on the
    divisor: a finite number when the elapsed time is not zero, [Infinity]
    for a non-empty batch joined within one clock reading, and [NaN] for an
    empty one. *)
Theorem testEndpoint_requestsPerSecond
    (after_scheme : string -> string -> option Url.URL)
    (w : BatchWorld) (self : LoadTester) (url : string) (C M : nat) (D : Q)
    (r : EndpointResult.t) (self' : LoadTester) :
  testEndpoint after_scheme w self url C M D = Fulfilled (r, self') ->
  let n := EndpointResult.totalRequests r in
  let elapsed := EndpointResult.totalTime r in
  elapsed = (joinedTime w - launchedTime w)%Q
  /\ EndpointResult.requestsPerSecond r
     = JS.div (JS.of_nat n) (JS.div (JS.Fin elapsed) (JS.Fin 1000))
  /\ (~ elapsed == 0 ->
      JS.eqv (EndpointResult.requestsPerSecond r)
        (JS.Fin (inject_Z (Z.of_nat n) / (elapsed / 1000))))
  /\ (elapsed == 0 -> 0 < n -> EndpointResult.requestsPerSecond r = JS.PosInf)
  /\ (elapsed == 0 -> n = 0 -> EndpointResult.requestsPerSecond r = JS.NaN)
  /\ Summary.requestsPerSecond (report_summary self')
     = JS.div (JS.of_nat (Summary.totalRequests (summary self')))
         (JS.div (JS.Fin (Summary.totalTime (summary self'))) (JS.Fin 1000)).
Proof.
  intros H. apply testEndpoint_inv in H as (results & _ & -> & _).
  unfold endpoint_result.
  cbn [EndpointResult.requestsPerSecond EndpointResult.totalRequests
       EndpointResult.totalTime].
  set (t := (joinedTime w - launchedTime w)%Q).
  set (n := length results).
  assert (Hdiv : JS.div (JS.Fin t) (JS.Fin 1000) = JS.Fin (t / 1000)) by reflexivity.
  split; [reflexivity|]. split; [reflexivity|].
  rewrite Hdiv. unfold JS.of_nat, JS.div.
  repeat split.
  - intros Ht. destruct (Qeq_bool (t / 1000) 0) eqn:E.
    + exfalso. apply Ht. apply Qeq_bool_eq in E.
      assert (Hq : t == (t / 1000) * 1000) by (field; discriminate).
      rewrite Hq, E. ring.
    + simpl. reflexivity.
  - intros Ht Hn.
    assert (E : Qeq_bool (t / 1000) 0 = true).
    { apply Qeq_eq_bool. rewrite Ht. reflexivity. }
    rewrite E, (of_nat_nonzero n Hn).
    assert (Hp : JS.Qltb 0 (inject_Z (Z.of_nat n)) = true)
      by (apply Qltb_lt, of_nat_pos, Hn).
    now rewrite Hp.
  - intros Ht Hn.
    assert (E : Qeq_bool (t / 1000) 0 = true).
    { apply Qeq_eq_bool. rewrite Ht. reflexivity. }
    rewrite E, Hn. reflexivity.
Qed.

Lemma testEndpoint_requestsPerSecond_witness :
  exists r self',
    testEndpoint local_after_scheme (steady_world 200 50 60) new_LoadTester
      health_url 10 5 100 = Fulfilled (r, self')
    /\ EndpointResult.totalRequests r = 50
    /\ JS.eqv (EndpointResult.requestsPerSecond r)
         (JS.Fin (inject_Z 50 / (60 / 1000))).
Proof.
  eexists. eexists. split; [vm_compute; reflexivity|].
  split; [reflexivity|].
  refine (proj1 (proj2 (proj2
    (testEndpoint_requestsPerSecond local_after_scheme (steady_world 200 50 60)
       new_LoadTester health_url 10 5 100 _ _ _))) _).
  - vm_compute. reflexivity.
  - vm_compute. discriminate.
Defined.

(** C5, as stated, fails: one request answered and joined within a single
    clock reading gives a batch whose [requestsPerSecond] is [Infinity]. *)
Lemma testEndpoint_requestsPerSecond_infinite :
  exists r self',
    testEndpoint local_after_scheme (steady_world 200 0 0) new_LoadTester
      health_url 1 1 100 = Fulfilled (r, self')
    /\ EndpointResult.totalRequests r = 1
    /\ EndpointResult.totalTime r == 0
    /\ EndpointResult.requestsPerSecond r = JS.PosInf.
Proof.
  eexists. eexists. split; [vm_compute; reflexivity|].
  repeat split.
Qed.

(** ** Facts about the rounding to binary64 *)

Lemma two_power_pos (e : Z) : (0 < 2 ^ e)%Q.
Proof. apply Qpower_0_lt. reflexivity. Qed.

Lemma two_power_succ (e : Z) : (2 ^ (e + 1) == 2 * 2 ^ e)%Q.
Proof.
  rewrite Qpower_plus by discriminate. rewrite Qpower_1_r. ring.
Qed.

Lemma log2_bounds (a : Z) :
  (0 < a)%Z ->
  (2 ^ Z.log2 a <= inject_Z a)%Q /\ (inject_Z a < 2 * 2 ^ Z.log2 a)%Q.
Proof.
  intros Ha. destruct (Z.log2_spec a Ha) as [Hlo Hhi].
  pose proof (Z.log2_nonneg a) as Hnn.
  assert (E : (2 ^ Z.log2 a == inject_Z (2 ^ Z.log2 a))%Q).
  { rewrite (Zpower_Qpower 2 _ Hnn). reflexivity. }
  rewrite E. split.
  - rewrite <- Zle_Qle. exact Hlo.
  - change 2%Q with (inject_Z 2).
    rewrite <- inject_Z_mult, <- Zlt_Qlt.
    rewrite Z.pow_succ_r in Hhi by exact Hnn. exact Hhi.
Qed.

Lemma div_lt_div (A B PA PB : Q) :
  (0 < A -> 0 < B -> 0 < PA -> 0 < PB -> A < 2 * PA -> PB <= B ->
   A / B < 2 * (PA / PB))%Q.
Proof.
  intros HA HB HPA HPB H1 H2.
  apply Qlt_shift_div_r; [exact HB|].
  assert (E : (PA / PB * PB == PA)%Q) by (field; lra).
  set (t := (PA / PB)%Q) in *.
  assert (Ht : (0 < t)%Q).
  { unfold t. apply Qlt_shift_div_l; [exact HPB | lra]. }
  nra.
Qed.

Lemma div_le_div (A B PA PB : Q) :
  (0 < A -> 0 < B -> 0 < PA -> 0 < PB -> PA <= A -> B < 2 * PB ->
   PA / PB <= 2 * (A / B))%Q.
Proof.
  intros HA HB HPA HPB H1 H2.
  apply Qle_shift_div_r; [exact HPB|].
  assert (E : (A / B * B == A)%Q) by (field; lra).
  set (t := (A / B)%Q) in *.
  assert (Ht : (0 < t)%Q).
  { unfold t. apply Qlt_shift_div_l; [exact HB | lra]. }
  nra.
Qed.

(** The exponent of a positive rational. *)
Lemma exponent_spec (x : Q) :
  (0 < x)%Q ->
  (2 ^ Binary64.exponent x <= x)%Q /\ (x < 2 * 2 ^ Binary64.exponent x)%Q.
Proof.
  intros Hx. destruct x as [a b].
  assert (Ha : (0 < a)%Z).
  { unfold Qlt in Hx. simpl in Hx. lia. }
  destruct (log2_bounds a Ha) as [Ha1 Ha2].
  destruct (log2_bounds (Z.pos b) eq_refl) as [Hb1 Hb2].
  unfold Binary64.exponent. cbn [Qnum Qden].
  set (la := Z.log2 a) in *. set (lb := Z.log2 (Z.pos b)) in *.
  pose proof (two_power_pos la) as Pa. pose proof (two_power_pos lb) as Pb.
  assert (Hq : (a # b == inject_Z a / inject_Z (Z.pos b))%Q)
    by apply Qmake_Qdiv.
  assert (Hbpos : (0 < inject_Z (Z.pos b))%Q) by reflexivity.
  assert (Hapos : (0 < inject_Z a)%Q)
    by (change 0%Q with (inject_Z 0); rewrite <- Zlt_Qlt; exact Ha).
  assert (Ediv : (2 ^ (la - lb) == 2 ^ la / 2 ^ lb)%Q)
    by (apply Qpower_minus; discriminate).
  assert (Hup : (a # b < 2 * 2 ^ (la - lb))%Q).
  { rewrite Hq, Ediv. now apply div_lt_div. }
  assert (Hlow : (2 ^ (la - lb) <= 2 * (a # b))%Q).
  { rewrite Hq, Ediv. now apply div_le_div. }
  destruct (Qle_bool (2 ^ (la - lb)) (a # b)) eqn:E.
  - apply Qle_bool_iff in E. split; [exact E | exact Hup].
  - assert (Hlt : (a # b < 2 ^ (la - lb))%Q).
    { apply Qnot_le_lt. intros H. apply Qle_bool_iff in H. congruence. }
    assert (Eprev : (2 ^ (la - lb) == 2 * 2 ^ (la - lb - 1))%Q).
    { rewrite <- two_power_succ. apply Qpower_comp; [reflexivity | lia]. }
    split; lra.
Qed.

(** The nearest integer is at most one half away. *)
Lemma nearest_even_spec (x : Q) :
  (inject_Z (Binary64.nearest_even x) - x <= 1 # 2)%Q
  /\ (x - inject_Z (Binary64.nearest_even x) <= 1 # 2)%Q.
Proof.
  unfold Binary64.nearest_even.
  pose proof (Qfloor_le x) as Hlo. pose proof (Qlt_floor x) as Hhi.
  rewrite inject_Z_plus in Hhi. change (inject_Z 1) with 1%Q in Hhi.
  set (f := Qfloor x) in *.
  destruct (x - inject_Z f ?= 1 # 2)%Q eqn:E.
  - apply Qeq_alt in E. destruct (Z.even f).
    + split; lra.
    + rewrite inject_Z_plus. change (inject_Z 1) with 1%Q. split; lra.
  - apply Qlt_alt in E. split; lra.
  - apply Qgt_alt in E. rewrite inject_Z_plus.
    change (inject_Z 1) with 1%Q. split; lra.
Qed.

(** The relative error of rounding a number of the normal range is at most
    [2^-53]. *)
Lemma round_positive_error (x : Q) :
  (2 ^ (-1022) <= x)%Q ->
  (x * (1 + unit_roundoff) < 2 ^ 1024)%Q ->
  exists r,
    Binary64.round_positive x = JS.Fin r
    /\ (x * (1 - unit_roundoff) <= r)%Q /\ (r <= x * (1 + unit_roundoff))%Q.
Proof.
  intros Hnormal Hfinite.
  assert (Hx : (0 < x)%Q)
    by (eapply Qlt_le_trans; [apply (two_power_pos (-1022)) | exact Hnormal]).
  destruct (exponent_spec x Hx) as [Hlo Hhi].
  unfold Binary64.round_positive.
  set (e := Binary64.exponent x) in *.
  assert (He : (-1022 <= e)%Z).
  { assert (H : (2 ^ (-1022) < 2 ^ (e + 1))%Q).
    { rewrite two_power_succ. lra. }
    apply Qpower_lt_compat_l_inv in H; [lia | reflexivity]. }
  rewrite Z.max_l by lia.
  set (k := (e - 52)%Z).
  pose proof (two_power_pos k) as Pk.
  destruct (nearest_even_spec (x / 2 ^ k)) as [Hm1 Hm2].
  set (m := inject_Z (Binary64.nearest_even (x / 2 ^ k))) in *.
  assert (Escale : (x / 2 ^ k * 2 ^ k == x)%Q) by (field; lra).
  assert (Ek : (2 ^ e == 2 ^ k * 2 ^ 52)%Q).
  { rewrite <- Qpower_plus by discriminate.
    apply Qpower_comp; [reflexivity | unfold k; lia]. }
  assert (Hhalf : (2 ^ k * (1 # 2) <= x * unit_roundoff)%Q).
  { apply Qle_trans with (2 ^ e * unit_roundoff)%Q.
    - rewrite Ek. unfold unit_roundoff.
      change (2 ^ 52)%Q with 4503599627370496%Q.
      change (2 ^ (-53))%Q with (1 # 9007199254740992)%Q.
      lra.
    - apply Qmult_le_compat_r; [exact Hlo|]. unfold unit_roundoff.
      apply Qlt_le_weak, two_power_pos. }
  assert (Hr1 : (x - 2 ^ k * (1 # 2) <= m * 2 ^ k)%Q) by nra.
  assert (Hr2 : (m * 2 ^ k <= x + 2 ^ k * (1 # 2))%Q) by nra.
  exists (Qred (m * 2 ^ k)).
  assert (Er : (Qred (m * 2 ^ k) == m * 2 ^ k)%Q) by apply Qred_correct.
  split.
  - destruct (Qle_bool (2 ^ 1024) (Qred (m * 2 ^ k))) eqn:E; [|reflexivity].
    apply Qle_bool_iff in E. rewrite Er in E. exfalso. lra.
  - rewrite Er. split; lra.
Qed.

Lemma unit_roundoff_value : unit_roundoff = (1 # 9007199254740992)%Q.
Proof. reflexivity. Qed.

Lemma round_error (x : Q) :
  (2 ^ (-1022) <= x)%Q ->
  (x * (1 + unit_roundoff) < 2 ^ 1024)%Q ->
  exists r,
    Binary64.round x = JS.Fin r
    /\ (x * (1 - unit_roundoff) <= r)%Q /\ (r <= x * (1 + unit_roundoff))%Q.
Proof.
  intros Hnormal Hfinite.
  assert (Hx : (0 < x)%Q)
    by (eapply Qlt_le_trans; [apply (two_power_pos (-1022)) | exact Hnormal]).
  unfold Binary64.round.
  apply Qgt_alt in Hx. rewrite Hx.
  now apply round_positive_error.
Qed.

(** The factors by which [k] roundings can move a positive number. *)
Lemma growth_succ (k : nat) :
  ((1 + unit_roundoff) ^ Z.of_nat (S k)
   == (1 + unit_roundoff) ^ Z.of_nat k * (1 + unit_roundoff))%Q.
Proof.
  rewrite Nat2Z.inj_succ. unfold Z.succ.
  rewrite Qpower_plus by (rewrite unit_roundoff_value; discriminate).
  rewrite Qpower_1_r. reflexivity.
Qed.

Lemma decay_succ (k : nat) :
  ((1 - unit_roundoff) ^ Z.of_nat (S k)
   == (1 - unit_roundoff) ^ Z.of_nat k * (1 - unit_roundoff))%Q.
Proof.
  rewrite Nat2Z.inj_succ. unfold Z.succ.
  rewrite Qpower_plus by (rewrite unit_roundoff_value; discriminate).
  rewrite Qpower_1_r. reflexivity.
Qed.

Lemma growth_bounds (k : nat) :
  (2 * inject_Z (Z.of_nat k) * unit_roundoff <= 1)%Q ->
  (1 <= (1 + unit_roundoff) ^ Z.of_nat k)%Q
  /\ ((1 + unit_roundoff) ^ Z.of_nat k
      <= 1 + 2 * inject_Z (Z.of_nat k) * unit_roundoff)%Q.
Proof.
  rewrite unit_roundoff_value.
  induction k as [|k IH]; intros Hk.
  - change ((1 + (1 # 9007199254740992)) ^ Z.of_nat 0)%Q with 1%Q.
    change (inject_Z (Z.of_nat 0)) with 0%Q. split; lra.
  - pose proof (growth_succ k) as E. rewrite unit_roundoff_value in E.
    rewrite Nat2Z.inj_succ in Hk |- *. unfold Z.succ in Hk |- *.
    rewrite inject_Z_plus in Hk |- *. change (inject_Z 1) with 1%Q in Hk |- *.
    rewrite Nat2Z.inj_succ in E. unfold Z.succ in E.
    destruct IH as [IH1 IH2]; [lra|].
    assert (Hq : (0 <= inject_Z (Z.of_nat k))%Q).
    { change 0%Q with (inject_Z 0). rewrite <- Zle_Qle. lia. }
    rewrite E. split; nra.
Qed.

Lemma decay_bounds (k : nat) :
  (inject_Z (Z.of_nat k) * unit_roundoff <= 1)%Q ->
  (1 - inject_Z (Z.of_nat k) * unit_roundoff
   <= (1 - unit_roundoff) ^ Z.of_nat k)%Q
  /\ ((1 - unit_roundoff) ^ Z.of_nat k <= 1)%Q.
Proof.
  rewrite unit_roundoff_value.
  induction k as [|k IH]; intros Hk.
  - change ((1 - (1 # 9007199254740992)) ^ Z.of_nat 0)%Q with 1%Q.
    change (inject_Z (Z.of_nat 0)) with 0%Q. split; lra.
  - pose proof (decay_succ k) as E. rewrite unit_roundoff_value in E.
    rewrite Nat2Z.inj_succ in Hk |- *. unfold Z.succ in Hk |- *.
    rewrite inject_Z_plus in Hk |- *. change (inject_Z 1) with 1%Q in Hk |- *.
    rewrite Nat2Z.inj_succ in E. unfold Z.succ in E.
    destruct IH as [IH1 IH2]; [lra|].
    assert (Hq : (0 <= inject_Z (Z.of_nat k))%Q).
    { change 0%Q with (inject_Z 0). rewrite <- Zle_Qle. lia. }
    rewrite E. split; nra.
Qed.

Lemma inject_nat_succ (k : nat) :
  (inject_Z (Z.of_nat (S k)) == inject_Z (Z.of_nat k) + 1)%Q.
Proof.
  rewrite Nat2Z.inj_succ. unfold Z.succ. rewrite inject_Z_plus. reflexivity.
Qed.

Lemma inject_nat_nonneg (k : nat) : (0 <= inject_Z (Z.of_nat k))%Q.
Proof. change 0%Q with (inject_Z 0). rewrite <- Zle_Qle. lia. Qed.

Lemma growth_ge_1 (k : nat) : (1 <= (1 + unit_roundoff) ^ Z.of_nat k)%Q.
Proof.
  apply Qpower_1_le; [|lia]. rewrite unit_roundoff_value. discriminate.
Qed.

Lemma decay_pos (k : nat) : (0 < (1 - unit_roundoff) ^ Z.of_nat k)%Q.
Proof. apply Qpower_0_lt. rewrite unit_roundoff_value. reflexivity. Qed.

Lemma decay_le_1 (k : nat) : ((1 - unit_roundoff) ^ Z.of_nat k <= 1)%Q.
Proof.
  induction k as [|k IH]; [discriminate|].
  rewrite decay_succ. pose proof (decay_pos k) as Hp.
  rewrite unit_roundoff_value in *. nra.
Qed.

(** The bound on a sum of [j] terms does not decrease with [j]. *)
Lemma growth_bound_mono (j n : nat) (mx : Q) :
  j <= n -> (0 <= mx)%Q ->
  (inject_Z (Z.of_nat j) * mx * (1 + unit_roundoff) ^ Z.of_nat j
   <= inject_Z (Z.of_nat n) * mx * (1 + unit_roundoff) ^ Z.of_nat n)%Q.
Proof.
  intros Hjn Hmx.
  assert (Hq : (inject_Z (Z.of_nat j) <= inject_Z (Z.of_nat n))%Q)
    by (rewrite <- Zle_Qle; lia).
  assert (Hp : ((1 + unit_roundoff) ^ Z.of_nat j
                <= (1 + unit_roundoff) ^ Z.of_nat n)%Q).
  { apply Qpower_le_compat_l; [lia|].
    rewrite unit_roundoff_value. discriminate. }
  pose proof (growth_ge_1 j) as H1. pose proof (inject_nat_nonneg j) as H0.
  set (a := inject_Z (Z.of_nat j)) in *. set (b := inject_Z (Z.of_nat n)) in *.
  set (p := ((1 + unit_roundoff) ^ Z.of_nat j)%Q) in *.
  set (q := ((1 + unit_roundoff) ^ Z.of_nat n)%Q) in *.
  apply Qle_trans with (b * mx * p)%Q.
  - apply Qmult_le_compat_r; [|lra].
    apply Qmult_le_compat_r; [exact Hq | exact Hmx].
  - assert (Hbm : (0 <= b * mx)%Q) by (apply Qmult_le_0_compat; lra).
    rewrite !(Qmult_comm (b * mx)).
    apply Qmult_le_compat_r; [exact Hp | exact Hbm].
Qed.

(** The sum of the [reduce], term after term: each addition rounds a number
    of the normal range, and after [k] terms between [mn] and [mx] the sum
    is within [k * mn * (1 - u)^k] and [k * mx * (1 + u)^k]. *)
Lemma binary64_sum_bounds (mn mx : Q) (n : nat) :
  (2 ^ (-1022) <= mn)%Q ->
  (inject_Z (Z.of_nat n) * mx * (1 + unit_roundoff) ^ Z.of_nat n
   < 2 ^ 1024)%Q ->
  forall (ls : list Q) (k : nat) (acc : Q),
    k + length ls = n ->
    List.Forall (fun l => (mn <= l)%Q /\ (l <= mx)%Q) ls ->
    (inject_Z (Z.of_nat k) * mn * (1 - unit_roundoff) ^ Z.of_nat k <= acc)%Q ->
    (acc <= inject_Z (Z.of_nat k) * mx * (1 + unit_roundoff) ^ Z.of_nat k)%Q ->
    exists s,
      fold_left (fun a b => Binary64.add a (JS.Fin b)) ls (JS.Fin acc)
      = JS.Fin s
      /\ (inject_Z (Z.of_nat n) * mn * (1 - unit_roundoff) ^ Z.of_nat n
          <= s)%Q
      /\ (s <= inject_Z (Z.of_nat n) * mx * (1 + unit_roundoff) ^ Z.of_nat n)%Q.
Proof.
  intros Hnormal Hfinite.
  assert (Hmn : (0 < mn)%Q)
    by (eapply Qlt_le_trans; [apply (two_power_pos (-1022)) | exact Hnormal]).
  induction ls as [|l ls IH]; intros k acc Hlen Hall Hlo Hhi.
  - simpl in Hlen. rewrite Nat.add_0_r in Hlen. subst k.
    exists acc. split; [reflexivity|]. split; assumption.
  - apply List.Forall_cons_iff in Hall as [[Hl1 Hl2] Hrest].
    simpl in Hlen.
    assert (Hmx : (0 <= mx)%Q) by lra.
    pose proof (growth_bound_mono (S k) n mx ltac:(lia) Hmx) as Hmono.
    pose proof (growth_succ k) as Eg. pose proof (decay_succ k) as Ed.
    pose proof (growth_ge_1 k) as Hg1.
    pose proof (decay_pos k) as Hd0. pose proof (decay_le_1 k) as Hd1.
    pose proof (inject_nat_succ k) as Ek.
    pose proof (inject_nat_nonneg k) as Hk0.
    set (kq := inject_Z (Z.of_nat k)) in *.
    set (P := ((1 + unit_roundoff) ^ Z.of_nat k)%Q) in *.
    set (R := ((1 - unit_roundoff) ^ Z.of_nat k)%Q) in *.
    set (P' := ((1 + unit_roundoff) ^ Z.of_nat (S k))%Q) in *.
    set (R' := ((1 - unit_roundoff) ^ Z.of_nat (S k))%Q) in *.
    set (kq' := inject_Z (Z.of_nat (S k))) in *.
    assert (Hacc0 : (0 <= acc)%Q).
    { eapply Qle_trans; [|exact Hlo].
      apply Qmult_le_0_compat; [apply Qmult_le_0_compat|]; lra. }
    assert (HmnR : (mn * R <= mn)%Q) by nra.
    assert (HmxP : (mx <= mx * P)%Q) by nra.
    assert (Hx1 : (kq' * mn * R <= acc + l)%Q).
    { rewrite Ek. nra. }
    assert (Hx2 : (acc + l <= kq' * mx * P)%Q).
    { rewrite Ek. nra. }
    assert (Eup : (kq' * mx * P' == kq' * mx * P * (1 + unit_roundoff))%Q)
      by (rewrite Eg; ring).
    assert (Elo : (kq' * mn * R' == kq' * mn * R * (1 - unit_roundoff))%Q)
      by (rewrite Ed; ring).
    rewrite unit_roundoff_value in Eup, Elo.
    destruct (round_error (acc + l)) as (r & Hr & Hr1 & Hr2).
    + lra.
    + rewrite unit_roundoff_value. lra.
    + rewrite unit_roundoff_value in Hr1, Hr2.
      cbn [fold_left Binary64.add]. rewrite Hr.
      apply (IH (S k) r); [lia | exact Hrest | |].
      * fold kq' R'. lra.
      * fold kq' P'. lra.
Qed.

Lemma two_power_le (a b : Z) : (a <= b)%Z -> (2 ^ a <= 2 ^ b)%Q.
Proof. intros H. apply Qpower_le_compat_l; [exact H | discriminate]. Qed.

Lemma two_power_lt (a b : Z) : (a < b)%Z -> (2 ^ a < 2 ^ b)%Q.
Proof. intros H. apply Qpower_lt_compat_l; [exact H | reflexivity]. Qed.

Lemma two_power_mult (a b : Z) : (2 ^ a * 2 ^ b == 2 ^ (a + b))%Q.
Proof. symmetry. apply Qpower_plus. discriminate. Qed.

Lemma Qmult_le_compat_nonneg' (a b A B : Q) :
  (0 <= a -> 0 <= b -> a <= A -> b <= B -> a * b <= A * B)%Q.
Proof. intros. nra. Qed.

(** The average of at most [2^20] latencies between [2^-1000] and
    [2^1000] ms, as [reduce] and the division compute it: no sum leaves the
    normal range, and the result is within a relative error of
    [(n + 1) * 2^-53] below the smallest latency and [(n + 1) * 2^-52]
    above the largest. *)
Lemma binary64_average_bounds (latencies : list Q) (mn mx : Q) :
  latencies <> [] ->
  (Z.of_nat (length latencies) <= 1048576)%Z ->
  List.Forall (fun l => (mn <= l)%Q /\ (l <= mx)%Q) latencies ->
  (2 ^ (-1000) <= mn)%Q ->
  (mx <= 2 ^ 1000)%Q ->
  exists av,
    avgResponseTime_binary64 latencies = JS.Fin av
    /\ (mn * (1 - inject_Z (Z.of_nat (S (length latencies))) * unit_roundoff)
        <= av)%Q
    /\ (av
        <= mx * (1 + 2 * inject_Z (Z.of_nat (S (length latencies)))
                     * unit_roundoff))%Q.
Proof.
  intros Hne Hlen Hall Hmn Hmx.
  set (n := length latencies) in *.
  assert (Hn : 0 < n) by (unfold n; destruct latencies; [congruence | simpl; lia]).
  assert (Hmn0 : (0 < mn)%Q)
    by (eapply Qlt_le_trans; [apply (two_power_pos (-1000)) | exact Hmn]).
  assert (Hmnmx : (mn <= mx)%Q).
  { destruct latencies as [|l ls]; [congruence|].
    apply List.Forall_cons_iff in Hall as [[H1 H2] _]. lra. }
  pose proof (inject_nat_nonneg n) as Hn0.
  assert (Hnq : (1 <= inject_Z (Z.of_nat n))%Q)
    by (change 1%Q with (inject_Z 1); rewrite <- Zle_Qle; lia).
  assert (Hnq' : (inject_Z (Z.of_nat n) <= 2 ^ 20)%Q).
  { change (2 ^ 20)%Q with (inject_Z 1048576). rewrite <- Zle_Qle. lia. }
  pose proof (inject_nat_succ n) as En.
  destruct (growth_bounds n) as [Hg1 Hg2].
  { rewrite unit_roundoff_value.
    change (2 ^ 20)%Q with 1048576%Q in Hnq'. lra. }
  destruct (growth_bounds (S n)) as [Hg1' Hg2'].
  { rewrite unit_roundoff_value, En.
    change (2 ^ 20)%Q with 1048576%Q in Hnq'. lra. }
  destruct (decay_bounds n) as [Hd1 Hd2].
  { rewrite unit_roundoff_value.
    change (2 ^ 20)%Q with 1048576%Q in Hnq'. lra. }
  destruct (decay_bounds (S n)) as [Hd1' Hd2'].
  { rewrite unit_roundoff_value, En.
    change (2 ^ 20)%Q with 1048576%Q in Hnq'. lra. }
  pose proof (growth_succ n) as Eg. pose proof (decay_succ n) as Ed.
  set (P := ((1 + unit_roundoff) ^ Z.of_nat n)%Q) in *.
  set (R := ((1 - unit_roundoff) ^ Z.of_nat n)%Q) in *.
  set (P' := ((1 + unit_roundoff) ^ Z.of_nat (S n))%Q) in *.
  set (R' := ((1 - unit_roundoff) ^ Z.of_nat (S n))%Q) in *.
  set (nq := inject_Z (Z.of_nat n)) in *.
  set (nq' := inject_Z (Z.of_nat (S n))) in *.
  rewrite unit_roundoff_value in *.
  change (2 ^ 20)%Q with 1048576%Q in Hnq'.
  assert (HP2 : (P <= 2)%Q) by lra.
  assert (HR2 : (1 # 2 <= R)%Q) by lra.
  (* the sizes of the sum and of the quotient *)
  assert (Hsize : (nq * mx * P <= 2 ^ 1021)%Q).
  { setoid_replace (2 ^ 1021)%Q with (2 ^ 20 * 2 ^ 1000 * 2 ^ 1)%Q
      using relation Qeq by (rewrite !two_power_mult; reflexivity).
    apply Qmult_le_compat_nonneg'; [| lra | | exact HP2].
    - apply Qmult_le_0_compat; lra.
    - apply Qmult_le_compat_nonneg'; [lra | lra | exact Hnq' | exact Hmx]. }
  pose proof (two_power_lt 1021 1024 ltac:(lia)) as Hbig.
  pose proof (two_power_le (-1022) (-1000) ltac:(lia)) as Hsmall.
  pose proof (two_power_mult (-1001) 1) as Ehalf.
  change (2 ^ 1)%Q with 2%Q in Ehalf.
  change (-1001 + 1)%Z with (-1000)%Z in Ehalf.
  pose proof (two_power_le (-1022) (-1001) ltac:(lia)) as Hsmall'.
  destruct (binary64_sum_bounds mn mx n) with (ls := latencies) (k := 0)
    (acc := 0%Q) as (s & Hs & Hs1 & Hs2).
  - lra.
  - fold P nq. lra.
  - reflexivity.
  - exact Hall.
  - change (inject_Z (Z.of_nat 0)) with 0%Q. lra.
  - change (inject_Z (Z.of_nat 0)) with 0%Q. lra.
  - fold P R nq in Hs1, Hs2.
    unfold avgResponseTime_binary64, Binary64.div. rewrite Hs.
    fold n. rewrite (div_by_count s n Hn). cbn [Binary64.rounded]. fold nq.
    assert (Hq1 : (mn * R <= s / nq)%Q).
    { apply Qle_shift_div_l; [lra|]. lra. }
    assert (Hq2 : (s / nq <= mx * P)%Q).
    { apply Qle_shift_div_r; [lra|]. lra. }
    assert (HmnR : (mn * (1 # 2) <= mn * R)%Q) by nra.
    assert (HmxP : (mx * P <= 2 ^ 1000 * 2)%Q).
    { apply Qmult_le_compat_nonneg'; lra. }
    pose proof (two_power_mult 1000 1) as Emx.
    change (2 ^ 1)%Q with 2%Q in Emx. change (1000 + 1)%Z with 1001%Z in Emx.
    pose proof (two_power_mult 1001 1) as Emx2.
    change (2 ^ 1)%Q with 2%Q in Emx2.
    change (1001 + 1)%Z with 1002%Z in Emx2.
    pose proof (two_power_lt 1002 1024 ltac:(lia)) as Hbig2.
    pose proof (two_power_pos 1001) as Hp1001.
    destruct (round_error (s / nq)) as (av & Hav & Hav1 & Hav2).
    + lra.
    + rewrite unit_roundoff_value. lra.
    + rewrite unit_roundoff_value in Hav1, Hav2.
      exists av. split; [exact Hav|].
      assert (Elo : (mn * R' == mn * R * (1 - (1 # 9007199254740992)))%Q)
        by (rewrite Ed; ring).
      assert (Eup : (mx * P' == mx * P * (1 + (1 # 9007199254740992)))%Q)
        by (rewrite Eg; ring).
      assert (Hlo' : (mn * (1 - nq' * (1 # 9007199254740992)) <= mn * R')%Q)
        by nra.
      assert (Hup' : (mx * P' <= mx * (1 + 2 * nq' * (1 # 9007199254740992)))%Q)
        by nra.
      split; lra.
Qed.

(** ** Latency summary of a batch *)

Lemma Math_min_max_bounds (x : Q) (l : list Q) :
  exists mn mx,
    JS.Math_min (x :: l) = JS.Fin mn /\ JS.Math_max (x :: l) = JS.Fin mx
    /\ Forall (fun y => (mn <= y)%Q) (x :: l)
    /\ Forall (fun y => (y <= mx)%Q) (x :: l).
Proof.
  exists (fold_left Qmin l x), (fold_left Qmax l x).
  repeat split.
  - constructor; [apply fold_min_le_acc | apply fold_min_le_all].
  - constructor; [apply fold_max_ge_acc | apply fold_max_ge_all].
Qed.

(** C10, amended.  For a batch result returned by [testEndpoint] with at
    least one request, [minResponseTime] and [maxResponseTime] are finite,
    [minResponseTime <= maxResponseTime], and every latency of the batch
    lies between them.  The average, which the code computes in binary64 (a
    sum rounded term after term, then a rounded division), lies between
    them up to that rounding: for at most [2^20] latencies between
    [2^-1000] and [2^1000] ms it is at least
    [minResponseTime * (1 - (n + 1) * 2^-53)] and at most
    [maxResponseTime * (1 + (n + 1) * 2^-52)]. *)
Theorem testEndpoint_latency_within_rounding
    (after_scheme : string -> string -> option Url.URL)
    (w : BatchWorld) (self : LoadTester) (url : string) (C M : nat) (D : Q)
    (r : EndpointResult.t) (self' : LoadTester) :
  testEndpoint after_scheme w self url C M D = Fulfilled (r, self') ->
  1 <= EndpointResult.totalRequests r ->
  exists results mn mx,
    Promise_all (push_all after_scheme w url C M) = Fulfilled results
    /\ length results = EndpointResult.totalRequests r
    /\ EndpointResult.minResponseTime r = JS.Fin mn
    /\ EndpointResult.maxResponseTime r = JS.Fin mx
    /\ (mn <= mx)%Q
    /\ List.Forall
         (fun o => (mn <= responseTime o)%Q /\ (responseTime o <= mx)%Q)
         results
    /\ ((Z.of_nat (EndpointResult.totalRequests r) <= 1048576)%Z ->
        (2 ^ (-1000) <= mn)%Q ->
        (mx <= 2 ^ 1000)%Q ->
        exists av,
          avgResponseTime_binary64 (map responseTime results) = JS.Fin av
          /\ (mn * (1 - inject_Z (Z.of_nat (S (length results)))
                         * unit_roundoff) <= av)%Q
          /\ (av <= mx * (1 + 2 * inject_Z (Z.of_nat (S (length results)))
                               * unit_roundoff))%Q).
Proof.
  intros H. apply testEndpoint_inv in H as (results & Hall & -> & _).
  unfold endpoint_result.
  cbn [EndpointResult.totalRequests EndpointResult.minResponseTime
       EndpointResult.maxResponseTime].
  intros Hn.
  destruct (map responseTime results) as [|x l] eqn:E.
  { apply map_eq_nil in E. subst results. simpl in Hn. lia. }
  destruct (Math_min_max_bounds x l) as (mn & mx & Hmin & Hmax & Hlo & Hhi).
  assert (Hrange : List.Forall (fun y => (mn <= y)%Q /\ (y <= mx)%Q) (x :: l)).
  { rewrite List.Forall_forall in Hlo, Hhi.
    apply List.Forall_forall. intros y Hy. split; [now apply Hlo | now apply Hhi]. }
  exists results, mn, mx.
  split; [exact Hall|]. split; [reflexivity|].
  split; [exact Hmin|]. split; [exact Hmax|]. split; [|split].
  - apply List.Forall_cons_iff in Hrange as [[H1 H2] _]. lra.
  - rewrite <- E in Hrange.
    rewrite List.Forall_forall in Hrange.
    apply List.Forall_forall. intros o Ho.
    apply Hrange. now apply List.in_map.
  - intros Hcount Hsmall Hlarge.
    rewrite <- (length_map responseTime results), E in *.
    apply binary64_average_bounds; try assumption. discriminate.
Qed.

(** Four requests answered after 1, 2, 3 and 4 ms: the average is 2.5 ms,
    with no rounding. *)
Lemma testEndpoint_latency_within_rounding_witness :
  exists r self' mn mx av results,
    testEndpoint local_after_scheme (ramp_world 2) new_LoadTester
      health_url 2 2 100 = Fulfilled (r, self')
    /\ EndpointResult.minResponseTime r = JS.Fin mn
    /\ EndpointResult.maxResponseTime r = JS.Fin mx
    /\ avgResponseTime_binary64 (map responseTime results) = JS.Fin av
    /\ (mn == 1 /\ mx == 4 /\ av == 5 # 2)%Q.
Proof.
  destruct (testEndpoint_latency_within_rounding local_after_scheme
              (ramp_world 2) new_LoadTester health_url 2 2 100
              (match testEndpoint local_after_scheme (ramp_world 2)
                       new_LoadTester health_url 2 2 100 with
               | Fulfilled (r, _) => r
               | _ => endpoint_result "" 0 0 [] 0
               end)
              (match testEndpoint local_after_scheme (ramp_world 2)
                       new_LoadTester health_url 2 2 100 with
               | Fulfilled (_, self') => self'
               | _ => new_LoadTester
               end))
    as (results & mn & mx & Hall & _ & Hmin & Hmax & _ & _ & Havg).
  - vm_compute. reflexivity.
  - vm_compute. lia.
  - assert (Emin : mn = 1%Q) by (vm_compute in Hmin; congruence).
    assert (Emax : mx = 4%Q) by (vm_compute in Hmax; congruence).
    destruct Havg as (av & Hav & _).
    + vm_compute. discriminate.
    + rewrite Emin. vm_compute. discriminate.
    + rewrite Emax. vm_compute. discriminate.
    + do 2 eexists. exists mn, mx, av, results.
      split; [vm_compute; reflexivity|].
      split; [exact Hmin|]. split; [exact Hmax|]. split; [exact Hav|].
      split; [rewrite Emin; reflexivity|].
      split; [rewrite Emax; reflexivity|].
      assert (Hres : map responseTime results = [1; 2; 3; 4]%Q).
      { vm_compute in Hall. injection Hall as <-. vm_compute. reflexivity. }
      rewrite Hres in Hav. vm_compute in Hav. injection Hav as <-.
      reflexivity.
Defined.

(** C10, as stated, fails: three requests answered after 0.1 ms each have
    an average of 0.10000000000000002 ms, above the maximum, and three
    requests answered after 0.7 ms each have an average just below the
    minimum. *)
Lemma testEndpoint_average_outside_min_max :
  Binary64.round (1 # 10) = JS.Fin one_tenth
  /\ Binary64.round (7 # 10) = JS.Fin seven_tenths
  /\ (exists r self' results,
        testEndpoint local_after_scheme (steady_world 200 one_tenth 1)
          new_LoadTester health_url 3 1 100 = Fulfilled (r, self')
        /\ Promise_all
             (push_all local_after_scheme (steady_world 200 one_tenth 1)
                health_url 3 1) = Fulfilled results
        /\ JS.eqv (EndpointResult.maxResponseTime r) (JS.Fin one_tenth)
        /\ JS.gt (avgResponseTime_binary64 (map responseTime results))
             (EndpointResult.maxResponseTime r) = true)
  /\ (exists r self' results,
        testEndpoint local_after_scheme (steady_world 200 seven_tenths 1)
          new_LoadTester health_url 3 1 100 = Fulfilled (r, self')
        /\ Promise_all
             (push_all local_after_scheme (steady_world 200 seven_tenths 1)
                health_url 3 1) = Fulfilled results
        /\ JS.eqv (EndpointResult.minResponseTime r) (JS.Fin seven_tenths)
        /\ JS.lt (avgResponseTime_binary64 (map responseTime results))
             (EndpointResult.minResponseTime r) = true).
Proof.
  split; [vm_compute; reflexivity|]. split; [vm_compute; reflexivity|].
  split; do 3 eexists;
    (split; [vm_compute; reflexivity|]);
    (split; [vm_compute; reflexivity|]);
    split; vm_compute; reflexivity.
Qed.

(** ** Sorting and percentiles *)

Lemma insert_sorted_perm (x : Q) (l : list Q) :
  Permutation (x :: l) (insert_sorted x l).
Proof.
  induction l as [|y l IH]; simpl; [reflexivity|].
  destruct (Qle_bool x y); [reflexivity|].
  rewrite perm_swap. now apply perm_skip.
Qed.

Lemma sort_numeric_perm (l : list Q) : Permutation l (sort_numeric l).
Proof.
  induction l as [|x l IH]; simpl; [reflexivity|].
  rewrite <- insert_sorted_perm. now apply perm_skip.
Qed.

Lemma sort_numeric_length (l : list Q) : length (sort_numeric l) = length l.
Proof. symmetry. apply Permutation_length, sort_numeric_perm. Qed.

Lemma insert_sorted_sorted (x : Q) (l : list Q) :
  StronglySorted Qle l -> StronglySorted Qle (insert_sorted x l).
Proof.
  induction 1 as [|y l Hs IH Hy]; simpl.
  - repeat constructor.
  - destruct (Qle_bool x y) eqn:E.
    + apply Qle_bool_iff in E. constructor; [now constructor|].
      constructor; [exact E|].
      eapply List.Forall_impl; [|exact Hy].
      intros z Hz. simpl in Hz. eapply Qle_trans; eauto.
    + constructor; [exact IH|].
      assert (Hyx : (y <= x)%Q).
      { apply Qlt_le_weak, Qltb_lt. unfold JS.Qltb. now rewrite E. }
      eapply Permutation_Forall; [apply insert_sorted_perm|].
      now constructor.
Qed.

Lemma sort_numeric_sorted (l : list Q) : StronglySorted Qle (sort_numeric l).
Proof.
  induction l as [|x l IH]; simpl; [constructor|].
  now apply insert_sorted_sorted.
Qed.

(** In a sorted array a later index holds a value at least as large. *)
Lemma sorted_lookup_le (l : list Q) :
  StronglySorted Qle l ->
  forall i j a b, i <= j -> l !! i = Some a -> l !! j = Some b -> (a <= b)%Q.
Proof.
  induction 1 as [|x l Hs IH Hx]; intros i j a b Hij Hi Hj.
  - discriminate.
  - destruct i as [|i], j as [|j]; simpl in Hi, Hj.
    + inversion Hi; inversion Hj; subst. apply Qle_refl.
    + inversion Hi; subst.
      rewrite Forall_forall in Hx. apply Hx.
      eapply list_elem_of_lookup_2, Hj.
    + exfalso. lia.
    + apply (IH i j a b); [lia | exact Hi | exact Hj].
Qed.

(** The index computed by [percentile]. *)
Lemma percentile_lookup (sortedArray : list Q) (p : Q) :
  percentile sortedArray p
  = sortedArray
      !! Z.to_nat
           (Z.max 0
              (Qceiling (p / 100 * inject_Z (Z.of_nat (length sortedArray)))
               - 1)).
Proof. reflexivity. Qed.

Lemma scaled_rank_le (n : nat) (p q : Q) :
  (p <= q)%Q ->
  (p / 100 * inject_Z (Z.of_nat n) <= q / 100 * inject_Z (Z.of_nat n))%Q.
Proof.
  intros H. apply Qmult_le_compat_r.
  - unfold Qdiv. apply Qmult_le_compat_r; [exact H | discriminate].
  - change 0%Q with (inject_Z 0). rewrite <- Zle_Qle. lia.
Qed.

Lemma ceiling_rank_le (n : nat) (p : Q) :
  (p <= 100)%Q ->
  (Qceiling (p / 100 * inject_Z (Z.of_nat n)) <= Z.of_nat n)%Z.
Proof.
  intros H. rewrite <- (Qceiling_Z (Z.of_nat n)) at 2.
  apply Qceiling_resp_le.
  eapply Qle_trans; [apply (scaled_rank_le n p 100 H)|].
  apply Qle_lteq. right. field.
Qed.

Lemma ceiling_rank_mono (n : nat) (p q : Q) :
  (p <= q)%Q ->
  (Qceiling (p / 100 * inject_Z (Z.of_nat n))
   <= Qceiling (q / 100 * inject_Z (Z.of_nat n)))%Z.
Proof. intros H. apply Qceiling_resp_le, scaled_rank_le, H. Qed.

(** For a rank of at most 100 the lower clamp of the code is the clamp of
    the specification: the index never passes the last element. *)
Lemma percentile_clamped (sortedArray : list Q) (p : Q) :
  sortedArray <> [] -> (p <= 100)%Q ->
  percentile sortedArray p
  = sortedArray !! clamped_index (length sortedArray) p
  /\ clamped_index (length sortedArray) p < length sortedArray.
Proof.
  intros Hne Hp. rewrite percentile_lookup. unfold clamped_index.
  pose proof (ceiling_rank_le (length sortedArray) p Hp) as Hc.
  assert (Hlen : 0 < length sortedArray)
    by (destruct sortedArray; [congruence | simpl; lia]).
  split; [f_equal|]; lia.
Qed.

Lemma percentile_defined (sortedArray : list Q) (p : Q) :
  sortedArray <> [] -> (p <= 100)%Q ->
  exists x, percentile sortedArray p = Some x.
Proof.
  intros Hne Hp.
  destruct (percentile_clamped sortedArray p Hne Hp) as [-> Hlt].
  apply lookup_lt_is_Some_2 in Hlt. destruct Hlt as [x Hx]. eauto.
Qed.

Lemma percentile_mono (sortedArray : list Q) (p q : Q) (a b : Q) :
  StronglySorted Qle sortedArray -> (p <= q)%Q ->
  percentile sortedArray p = Some a -> percentile sortedArray q = Some b ->
  (a <= b)%Q.
Proof.
  intros Hs Hpq Ha Hb. rewrite percentile_lookup in Ha, Hb.
  eapply (sorted_lookup_le sortedArray Hs); [|exact Ha|exact Hb].
  pose proof (ceiling_rank_mono (length sortedArray) p q Hpq). lia.
Qed.

Lemma sort_numeric_nonempty (l : list Q) : l <> [] -> sort_numeric l <> [].
Proof.
  intros Hne E. apply Hne, length_zero_iff_nil.
  rewrite <- sort_numeric_length, E. reflexivity.
Qed.

(** A sorted array is determined by its elements when they are pairwise
    different. *)
Lemma sorted_perm_unique (l1 l2 : list Q) :
  StronglySorted Qle l1 -> StronglySorted Qlt l2 -> Permutation l1 l2 ->
  l1 = l2.
Proof.
  revert l2. induction l1 as [|x1 t1 IH]; intros l2 Hs1 Hs2 Hp.
  - apply Permutation_nil in Hp. now subst.
  - destruct l2 as [|x2 t2];
      [now apply Permutation_sym, Permutation_nil_cons in Hp|].
    apply StronglySorted_inv in Hs1 as [Hs1 H1].
    apply StronglySorted_inv in Hs2 as [Hs2 H2].
    rewrite List.Forall_forall in H1, H2.
    assert (Hin1 : List.In x1 (x2 :: t2))
      by (eapply Permutation_in; [exact Hp | now left]).
    assert (Hin2 : List.In x2 (x1 :: t1))
      by (eapply Permutation_in; [symmetry; exact Hp | now left]).
    assert (E : x1 = x2).
    { destruct Hin1 as [E | Hin1]; [now symmetry|].
      exfalso. specialize (H2 x1 Hin1).
      destruct Hin2 as [E | Hin2].
      - subst. apply (Qlt_irrefl _ H2).
      - specialize (H1 x2 Hin2). apply (Qlt_not_le _ _ H2 H1). }
    subst x2. f_equal. apply IH; auto.
    eapply Permutation_cons_inv, Hp.
Qed.

Lemma latencies_up_to_increasing (n : nat) :
  StronglySorted Qlt (latencies_up_to n).
Proof.
  unfold latencies_up_to. generalize 1.
  induction n as [|n IH]; intros a; simpl; constructor.
  - apply IH.
  - apply List.Forall_forall. intros y Hy.
    apply List.in_map_iff in Hy as (k & <- & Hk).
    apply List.in_seq in Hk. rewrite <- Zlt_Qlt. lia.
Qed.

(** C3.  For a non-empty list of [n] latencies the percentile computation
    works on the latencies sorted ascending and, at each of the ranks 50,
    90, 95 and 99 that [analyzePerformance] asks for, returns the element at
    index [ceil(p/100 * n) - 1] clamped to [[0, n-1]].  For 100 outcomes
    whose latencies are 1, 2, ..., 100 ms in any order the report has
    [p50 = 50] and [p99 = 99]; such is the batch whose requests are answered
    after 100, 99, ..., 1 ms. *)
Theorem percentile_of_sorted_latencies :
  (forall (latencies : list Q) (p : Q),
      latencies <> [] ->
      p = 50%Q \/ p = 90%Q \/ p = 95%Q \/ p = 99%Q ->
      let sortedTimes := sort_numeric latencies in
      StronglySorted Qle sortedTimes
      /\ Permutation latencies sortedTimes
      /\ exists x,
          percentile sortedTimes p = Some x
          /\ sortedTimes !! clamped_index (length latencies) p = Some x)
  /\ (forall self : LoadTester,
         let sortedTimes :=
           sort_numeric (map responseTime (detailed self)) in
         let perf := analyzePerformance self in
         p50 perf = percentile sortedTimes 50
         /\ p90 perf = percentile sortedTimes 90
         /\ p95 perf = percentile sortedTimes 95
         /\ p99 perf = percentile sortedTimes 99)
  /\ (forall self : LoadTester,
         Permutation (map responseTime (detailed self)) (latencies_up_to 100) ->
         p50 (analyzePerformance self) = Some 50%Q
         /\ p99 (analyzePerformance self) = Some 99%Q)
  /\ (exists r self',
         testEndpoint local_after_scheme (countdown_world 10 100)
           new_LoadTester health_url 10 10 100 = Fulfilled (r, self')
         /\ map responseTime (detailed self') = rev (latencies_up_to 100)
         /\ p50 (analyzePerformance self') = Some 50%Q
         /\ p99 (analyzePerformance self') = Some 99%Q).
Proof.
  split; [|split; [|split]].
  - intros latencies p Hne Hrank sortedTimes. subst sortedTimes.
    assert (Hp : (p <= 100)%Q)
      by (destruct Hrank as [-> | [-> | [-> | ->]]]; vm_compute; discriminate).
    split; [apply sort_numeric_sorted|].
    split; [apply sort_numeric_perm|].
    pose proof (sort_numeric_nonempty latencies Hne) as Hne'.
    destruct (percentile_defined _ p Hne' Hp) as [x Hx].
    exists x. split; [exact Hx|].
    destruct (percentile_clamped _ p Hne' Hp) as [E _].
    rewrite <- Hx, E, sort_numeric_length. reflexivity.
  - intros self. repeat split.
  - intros self Hp. unfold analyzePerformance. cbn [p50 p99].
    rewrite (sorted_perm_unique
               (sort_numeric (map responseTime (detailed self)))
               (latencies_up_to 100)).
    + split; vm_compute; reflexivity.
    + apply sort_numeric_sorted.
    + apply latencies_up_to_increasing.
    + rewrite <- Hp. symmetry. apply sort_numeric_perm.
  - eexists. eexists. split; [vm_compute; reflexivity|].
    repeat split; vm_compute; reflexivity.
Qed.

(** The rule at the three outcomes of 30, 10 and 20 ms and rank 50: the
    median is the element at index 1 of [10; 20; 30]. *)
Lemma percentile_of_sorted_latencies_witness :
  let latencies := map responseTime (detailed three_outcomes) in
  StronglySorted Qle (sort_numeric latencies)
  /\ Permutation latencies (sort_numeric latencies)
  /\ exists x,
      percentile (sort_numeric latencies) 50 = Some x
      /\ sort_numeric latencies !! clamped_index (length latencies) 50
         = Some x.
Proof.
  apply (proj1 percentile_of_sorted_latencies
           (map responseTime (detailed three_outcomes)) 50%Q).
  - discriminate.
  - left. reflexivity.
Defined.

(** On the latencies 1, 2, ..., 100 ms the rounding of [p / 100] and of the
    product leaves the four percentiles of the report as they are, while at
    rank 55 the product [0.55 * 100] rounds to [55.000000000000007] and the
    code reads the next element. *)
Remark percentile_binary64_on_100_latencies :
  Forall (fun p => percentile_binary64 (latencies_up_to 100) p
                   = percentile (latencies_up_to 100) p)
    [50; 90; 95; 99]%Q
  /\ percentile (latencies_up_to 100) 55 = Some 55%Q
  /\ percentile_binary64 (latencies_up_to 100) 55 = Some 56%Q.
Proof.
  split; [|split; vm_compute; reflexivity].
  repeat constructor; vm_compute; reflexivity.
Qed.

(** ** Percentiles are monotone in the rank *)

(** C8.  For a tester holding at least one outcome, the four percentiles of
    [analyzePerformance] are defined and [p50 <= p90 <= p95 <= p99]. *)
Theorem analyzePerformance_percentiles_monotone (self : LoadTester) :
  detailed self <> [] ->
  exists a b c d,
    p50 (analyzePerformance self) = Some a
    /\ p90 (analyzePerformance self) = Some b
    /\ p95 (analyzePerformance self) = Some c
    /\ p99 (analyzePerformance self) = Some d
    /\ (a <= b)%Q /\ (b <= c)%Q /\ (c <= d)%Q.
Proof.
  intros Hne. unfold analyzePerformance. cbn [p50 p90 p95 p99].
  set (sortedTimes := sort_numeric (map responseTime (detailed self))).
  assert (Hne' : sortedTimes <> []).
  { apply sort_numeric_nonempty. intros E. apply Hne.
    now apply map_eq_nil in E. }
  assert (Hs : StronglySorted Qle sortedTimes) by apply sort_numeric_sorted.
  destruct (percentile_defined sortedTimes 50 Hne') as [a Ha]; [discriminate|].
  destruct (percentile_defined sortedTimes 90 Hne') as [b Hb]; [discriminate|].
  destruct (percentile_defined sortedTimes 95 Hne') as [c Hc]; [discriminate|].
  destruct (percentile_defined sortedTimes 99 Hne') as [d Hd]; [discriminate|].
  exists a, b, c, d.
  split; [exact Ha|]. split; [exact Hb|]. split; [exact Hc|].
  split; [exact Hd|].
  split; [|split].
  - apply (percentile_mono sortedTimes 50 90 a b Hs); [discriminate|auto..].
  - apply (percentile_mono sortedTimes 90 95 b c Hs); [discriminate|auto..].
  - apply (percentile_mono sortedTimes 95 99 c d Hs); [discriminate|auto..].
Qed.

Lemma analyzePerformance_percentiles_monotone_witness :
  exists a b c d,
    p50 (analyzePerformance three_outcomes) = Some a
    /\ p90 (analyzePerformance three_outcomes) = Some b
    /\ p95 (analyzePerformance three_outcomes) = Some c
    /\ p99 (analyzePerformance three_outcomes) = Some d
    /\ (a <= b)%Q /\ (b <= c)%Q /\ (c <= d)%Q.
Proof.
  apply (analyzePerformance_percentiles_monotone three_outcomes).
  discriminate.
Defined.

(** ** The spike test *)

Section SpikeFacts.

Variable after_scheme : string -> string -> option Url.URL.

Lemma runSpikeTest_inv (w1 w2 w3 : BatchWorld) (baseUrl : string)
    (cfg : SpikeConfig) (res : SpikeTestResults) :
  runSpikeTest after_scheme w1 w2 w3 baseUrl cfg = Fulfilled res ->
  exists t1 t2 t3 b s r,
    testEndpoint after_scheme w1 new_LoadTester (baseUrl ++ "/api/health")
      (baseUsers cfg) 5 100 = Fulfilled (b, t1)
    /\ testEndpoint after_scheme w2 t1 (baseUrl ++ "/api/health")
         (spikeUsers cfg) 3 10 = Fulfilled (s, t2)
    /\ testEndpoint after_scheme w3 t2 (baseUrl ++ "/api/health")
         (baseUsers cfg) 5 100 = Fulfilled (r, t3)
    /\ baseline res = b /\ spike res = s /\ recovery res = r
    /\ spikeMultiplier res
       = JS.div (JS.of_nat (spikeUsers cfg)) (JS.of_nat (baseUsers cfg))
    /\ degradationRatio res
       = JS.div (EndpointResult.avgResponseTime s)
                (EndpointResult.avgResponseTime b)
    /\ passed res
       = JS.lt (EndpointResult.errorRate s) (JS.Fin 5)
         && JS.lt (EndpointResult.avgResponseTime s)
                  (JS.mul (EndpointResult.avgResponseTime b) (JS.Fin 3)).
Proof.
  unfold runSpikeTest, mbind, Promise_bind, await, mret, Promise_ret.
  destruct (testEndpoint after_scheme w1 _ _ _ _ _) as [[b t1]| |] eqn:E1;
    try discriminate.
  destruct (testEndpoint after_scheme w2 _ _ _ _ _) as [[s t2]| |] eqn:E2;
    try discriminate.
  destruct (testEndpoint after_scheme w3 _ _ _ _ _) as [[r t3]| |] eqn:E3;
    try discriminate.
  intros [= <-]. exists t1, t2, t3, b, s, r.
  cbn [baseline spike recovery spikeMultiplier degradationRatio passed].
  repeat split; try reflexivity; assumption.
Qed.

(** The fields of a non-empty batch are finite numbers. *)
Lemma nonempty_batch_finite (w : BatchWorld) (self : LoadTester)
    (url : string) (C M : nat) (D : Q) (r : EndpointResult.t)
    (self' : LoadTester) :
  testEndpoint after_scheme w self url C M D = Fulfilled (r, self') ->
  0 < C * M ->
  exists e a,
    EndpointResult.errorRate r = JS.Fin e
    /\ EndpointResult.avgResponseTime r = JS.Fin a.
Proof.
  intros H Hn. pose proof (testEndpoint_totalRequests _ _ _ _ _ _ _ _ _ H) as Ht.
  apply testEndpoint_inv in H as (results & _ & -> & _).
  unfold endpoint_result in *.
  cbn [EndpointResult.errorRate EndpointResult.avgResponseTime
       EndpointResult.totalRequests] in *.
  rewrite <- Ht in Hn.
  eexists. eexists. split.
  - unfold JS.of_nat at 1. rewrite div_by_count by exact Hn. reflexivity.
  - rewrite length_map. rewrite div_by_count by exact Hn. reflexivity.
Qed.




End SpikeFacts.




(** ** The stability score *)







(** ** The request executors settle *)

(** [executeQuery] never rejects.  Whenever the driver settles what it
    awaits, and on a tester that was not initialised, it resolves, with the
    time up to the end of the step that failed or succeeded, and hands the
    pool back as it found it. *)
Lemma executeQuery_resolves (startTime : Q) (w : QueryWorld) (pool : Pool) :
  (forall e, fst (executeQuery startTime w pool) <> Rejected e)
  /\ (pool = None \/ settles w = true ->
      exists o,
        executeQuery startTime w pool = (Fulfilled o, pool)
        /\ queryTime o = (q_endTime w - startTime)%Q
        /\ (q_success o = true <->
            exists inUse rows,
              pool = Some inUse /\ acquire w = Acquired
              /\ execute w = Rows rows)).
Proof.
  unfold executeQuery, settles.
  destruct pool as [inUse|].
  - destruct (acquire w) as [|message|] eqn:Ea.
    + destruct (execute w) as [rows|message|] eqn:Ee.
      * split; [discriminate|]. intros _.
        eexists. split; [reflexivity|]. split; [reflexivity|]. simpl.
        split; [intros _; eauto | reflexivity].
      * split; [discriminate|]. intros _.
        eexists. split; [reflexivity|]. split; [reflexivity|]. simpl.
        split; [discriminate|]. intros (i & n & _ & _ & H). discriminate.
      * split; [discriminate|]. intros [H|H]; discriminate.
    + split; [discriminate|]. intros _.
      eexists. split; [reflexivity|]. split; [reflexivity|]. simpl.
      split; [discriminate|]. intros (i & n & _ & H & _). discriminate.
    + split; [discriminate|]. intros [H|H]; discriminate.
  - split; [discriminate|]. intros _.
    eexists. split; [reflexivity|]. split; [reflexivity|]. simpl.
    split; [discriminate|]. intros (i & n & H & _). discriminate.
Qed.

(** When the URL parses, [makeRequest] does not reject: a response makes an
    outcome that succeeds exactly for a status below 400, an ['error'] event
    makes a failed outcome, both timed up to the event. *)
Lemma makeRequest_parsed (after_scheme : string -> string -> option Url.URL)
    (startTime : Q) (net : RequestOptions -> NetReply) (url method : string)
    (parsedUrl : Url.URL) :
  Url.new_URL after_scheme url = Some parsedUrl ->
  match net (request_options parsedUrl method) with
  | ReplyEnd status _ endTime =>
      exists o,
        makeRequest after_scheme startTime net url method = Fulfilled o
        /\ statusCode o = status
        /\ (success o = true <-> (status < 400)%Z)
        /\ responseTime o = (endTime - startTime)%Q
  | ReplyError message endTime =>
      exists o,
        makeRequest after_scheme startTime net url method = Fulfilled o
        /\ success o = false
        /\ error o = Some message
        /\ responseTime o = (endTime - startTime)%Q
  | NoReply => makeRequest after_scheme startTime net url method = Pending
  end.
Proof.
  intros Hurl. unfold makeRequest. rewrite Hurl.
  destruct (net _) as [status body endTime|message endTime|].
  - eexists. split; [reflexivity|]. simpl.
    split; [reflexivity|]. split; [apply Z.ltb_lt | reflexivity].
  - eexists. repeat split.
  - reflexivity.
Qed.

(** A string with no scheme is not a URL. *)
Lemma new_URL_without_scheme
    (after_scheme : string -> string -> option Url.URL) (url : string) :
  Url.scheme_start_state (Url.prepare (list_ascii_of_string url)) = None ->
  Url.new_URL after_scheme url = None.
Proof. unfold Url.new_URL. now intros ->. Qed.

Lemma makeRequest_invalid_url
    (after_scheme : string -> string -> option Url.URL)
    (startTime : Q) (net : RequestOptions -> NetReply) (url method : string) :
  Url.scheme_start_state (Url.prepare (list_ascii_of_string url)) = None ->
  makeRequest after_scheme startTime net url method = Rejected "Invalid URL".
Proof.
  intros H. unfold makeRequest. now rewrite new_URL_without_scheme.
Qed.

(** C1, at the input where the code departs from it.  Whatever the rest of
    the URL parser, the network and the clock do, [makeRequest] called with
    the address [example.com/api/health], which has no scheme, rejects: the
    [TypeError] of [new URL] is thrown inside the promise executor, outside
    every handler that resolves to a failed outcome. *)
Theorem makeRequest_rejects_url_without_scheme
    (after_scheme : string -> string -> option Url.URL)
    (startTime : Q) (net : RequestOptions -> NetReply) (method : string) :
  makeRequest after_scheme startTime net "example.com/api/health" method
  = Rejected "Invalid URL".
Proof. now apply makeRequest_invalid_url. Qed.

(** The batch that contains such a request is never joined. *)
Lemma testEndpoint_never_returns_without_scheme
    (after_scheme : string -> string -> option Url.URL)
    (w : BatchWorld) (self : LoadTester) (D : Q) :
  testEndpoint after_scheme w self "example.com/api/health" 1 1 D = Pending.
Proof.
  unfold testEndpoint, push_all. cbn [seq flat_map map app].
  unfold pushed_promise.
  now rewrite makeRequest_invalid_url.
Qed.

(** ** Requests of one user are not issued in sequence *)

Section LaunchOrder.

Import EventLoop.

Lemma launch_length (C M : nat) : length (launch C M) = C * M.
Proof.
  unfold launch. generalize 0 at 2.
  induction C as [|C IH]; intros start; simpl; [reflexivity|].
  rewrite length_app, length_map, length_seq, IH. reflexivity.
Qed.

(** Every event of the synchronous part is the start of a request. *)
Lemma launch_only_starts (C M : nat) :
  Forall (fun ev => exists user request, ev = RequestStarted user request)
    (launch C M).
Proof.
  unfold launch. apply Forall_flat_map, Forall_forall. intros user _.
  apply Forall_map, Forall_forall. intros request _. eauto.
Qed.

(** All the requests of a call are started before the first response is
    handled: the first [C * M] events of any trace are starts. *)
Lemma trace_starts_first (C M : nat) (schedule : list Callback) (i : nat) :
  i < C * M ->
  exists user request,
    trace C M schedule !! i = Some (RequestStarted user request).
Proof.
  intros Hi. unfold trace.
  rewrite lookup_app_l by (now rewrite launch_length).
  rewrite <- (launch_length C M) in Hi.
  apply lookup_lt_is_Some_2 in Hi. destruct Hi as [ev Hev].
  pose proof (launch_only_starts C M) as Hall.
  rewrite Forall_forall in Hall.
  destruct (Hall ev) as (user & request & ->); eauto.
  eapply list_elem_of_lookup_2, Hev.
Qed.

(** With a user and two requests per user, the second request of user 0 is
    the second event of the call. *)
Lemma trace_second_event (C M : nat) (schedule : list Callback) :
  0 < C -> 2 <= M ->
  trace C M schedule !! 1 = Some (RequestStarted 0 1).
Proof.
  intros HC HM. unfold trace, launch.
  destruct C as [|C]; [lia|]. destruct M as [|[|M]]; try lia.
  reflexivity.
Qed.

Lemma trace_not_sequential (C M : nat) (schedule : list Callback) :
  0 < C -> 2 <= M -> ~ sequential (trace C M schedule).
Proof.
  intros HC HM Hseq.
  destruct (Hseq 0 0 1 (trace_second_event C M schedule HC HM))
    as (j & d & Hjd & Hd & _).
  lia.
Qed.

End LaunchOrder.

(** C2, at the input where the code departs from it.  With one user, two
    requests per user and any delay, whatever the order in which responses
    and timers are delivered: the second request is started in the
    synchronous loop, as the second event of the call, before the first
    request has completed; the requests of the user are not in sequence. *)
Theorem testEndpoint_requests_not_sequential
    (schedule : list EventLoop.Callback) :
  EventLoop.trace 1 2 schedule !! 0 = Some (EventLoop.RequestStarted 0 0)
  /\ EventLoop.trace 1 2 schedule !! 1 = Some (EventLoop.RequestStarted 0 1)
  /\ ~ EventLoop.sequential (EventLoop.trace 1 2 schedule).
Proof.
  split; [reflexivity|]. split; [reflexivity|].
  apply trace_not_sequential; lia.
Qed.


(** ** What the running summary of a tester holds *)

Section TesterInvariants.

Variable after_scheme : string -> string -> option Url.URL.

(** The rate fields of the running summary are written by the constructor
    only. *)
Lemma reachable_summary_rates (self : LoadTester) :
  reachable after_scheme self ->
  Summary.avgResponseTime (summary self) = JS.Fin 0
  /\ Summary.errorRate (summary self) = JS.Fin 0
  /\ Summary.requestsPerSecond (summary self) = JS.Fin 0
  /\ Summary.maxResponseTime (summary self) = JS.Fin 0
  /\ Summary.minResponseTime (summary self) = JS.PosInf.
Proof.
  induction 1 as [|self w url C M D r self' _ IH Hcall].
  - repeat split.
  - apply testEndpoint_inv in Hcall as (results & _ & _ & ->).
    exact IH.
Qed.

Lemma reachable_counters (self : LoadTester) :
  reachable after_scheme self ->
  Summary.totalRequests (summary self) = length (detailed self)
  /\ Summary.successfulRequests (summary self)
     = length (List.filter (fun r => success r) (detailed self))
  /\ Summary.failedRequests (summary self)
     = length (List.filter (fun r => negb (success r)) (detailed self)).
Proof.
  induction 1 as [|self w url C M D r self' _ IH Hcall].
  - repeat split.
  - apply testEndpoint_inv in Hcall as (results & _ & -> & ->).
    destruct IH as (Ht & Hs & Hf). simpl.
    rewrite !List.filter_app, !length_app. lia.
Qed.

End TesterInvariants.

(** X1.  In every tester reached from the constructor by [testEndpoint]
    calls, the three counters of the running summary are the counts of the
    outcomes kept in [detailed]: all of them, the successful ones and the
    failed ones. *)
Theorem summary_counts_detailed
    (after_scheme : string -> string -> option Url.URL) (self : LoadTester) :
  reachable after_scheme self ->
  Summary.totalRequests (summary self) = length (detailed self)
  /\ Summary.successfulRequests (summary self)
     = length (List.filter (fun r => success r) (detailed self))
  /\ Summary.failedRequests (summary self)
     = length (List.filter (fun r => negb (success r)) (detailed self)).
Proof. apply reachable_counters. Qed.

(** Two batches on one tester: three users of whom the first is refused,
    then two users answered. *)
Lemma summary_counts_detailed_witness :
  exists r1 s1 r2 s2,
    testEndpoint local_after_scheme (flaky_world 50 60) new_LoadTester
      health_url 3 1 100 = Fulfilled (r1, s1)
    /\ testEndpoint local_after_scheme (steady_world 200 20 30) s1
         health_url 2 1 100 = Fulfilled (r2, s2)
    /\ Summary.totalRequests (summary s2) = length (detailed s2)
    /\ Summary.successfulRequests (summary s2)
       = length (List.filter (fun r => success r) (detailed s2))
    /\ Summary.failedRequests (summary s2)
       = length (List.filter (fun r => negb (success r)) (detailed s2)).
Proof.
  eexists. eexists. eexists. eexists.
  split; [vm_compute; reflexivity|].
  split; [vm_compute; reflexivity|].
  apply (summary_counts_detailed local_after_scheme).
  eapply (reachable_testEndpoint local_after_scheme _ (steady_world 200 20 30)
            health_url 2 1 100%Q);
    [eapply (reachable_testEndpoint local_after_scheme _ (flaky_world 50 60)
               health_url 3 1 100%Q); [apply reachable_new|]|];
    vm_compute; reflexivity.
Defined.

(** X2.  [generateRecommendations] reads the rate fields of the running
    summary, which no call updates: for every tester reached from the
    constructor it returns the same two entries, "scalability" (throughput
    below 100) and "success", whatever was measured. *)
Theorem generateRecommendations_constant
    (after_scheme : string -> string -> option Url.URL) (self : LoadTester) :
  reachable after_scheme self ->
  generateRecommendations self = [rec_scalability; rec_success].
Proof.
  intros H.
  destruct (reachable_summary_rates after_scheme self H)
    as (Ha & He & Hr & _).
  unfold generateRecommendations. rewrite Ha, He, Hr. reflexivity.
Qed.

(** Six requests, all refused: the tester still recommends "success". *)
Lemma generateRecommendations_constant_witness :
  exists r self',
    testEndpoint local_after_scheme (refusing_world 5 10) new_LoadTester
      health_url 3 2 100 = Fulfilled (r, self')
    /\ EndpointResult.successfulRequests r = 0
    /\ EndpointResult.failedRequests r = 6
    /\ generateRecommendations self' = [rec_scalability; rec_success].
Proof.
  eexists. eexists. split; [vm_compute; reflexivity|].
  split; [reflexivity|]. split; [reflexivity|].
  apply (generateRecommendations_constant local_after_scheme).
  eapply (reachable_testEndpoint local_after_scheme _ (refusing_world 5 10)
            health_url 3 2 100%Q); [apply reachable_new|].
  vm_compute. reflexivity.
Defined.


(** ** The report of a tester *)

(** X3.  For a tester reached from the constructor that holds at least one
    outcome, the summary of [generateReport] is pooled over the outcomes of
    all batches: [errorRate] is 100 times the failed outcomes over all
    outcomes, [avgResponseTime] is the mean of all latencies (as numeric
    values, the rounding of the sums and quotients left aside), and
    [minResponseTime] and [maxResponseTime] are bounds on every latency the
    tester holds. *)
Theorem generateReport_pooled
    (after_scheme : string -> string -> option Url.URL) (self : LoadTester) :
  reachable after_scheme self ->
  detailed self <> [] ->
  let s := report_summary self in
  let n := length (detailed self) in
  let failed := length (List.filter (fun r => negb (success r)) (detailed self)) in
  Summary.totalRequests s = n
  /\ JS.eqv (Summary.errorRate s)
       (JS.Fin (100 * inject_Z (Z.of_nat failed) / inject_Z (Z.of_nat n)))
  /\ JS.eqv (Summary.avgResponseTime s)
       (JS.Fin (sum (map responseTime (detailed self))
                / inject_Z (Z.of_nat n)))
  /\ exists mn mx,
      Summary.minResponseTime s = JS.Fin mn
      /\ Summary.maxResponseTime s = JS.Fin mx
      /\ (mn <= mx)%Q
      /\ List.Forall
           (fun r => (mn <= responseTime r)%Q /\ (responseTime r <= mx)%Q)
           (detailed self).
Proof.
  intros Hr Hne s n failed. subst s n failed.
  destruct (reachable_counters after_scheme self Hr) as (Ht & _ & Hf).
  destruct (reachable_summary_rates after_scheme self Hr) as (Ha & _).
  assert (Hn : 0 < length (detailed self))
    by (destruct (detailed self); [congruence | simpl; lia]).
  unfold report_summary.
  cbn [Summary.totalRequests Summary.errorRate Summary.minResponseTime
       Summary.avgResponseTime Summary.maxResponseTime].
  rewrite Ht, Hf, Ha.
  split; [reflexivity|]. split; [now apply error_rate_quotient|].
  split.
  { cbn [JS.or_default]. change (Qeq_bool 0 0) with true. cbv iota.
    rewrite (div_by_count _ _ Hn). cbn [JS.eqv]. reflexivity. }
  destruct (map responseTime (detailed self)) as [|x l] eqn:E.
  { apply map_eq_nil in E. congruence. }
  destruct (Math_min_max_bounds x l) as (mn & mx & Hmin & Hmax & Hlo & Hhi).
  exists mn, mx.
  split; [exact Hmin|]. split; [exact Hmax|]. split.
  - apply List.Forall_cons_iff in Hlo as [Hlo _].
    apply List.Forall_cons_iff in Hhi as [Hhi _]. lra.
  - rewrite <- E in Hlo, Hhi.
    rewrite List.Forall_forall in Hlo, Hhi.
    apply List.Forall_forall. intros o Ho. split.
    + apply Hlo. now apply List.in_map.
    + apply Hhi. now apply List.in_map.
Qed.

(** A failing batch of three requests followed by a batch of two answered
    requests: the report has three failures out of five outcomes. *)
Lemma generateReport_pooled_witness :
  exists r1 s1 r2 s2,
    testEndpoint local_after_scheme (refusing_world 5 10) new_LoadTester
      health_url 3 1 100 = Fulfilled (r1, s1)
    /\ testEndpoint local_after_scheme (steady_world 200 20 30) s1
         health_url 2 1 100 = Fulfilled (r2, s2)
    /\ Summary.totalRequests (report_summary s2) = 5
    /\ JS.eqv (Summary.errorRate (report_summary s2)) (JS.Fin 60).
Proof.
  eexists. eexists. eexists. eexists.
  split; [vm_compute; reflexivity|].
  split; [vm_compute; reflexivity|].
  match goal with
  | |- Summary.totalRequests (report_summary ?s) = _ /\ _ =>
      assert (Hr : reachable local_after_scheme s)
  end.
  { eapply (reachable_testEndpoint local_after_scheme _ (steady_world 200 20 30)
              health_url 2 1 100%Q);
      [eapply (reachable_testEndpoint local_after_scheme _
                 (refusing_world 5 10) health_url 3 1 100%Q);
       [apply reachable_new|]|];
      vm_compute; reflexivity. }
  destruct (generateReport_pooled local_after_scheme _ Hr) as (Ht & He & _).
  - discriminate.
  - split; [exact Ht|]. vm_compute. reflexivity.
Defined.

(** X4.  For a tester reached from the constructor that holds no outcome,
    nothing of the report is defaulted: the four percentiles are
    [undefined], the average and the error rate are [NaN], the maximum is
    [-Infinity] and the minimum [Infinity]. *)
Theorem generateReport_without_outcomes
    (after_scheme : string -> string -> option Url.URL) (self : LoadTester) :
  reachable after_scheme self ->
  detailed self = [] ->
  let s := report_summary self in
  let perf := analyzePerformance self in
  p50 perf = None /\ p90 perf = None /\ p95 perf = None /\ p99 perf = None
  /\ Summary.avgResponseTime s = JS.NaN
  /\ Summary.errorRate s = JS.NaN
  /\ Summary.maxResponseTime s = JS.NegInf
  /\ Summary.minResponseTime s = JS.PosInf.
Proof.
  intros Hr He s perf. subst s perf.
  destruct (reachable_counters after_scheme self Hr) as (Ht & _ & Hf).
  destruct (reachable_summary_rates after_scheme self Hr) as (Ha & _).
  unfold analyzePerformance, report_summary.
  cbn [p50 p90 p95 p99 Summary.avgResponseTime Summary.errorRate
       Summary.maxResponseTime Summary.minResponseTime].
  rewrite Ht, Hf, Ha, He. repeat split.
Qed.

(** A call with no user leaves a tester with no outcome. *)
Lemma generateReport_without_outcomes_witness :
  exists r self',
    testEndpoint local_after_scheme (steady_world 200 20 30) new_LoadTester
      health_url 0 5 100 = Fulfilled (r, self')
    /\ p50 (analyzePerformance self') = None
    /\ Summary.avgResponseTime (report_summary self') = JS.NaN.
Proof.
  eexists. eexists. split; [vm_compute; reflexivity|].
  match goal with
  | |- p50 (analyzePerformance ?s) = _ /\ _ =>
      assert (Hr : reachable local_after_scheme s)
  end.
  { eapply (reachable_testEndpoint local_after_scheme _ (steady_world 200 20 30)
              health_url 0 5 100%Q); [apply reachable_new|].
    vm_compute. reflexivity. }
  destruct (generateReport_without_outcomes local_after_scheme _ Hr eq_refl)
    as (H50 & _ & _ & _ & Ha & _).
  split; [exact H50 | exact Ha].
Defined.


(** X5.  The running summary keeps the longest elapsed time of the batches,
    not their sum: when a batch takes at least as long as every batch before
    it, the throughput of the report divides all the requests of the tester,
    earlier batches included, by the elapsed time of that one batch. *)
Theorem generateReport_throughput_longest_batch
    (after_scheme : string -> string -> option Url.URL)
    (w : BatchWorld) (self : LoadTester) (url : string) (C M : nat) (D : Q)
    (r : EndpointResult.t) (self' : LoadTester) :
  reachable after_scheme self ->
  testEndpoint after_scheme w self url C M D = Fulfilled (r, self') ->
  (Summary.totalTime (summary self) <= EndpointResult.totalTime r)%Q ->
  (0 < EndpointResult.totalTime r)%Q ->
  JS.eqv (Summary.requestsPerSecond (report_summary self'))
    (JS.Fin (inject_Z (Z.of_nat (length (detailed self)
                                 + EndpointResult.totalRequests r))
             / (EndpointResult.totalTime r / 1000))).
Proof.
  intros Hr Hcall Hle Hpos.
  destruct (reachable_counters after_scheme self Hr) as (Ht & _).
  apply testEndpoint_inv in Hcall as (results & _ & -> & ->).
  unfold report_summary, store_results, endpoint_result in *.
  cbn [Summary.requestsPerSecond Summary.totalRequests Summary.totalTime
       summary EndpointResult.totalTime EndpointResult.totalRequests
       EndpointResult.successfulRequests EndpointResult.failedRequests] in *.
  set (t := (joinedTime w - launchedTime w)%Q) in *.
  rewrite Ht.
  assert (Hmax : Qmax (Summary.totalTime (summary self)) t == t)
    by (now apply Q.max_r).
  assert (Hdiv : forall x, JS.div (JS.Fin x) (JS.Fin 1000) = JS.Fin (x / 1000))
    by reflexivity.
  rewrite Hdiv. unfold JS.of_nat, JS.div.
  destruct (Qeq_bool (Qmax (Summary.totalTime (summary self)) t / 1000) 0)
    eqn:E.
  - exfalso. apply Qeq_bool_eq in E. rewrite Hmax in E.
    assert (Hq : t == (t / 1000) * 1000) by (field; discriminate).
    rewrite E in Hq. rewrite Hq in Hpos. revert Hpos. apply Qlt_irrefl.
  - cbn [JS.eqv]. rewrite Hmax. reflexivity.
Qed.

(** Two batches of ten requests, each joined after 500 ms: the report gives
    twenty requests in half a second. *)
Lemma generateReport_throughput_longest_batch_witness :
  exists r1 s1 r2 s2,
    testEndpoint local_after_scheme (steady_world 200 100 500) new_LoadTester
      health_url 5 2 100 = Fulfilled (r1, s1)
    /\ testEndpoint local_after_scheme (steady_world 200 100 500) s1
         health_url 5 2 100 = Fulfilled (r2, s2)
    /\ JS.eqv (EndpointResult.requestsPerSecond r2) (JS.Fin 20)
    /\ JS.eqv (Summary.requestsPerSecond (report_summary s2))
         (JS.Fin (inject_Z (Z.of_nat (length (detailed s1)
                                      + EndpointResult.totalRequests r2))
                  / (EndpointResult.totalTime r2 / 1000)))
    /\ JS.eqv (Summary.requestsPerSecond (report_summary s2)) (JS.Fin 40).
Proof.
  eexists. eexists. eexists. eexists.
  split; [vm_compute; reflexivity|].
  split; [vm_compute; reflexivity|].
  split; [vm_compute; reflexivity|].
  split; [|vm_compute; reflexivity].
  eapply (generateReport_throughput_longest_batch local_after_scheme
            (steady_world 200 100 500) _ health_url 5 2 100%Q).
  - eapply (reachable_testEndpoint local_after_scheme _
              (steady_world 200 100 500) health_url 5 2 100%Q);
      [apply reachable_new|]. vm_compute. reflexivity.
  - vm_compute. reflexivity.
  - vm_compute. discriminate.
  - vm_compute. reflexivity.
Defined.

(** X6.  [endpoints] keeps one result per URL: after two calls on the same
    URL it holds the result of the second call only, the entries of the
    other URLs are as they were, and [detailed] holds the outcomes of both
    batches. *)
Theorem testEndpoint_endpoints_last_result
    (after_scheme : string -> string -> option Url.URL)
    (w1 w2 : BatchWorld) (self : LoadTester) (url : string)
    (C1 M1 C2 M2 : nat) (D1 D2 : Q)
    (r1 r2 : EndpointResult.t) (s1 s2 : LoadTester) :
  testEndpoint after_scheme w1 self url C1 M1 D1 = Fulfilled (r1, s1) ->
  testEndpoint after_scheme w2 s1 url C2 M2 D2 = Fulfilled (r2, s2) ->
  endpoints s2 !! url = Some r2
  /\ (forall url', url' <> url -> endpoints s2 !! url' = endpoints self !! url')
  /\ length (detailed s2)
     = length (detailed self) + EndpointResult.totalRequests r1
       + EndpointResult.totalRequests r2.
Proof.
  intros H1 H2.
  apply testEndpoint_inv in H1 as (res1 & _ & -> & ->).
  apply testEndpoint_inv in H2 as (res2 & _ & -> & ->).
  unfold store_results. cbn [endpoints detailed].
  split; [apply lookup_insert_eq|]. split.
  - intros url' Hne. rewrite !lookup_insert_ne by congruence. reflexivity.
  - unfold endpoint_result. cbn [EndpointResult.totalRequests].
    rewrite !length_app. lia.
Qed.

Lemma testEndpoint_endpoints_last_result_witness :
  exists r1 s1 r2 s2,
    testEndpoint local_after_scheme (refusing_world 5 10) new_LoadTester
      health_url 3 1 100 = Fulfilled (r1, s1)
    /\ testEndpoint local_after_scheme (steady_world 200 20 30) s1
         health_url 2 1 100 = Fulfilled (r2, s2)
    /\ r1 <> r2
    /\ endpoints s2 !! health_url = Some r2
    /\ length (detailed s2)
       = length (detailed new_LoadTester) + EndpointResult.totalRequests r1
         + EndpointResult.totalRequests r2.
Proof.
  eexists. eexists. eexists. eexists.
  split; [vm_compute; reflexivity|].
  split; [vm_compute; reflexivity|].
  split; [discriminate|].
  refine (let H := testEndpoint_endpoints_last_result local_after_scheme
                     (refusing_world 5 10) (steady_world 200 20 30)
                     new_LoadTester health_url 3 1 2 1 100%Q 100%Q _ _ _ _
                     _ _ in
          conj (proj1 H) (proj2 (proj2 H))).
  - vm_compute. reflexivity.
  - vm_compute. reflexivity.
Defined.

(** ** The distribution of status codes *)

Lemma count_status_lookup (m : gmap string nat) (r : HttpOutcome)
    (key : string) :
  count_status m r !! key
  = if String.eqb (status_key (statusCode r)) key
    then Some (default 0 (m !! key) + 1)
    else m !! key.
Proof.
  unfold count_status.
  destruct (String.eqb_spec (status_key (statusCode r)) key) as [->|Hne].
  - apply lookup_insert_eq.
  - now apply lookup_insert_ne.
Qed.

Lemma fold_count_status (results : list HttpOutcome) (m : gmap string nat)
    (key : string) :
  fold_left count_status results m !! key
  = if count_key key results =? 0 then m !! key
    else Some (default 0 (m !! key) + count_key key results).
Proof.
  unfold count_key. revert m.
  induction results as [|r results IH]; intros m; simpl; [reflexivity|].
  rewrite IH, count_status_lookup.
  destruct (String.eqb (status_key (statusCode r)) key); simpl.
  - destruct (length _ =? 0) eqn:E.
    + apply Nat.eqb_eq in E. rewrite E. reflexivity.
    + f_equal. lia.
  - reflexivity.
Qed.

(** No decimal numeral reads ["ERROR"]. *)
Lemma pretty_N_go_not_ERROR (x : N) (s : string) :
  s <> "ERROR" -> pretty_N_go x s <> "ERROR".
Proof.
  revert s. induction (N.lt_wf_0 x) as [x _ IH]; intros s Hs.
  destruct (N.eq_dec x 0%N) as [->|Hx].
  - now rewrite pretty_N_go_0.
  - rewrite pretty_N_go_step by lia.
    apply IH; [apply N.div_lt; lia|].
    unfold pretty_N_char.
    repeat match goal with |- context [match ?t with _ => _ end] =>
             destruct t end; discriminate.
Qed.

Lemma pretty_Z_not_ERROR (code : Z) : pretty code <> "ERROR".
Proof.
  destruct code as [|p|p]; [discriminate| |discriminate].
  unfold pretty, pretty_Z, pretty, pretty_positive, pretty, pretty_N.
  destruct (decide (N.pos p = 0%N)); [discriminate|].
  now apply pretty_N_go_not_ERROR.
Qed.

Lemma status_key_ERROR (code : Z) :
  String.eqb (status_key code) "ERROR" = (code =? 0)%Z.
Proof.
  unfold status_key. destruct (code =? 0)%Z; [reflexivity|].
  apply String.eqb_neq, pretty_Z_not_ERROR.
Qed.

Lemma status_key_code (code code' : Z) :
  code <> 0%Z ->
  String.eqb (status_key code') (pretty code) = (code' =? code)%Z.
Proof.
  intros Hc. unfold status_key.
  destruct (Z.eqb_spec code' 0) as [->|Hc'].
  - destruct (Z.eqb_spec 0 code) as [E|_]; [congruence|].
    apply String.eqb_neq. intros E. symmetry in E.
    now apply pretty_Z_not_ERROR in E.
  - destruct (Z.eqb_spec code' code) as [->|Hne].
    + apply String.eqb_refl.
    + apply String.eqb_neq. intros E. apply Hne.
      now apply (inj pretty).
Qed.

Lemma filter_length_ext {A : Type} (f g : A -> bool) (l : list A) :
  (forall x, f x = g x) ->
  length (List.filter f l) = length (List.filter g l).
Proof.
  intros H. induction l as [|x l IH]; simpl; [reflexivity|].
  rewrite H. destruct (g x); simpl; lia.
Qed.

(** X7.  In the distribution returned by [getStatusCodeDistribution] the
    key ["ERROR"] holds the number of outcomes with status code 0 (the
    requests that failed without a response), the decimal numeral of any
    other status code holds the number of outcomes with that code, and a key
    with no outcome is absent. *)
Theorem getStatusCodeDistribution_counts (results : list HttpOutcome) :
  let absent_or (n : nat) := if n =? 0 then None else Some n in
  let with_code (code : Z) :=
    length (List.filter (fun r => (statusCode r =? code)%Z) results) in
  getStatusCodeDistribution results !! "ERROR" = absent_or (with_code 0%Z)
  /\ (forall code : Z,
         code <> 0%Z ->
         getStatusCodeDistribution results !! pretty code
         = absent_or (with_code code))
  /\ (forall key : string,
         getStatusCodeDistribution results !! key
         = absent_or (count_key key results)).
Proof.
  intros absent_or with_code.
  assert (Hall : forall key,
             getStatusCodeDistribution results !! key
             = absent_or (count_key key results)).
  { intros key. unfold getStatusCodeDistribution.
    rewrite fold_count_status, lookup_empty.
    subst absent_or. cbv beta.
    now destruct (count_key key results =? 0). }
  split; [|split; [|exact Hall]].
  - rewrite Hall. f_equal. unfold count_key, with_code.
    apply filter_length_ext. intros r. apply status_key_ERROR.
  - intros code Hc. rewrite Hall. f_equal. unfold count_key, with_code.
    apply filter_length_ext. intros r. now apply status_key_code.
Qed.


(** ** Percentile ranks at and beyond the ends *)

Lemma sorted_elements_all (l : list Q) (P : Q -> Prop) :
  (forall y, y ∈ sort_numeric l -> P y) -> Forall P l.
Proof.
  intros H. apply Forall_forall. intros y Hy. apply H.
  apply list_elem_of_In. eapply Permutation_in; [apply sort_numeric_perm|].
  now apply list_elem_of_In.
Qed.

(** X8.  On a non-empty list of latencies, [percentile] of the sorted array
    returns the smallest latency for every rank of 0 or less (the index is
    clamped at 0) and the largest latency for rank 100, and nothing
    ([undefined]) for every rank above 100: the index is not clamped at the
    upper end. *)
Theorem percentile_at_the_ends (latencies : list Q) :
  latencies <> [] ->
  let sortedTimes := sort_numeric latencies in
  (forall p : Q,
      (p <= 0)%Q ->
      exists x, percentile sortedTimes p = Some x
                /\ Forall (fun y => (x <= y)%Q) latencies)
  /\ (exists x, percentile sortedTimes 100 = Some x
                /\ Forall (fun y => (y <= x)%Q) latencies)
  /\ (forall p : Q, (100 < p)%Q -> percentile sortedTimes p = None).
Proof.
  intros Hne sortedTimes. subst sortedTimes.
  pose proof (sort_numeric_sorted latencies) as Hs.
  pose proof (sort_numeric_length latencies) as Hlen.
  pose proof (sorted_elements_all latencies) as Hel.
  remember (sort_numeric latencies) as sortedTimes eqn:Est. clear Est.
  assert (Hn : 0 < length sortedTimes)
    by (rewrite Hlen; destruct latencies; [congruence | simpl; lia]).
  assert (HN : (0 < inject_Z (Z.of_nat (length sortedTimes)))%Q)
    by now apply of_nat_pos.
  split; [|split].
  - intros p Hp. rewrite percentile_lookup.
    assert (Hc : (Qceiling (p / 100 * inject_Z (Z.of_nat (length sortedTimes)))
                  <= 0)%Z).
    { change 0%Z with (Qceiling 0). apply Qceiling_resp_le.
      assert (Hp' : (p / 100 <= 0)%Q).
      { unfold Qdiv. rewrite <- (Qmult_0_l (/ 100)).
        apply Qmult_le_compat_r; [exact Hp | discriminate]. }
      rewrite <- (Qmult_0_l (inject_Z (Z.of_nat (length sortedTimes)))).
      apply Qmult_le_compat_r; [exact Hp' | now apply Qlt_le_weak]. }
    replace (Z.to_nat (Z.max 0 _)) with 0 by lia.
    destruct (lookup_lt_is_Some_2 sortedTimes 0 Hn) as [x Hx].
    exists x. split; [exact Hx|].
    apply Hel. intros y Hy.
    apply list_elem_of_lookup in Hy as [i Hi].
    apply (sorted_lookup_le sortedTimes Hs 0 i x y); [lia | exact Hx | exact Hi].
  - rewrite percentile_lookup.
    assert (Hc : Qceiling (100 / 100 * inject_Z (Z.of_nat (length sortedTimes)))
                 = Z.of_nat (length sortedTimes)).
    { rewrite <- (Qceiling_Z (Z.of_nat (length sortedTimes))) at 2.
      apply Qceiling_comp. field. }
    rewrite Hc.
    replace (Z.to_nat (Z.max 0 _)) with (length sortedTimes - 1) by lia.
    destruct (lookup_lt_is_Some_2 sortedTimes (length sortedTimes - 1))
      as [x Hx]; [lia|].
    exists x. split; [exact Hx|].
    apply Hel. intros y Hy.
    apply list_elem_of_lookup in Hy as [i Hi].
    apply (sorted_lookup_le sortedTimes Hs i (length sortedTimes - 1) y x);
      [|exact Hi|exact Hx].
    apply lookup_lt_Some in Hi. lia.
  - intros p Hp. rewrite percentile_lookup. apply lookup_ge_None.
    set (c := Qceiling (p / 100 * inject_Z (Z.of_nat (length sortedTimes)))).
    assert (Hc : (Z.of_nat (length sortedTimes) < c)%Z).
    { rewrite Zlt_Qlt. eapply Qlt_le_trans; [|apply Qle_ceiling].
      assert (H1 : (1 < p / 100)%Q).
      { apply Qlt_shift_div_l; [reflexivity|]. now rewrite Qmult_1_l. }
      rewrite <- (Qmult_1_l (inject_Z (Z.of_nat (length sortedTimes)))) at 1.
      now apply Qmult_lt_compat_r. }
    lia.
Qed.

(** The three outcomes of 30, 10 and 20 ms: rank 0 gives 10, rank 100 gives
    30, rank 101 gives nothing. *)
Lemma percentile_at_the_ends_witness :
  percentile (sort_numeric (map responseTime (detailed three_outcomes))) 0
  = Some 10%Q
  /\ percentile (sort_numeric (map responseTime (detailed three_outcomes))) 100
     = Some 30%Q
  /\ percentile (sort_numeric (map responseTime (detailed three_outcomes))) 101
     = None.
Proof.
  split; [reflexivity|]. split; [reflexivity|].
  apply (percentile_at_the_ends (map responseTime (detailed three_outcomes))).
  - discriminate.
  - reflexivity.
Defined.


(** ** The stress test *)

(** [Math.ceil(a / b)] is the least count of groups of [b] that hold [a]. *)
Lemma ceil_div_bounds (a b : nat) :
  1 <= b -> a <= b * Number.ceil_div a b /\ b * Number.ceil_div a b < a + b.
Proof.
  intros Hb. unfold Number.ceil_div.
  set (x := (inject_Z (Z.of_nat a) / inject_Z (Z.of_nat b))%Q).
  assert (HB : (0 < inject_Z (Z.of_nat b))%Q) by (apply of_nat_pos; lia).
  assert (Hx : (x * inject_Z (Z.of_nat b) == inject_Z (Z.of_nat a))%Q).
  { unfold x. field. intros E. rewrite E in HB. revert HB. apply Qlt_irrefl. }
  pose proof (Qle_ceiling x) as Hup.
  pose proof (Qceiling_lt x) as Hlo.
  assert (H0 : (0 <= Qceiling x)%Z).
  { change 0%Z with (Qceiling 0). apply Qceiling_resp_le.
    unfold x. apply Qle_shift_div_l; [exact HB|].
    rewrite Qmult_0_l. change 0%Q with (inject_Z 0). rewrite <- Zle_Qle. lia. }
  assert (H1 : (Z.of_nat a <= Qceiling x * Z.of_nat b)%Z).
  { rewrite Zle_Qle, inject_Z_mult, <- Hx.
    apply Qmult_le_compat_r; [exact Hup | now apply Qlt_le_weak]. }
  assert (H2 : ((Qceiling x - 1) * Z.of_nat b < Z.of_nat a)%Z).
  { rewrite Zlt_Qlt, inject_Z_mult, <- Hx.
    apply Qmult_lt_compat_r; [exact HB | exact Hlo]. }
  split; nia.
Qed.

Section StressFacts.

Variable after_scheme : string -> string -> option Url.URL.

(** What a returned loop has done: entry [k] is the batch of
    [startUsers + k * step] users, within the range; every entry but the last is
    below the breaking point; the last entry is at the breaking point or is
    the last user count of the range. *)
Lemma stressTest_loop_spec (fuel : nat) (worlds : nat -> BatchWorld) :
  forall (i : nat) (self : LoadTester) (baseUrl : string)
         (startUsers maxUsers step requestsPerStep : nat)
         (steps : list StressStep) (self' : LoadTester),
    stressTest_loop after_scheme fuel worlds i self baseUrl startUsers maxUsers
      step requestsPerStep = Some (Fulfilled (steps, self')) ->
    (forall k entry,
        steps !! k = Some entry ->
        users entry = startUsers + k * step
        /\ users entry <= maxUsers
        /\ (S k < length steps -> breaking_point (step_result entry) = false)
        /\ (S k = length steps ->
            breaking_point (step_result entry) = true
            \/ maxUsers < users entry + step)
        /\ exists before after,
            testEndpoint after_scheme (worlds (i + k)) before baseUrl
              (users entry)
              (Number.ceil_div requestsPerStep (users entry)) 50
            = Fulfilled (step_result entry, after))
    /\ (steps = [] -> maxUsers < startUsers /\ self' = self).
Proof.
  induction fuel as [|fuel IH];
    intros i self baseUrl startUsers maxUsers step requestsPerStep steps self' H;
    [discriminate|].
  simpl in H.
  destruct (startUsers <=? maxUsers) eqn:Hle.
  2:{ injection H as <- <-. apply Nat.leb_gt in Hle.
      split; [intros k entry Hk; discriminate | auto]. }
  apply Nat.leb_le in Hle.
  destruct (testEndpoint after_scheme (worlds i) self baseUrl startUsers _ 50)
    as [[result self1]| |] eqn:Hcall; try discriminate.
  destruct (breaking_point result) eqn:Hb.
  - injection H as <- <-. split; [|discriminate].
    intros [|k] entry Hk; [|discriminate].
    injection Hk as <-. simpl.
    rewrite !Nat.add_0_r. repeat split; auto; try lia.
    exists self, self1. exact Hcall.
  - destruct (stressTest_loop after_scheme fuel worlds (S i) self1 baseUrl
                (startUsers + step) maxUsers step requestsPerStep)
      as [[[rest self2]| |]|] eqn:Hrest; try discriminate.
    injection H as <- <-. split; [|discriminate].
    destruct (IH _ _ _ _ _ _ _ _ _ Hrest) as [Hk Hnil].
    intros [|k] entry Hlook.
    + injection Hlook as <-. simpl.
      rewrite !Nat.add_0_r. split; [lia|]. split; [exact Hle|].
      split; [auto|]. split.
      * intros Hlen. destruct rest; [|discriminate].
        destruct (Hnil eq_refl) as [Hgt _]. right. exact Hgt.
      * exists self, self1. exact Hcall.
    + simpl in Hlook.
      destruct (Hk k entry Hlook) as (Hu & Hm & Hnb & Hlast & Hrun).
      split; [simpl; lia|]. split; [exact Hm|].
      split; [intros Hlen; apply Hnb; simpl in Hlen; lia|].
      split; [intros Hlen; apply Hlast; simpl in Hlen; lia|].
      replace (i + S k) with (S i + k) by lia. exact Hrun.
Qed.

(** With a positive step the loop ends: one more unit of fuel than there
    are user counts left in the range is enough. *)
Lemma stressTest_loop_ends (fuel : nat) (worlds : nat -> BatchWorld) :
  forall (i : nat) (self : LoadTester) (baseUrl : string)
         (startUsers maxUsers step requestsPerStep : nat),
    1 <= step ->
    maxUsers + 1 - startUsers < fuel ->
    exists p,
      stressTest_loop after_scheme fuel worlds i self baseUrl startUsers maxUsers
        step requestsPerStep = Some p.
Proof.
  induction fuel as [|fuel IH];
    intros i self baseUrl startUsers maxUsers step requestsPerStep Hstep Hfuel;
    [lia|].
  simpl. destruct (startUsers <=? maxUsers) eqn:Hle; [|eauto].
  apply Nat.leb_le in Hle.
  destruct (testEndpoint after_scheme (worlds i) self baseUrl startUsers _ 50)
    as [[result self1]| |]; eauto.
  destruct (breaking_point result); [eauto|].
  destruct (IH (S i) self1 baseUrl (startUsers + step) maxUsers step
              requestsPerStep Hstep) as [p Hp]; [lia|].
  rewrite Hp. destruct p as [[rest self2]| |]; eauto.
Qed.

End StressFacts.


(** X9.  With a step of at least 1, [stressTest] ends: the loop runs at most
    once per user count of the range, so any fuel above
    [maxUsers + 1 - startUsers] is enough, and the array returned has at most
    [(maxUsers - startUsers) / step + 1] entries. *)
Theorem stressTest_ends
    (after_scheme : string -> string -> option Url.URL)
    (fuel : nat) (worlds : nat -> BatchWorld) (self : LoadTester)
    (baseUrl : string) (startUsers maxUsers step requestsPerStep : nat) :
  1 <= step ->
  maxUsers + 1 - startUsers < fuel ->
  exists p,
    stressTest after_scheme fuel worlds self baseUrl startUsers maxUsers step
      requestsPerStep = Some p
    /\ forall steps self',
        p = Fulfilled (steps, self') ->
        length steps <= (maxUsers - startUsers) / step + 1.
Proof.
  intros Hstep Hfuel. unfold stressTest.
  destruct (stressTest_loop_ends after_scheme fuel worlds 0 self baseUrl
              startUsers maxUsers step requestsPerStep Hstep Hfuel) as [p Hp].
  exists p. split; [exact Hp|].
  intros steps self' ->.
  destruct (stressTest_loop_spec after_scheme _ _ _ _ _ _ _ _ _ _ _ Hp)
    as [Hk _].
  destruct (length steps) as [|n] eqn:Hlen; [lia|].
  destruct (lookup_lt_is_Some_2 steps n) as [entry He]; [lia|].
  destruct (Hk n entry He) as (Hu & Hm & _).
  assert (n * step <= maxUsers - startUsers) by lia.
  assert (n <= (maxUsers - startUsers) / step)
    by (apply Nat.div_le_lower_bound; lia).
  lia.
Qed.

(** The stress test of the command line: from 5 to 50 users by 5, on a
    server that answers every request in 50 ms. *)
Lemma stressTest_ends_witness :
  exists steps self',
    stressTest local_after_scheme 47 (fun _ => steady_world 200 50 60)
      new_LoadTester health_url 5 50 5 20 = Some (Fulfilled (steps, self'))
    /\ length steps = 10
    /\ length steps <= (50 - 5) / 5 + 1.
Proof.
  destruct (stressTest_ends local_after_scheme 47
              (fun _ => steady_world 200 50 60) new_LoadTester health_url
              5 50 5 20) as (p & Hp & Hbound); [lia | lia |].
  assert (E : stressTest local_after_scheme 47
                (fun _ => steady_world 200 50 60) new_LoadTester health_url
                5 50 5 20 = Some p) by exact Hp.
  vm_compute in E.
  match type of E with
  | Some (Fulfilled (?s, ?t)) = _ => exists s, t
  end.
  injection E as <-.
  split; [exact Hp|]. split; [reflexivity|].
  eapply Hbound. reflexivity.
Defined.

(** X10.  The array returned by [stressTest] holds one batch per user count
    [startUsers], [startUsers + step], ... within [maxUsers], in that order,
    and stops at the first batch at the breaking point ([errorRate > 10] or
    [avgResponseTime > 5000]): every entry but the last is below it, and the
    last entry is at it or is the last user count of the range.  The array
    is empty only when [startUsers > maxUsers], and then no request is
    made. *)
Theorem stressTest_stops_at_breaking_point
    (after_scheme : string -> string -> option Url.URL)
    (fuel : nat) (worlds : nat -> BatchWorld) (self : LoadTester)
    (baseUrl : string) (startUsers maxUsers step requestsPerStep : nat)
    (steps : list StressStep) (self' : LoadTester) :
  stressTest after_scheme fuel worlds self baseUrl startUsers maxUsers step
    requestsPerStep = Some (Fulfilled (steps, self')) ->
  (forall k entry,
      steps !! k = Some entry ->
      users entry = startUsers + k * step
      /\ users entry <= maxUsers
      /\ (S k < length steps -> breaking_point (step_result entry) = false)
      /\ (S k = length steps ->
          breaking_point (step_result entry) = true
          \/ maxUsers < users entry + step))
  /\ (steps = [] -> maxUsers < startUsers /\ self' = self).
Proof.
  intros H. unfold stressTest in H.
  destruct (stressTest_loop_spec after_scheme _ _ _ _ _ _ _ _ _ _ _ H)
    as [Hk Hnil].
  split; [|exact Hnil].
  intros k entry He. destruct (Hk k entry He) as (Hu & Hm & Hnb & Hl & _).
  auto.
Qed.

(** A server that refuses every request: the stress test stops after its
    first batch. *)
Lemma stressTest_stops_at_breaking_point_witness :
  exists steps self',
    stressTest local_after_scheme 47 (fun _ => refusing_world 5 10)
      new_LoadTester health_url 5 50 5 20 = Some (Fulfilled (steps, self'))
    /\ length steps = 1
    /\ forall k entry,
        steps !! k = Some entry ->
        users entry = 5 + k * 5
        /\ users entry <= 50
        /\ (S k < length steps -> breaking_point (step_result entry) = false)
        /\ (S k = length steps ->
            breaking_point (step_result entry) = true
            \/ 50 < users entry + 5).
Proof.
  eexists. eexists. split; [vm_compute; reflexivity|].
  split; [reflexivity|].
  refine (proj1 (stressTest_stops_at_breaking_point local_after_scheme 47
                   (fun _ => refusing_world 5 10) new_LoadTester health_url
                   5 50 5 20 _ _ _)).
  vm_compute. reflexivity.
Defined.

(** X11.  Starting from at least one user, each batch of the stress test
    gives every user [ceil(requestsPerStep / users)] requests, so the batch
    makes at least [requestsPerStep] requests and fewer than
    [requestsPerStep + users]. *)
Theorem stressTest_requests_per_step
    (after_scheme : string -> string -> option Url.URL)
    (fuel : nat) (worlds : nat -> BatchWorld) (self : LoadTester)
    (baseUrl : string) (startUsers maxUsers step requestsPerStep : nat)
    (steps : list StressStep) (self' : LoadTester) :
  1 <= startUsers ->
  stressTest after_scheme fuel worlds self baseUrl startUsers maxUsers step
    requestsPerStep = Some (Fulfilled (steps, self')) ->
  Forall
    (fun entry =>
       let total := EndpointResult.totalRequests (step_result entry) in
       total = users entry * Number.ceil_div requestsPerStep (users entry)
       /\ requestsPerStep <= total
       /\ total < requestsPerStep + users entry)
    steps.
Proof.
  intros Hstart H. unfold stressTest in H.
  destruct (stressTest_loop_spec after_scheme _ _ _ _ _ _ _ _ _ _ _ H)
    as [Hk _].
  apply Forall_lookup. intros k entry He.
  destruct (Hk k entry He) as (Hu & _ & _ & _ & before & after & Hrun).
  apply testEndpoint_totalRequests in Hrun. cbv beta zeta. rewrite Hrun.
  destruct (ceil_div_bounds requestsPerStep (users entry)) as [H1 H2]; [lia|].
  auto.
Qed.

Lemma stressTest_requests_per_step_witness :
  exists steps self',
    stressTest local_after_scheme 47 (fun _ => steady_world 200 50 60)
      new_LoadTester health_url 5 50 5 20 = Some (Fulfilled (steps, self'))
    /\ map (fun entry => EndpointResult.totalRequests (step_result entry)) steps
       = [20; 20; 30; 20; 25; 30; 35; 40; 45; 50]
    /\ Forall
         (fun entry =>
            let total := EndpointResult.totalRequests (step_result entry) in
            total = users entry * Number.ceil_div 20 (users entry)
            /\ 20 <= total
            /\ total < 20 + users entry)
         steps.
Proof.
  eexists. eexists. split; [vm_compute; reflexivity|].
  split; [reflexivity|].
  eapply (stressTest_requests_per_step local_after_scheme 47
            (fun _ => steady_world 200 50 60) new_LoadTester health_url
            5 50 5 20); [lia|].
  vm_compute. reflexivity.
Defined.

(** X12.  With a step of 0 the user count never moves: as long as no batch
    reaches the breaking point, [stressTest] does not end, whatever the fuel. *)
Theorem stressTest_zero_step_never_ends
    (after_scheme : string -> string -> option Url.URL)
    (worlds : nat -> BatchWorld) (baseUrl : string)
    (startUsers maxUsers requestsPerStep : nat) :
  startUsers <= maxUsers ->
  (forall i self,
      exists result self',
        testEndpoint after_scheme (worlds i) self baseUrl startUsers
          (Number.ceil_div requestsPerStep startUsers) 50
        = Fulfilled (result, self')
        /\ breaking_point result = false) ->
  forall fuel self,
    stressTest after_scheme fuel worlds self baseUrl startUsers maxUsers 0
      requestsPerStep = None.
Proof.
  intros Hle Hok fuel self. unfold stressTest.
  assert (Hloop : forall i self0,
             stressTest_loop after_scheme fuel worlds i self0 baseUrl
               startUsers maxUsers 0 requestsPerStep = None);
    [|apply Hloop].
  apply Nat.leb_le in Hle.
  induction fuel as [|fuel IH]; intros i self0; [reflexivity|].
  cbn [stressTest_loop]. rewrite Hle.
  destruct (Hok i self0) as (result & self' & -> & ->).
  rewrite Nat.add_0_r. now rewrite IH.
Qed.

(** Five users on a server that answers every request in 50 ms, with a
    step of 0: a hundred batches do not end the loop. *)
Lemma stressTest_zero_step_never_ends_witness :
  stressTest local_after_scheme 100 (fun _ => steady_world 200 50 60)
    new_LoadTester health_url 5 50 0 20 = None.
Proof.
  apply (stressTest_zero_step_never_ends local_after_scheme
           (fun _ => steady_world 200 50 60) health_url 5 50 20).
  - lia.
  - intros i self. eexists. eexists. split.
    + vm_compute. reflexivity.
    + vm_compute. reflexivity.
Defined.


(** ** The endurance test *)

(** X13.  [enduranceTest] with at least one user sizes its single batch to
    one request per second of the duration, rounded up to a whole number of
    requests per user: the batch makes at least [60 * durationMinutes]
    requests and fewer than [60 * durationMinutes + users]. *)
Theorem enduranceTest_request_count
    (after_scheme : string -> string -> option Url.URL)
    (w : BatchWorld) (self : LoadTester) (url : string)
    (users durationMinutes : nat) (r : EndpointResult.t) (self' : LoadTester) :
  1 <= users ->
  enduranceTest after_scheme w self url users durationMinutes
  = Fulfilled (r, self') ->
  EndpointResult.concurrentUsers r = users
  /\ EndpointResult.totalRequests r
     = users * EndpointResult.requestsPerUser r
  /\ 60 * durationMinutes <= EndpointResult.totalRequests r
  /\ EndpointResult.totalRequests r < 60 * durationMinutes + users.
Proof.
  intros Hu H. unfold enduranceTest in H.
  pose proof (testEndpoint_totalRequests _ _ _ _ _ _ _ _ _ H) as Ht.
  apply testEndpoint_inv in H as (results & _ & Hr & _).
  assert (Hc : EndpointResult.concurrentUsers r = users) by now subst r.
  assert (Hm : EndpointResult.requestsPerUser r
               = Number.ceil_div (60 * durationMinutes) users).
  { subst r. cbn [endpoint_result EndpointResult.requestsPerUser].
    unfold Number.ceil_div. f_equal. apply Qceiling_comp.
    rewrite Nat2Z.inj_mul, inject_Z_mult. simpl (Z.of_nat 60).
    apply Qdiv_comp; [|reflexivity]. change (inject_Z 60) with 60%Q. ring. }
  rewrite Ht, Hm in *.
  assert (Hm' : Z.to_nat
                  (Qceiling (inject_Z (Z.of_nat durationMinutes) * 60
                             / inject_Z (Z.of_nat users)))
                = Number.ceil_div (60 * durationMinutes) users).
  { rewrite <- Hm. now subst r. }
  rewrite Hm'.
  destruct (ceil_div_bounds (60 * durationMinutes) users Hu) as [H1 H2].
  auto.
Qed.

(** The endurance run of the suite: 25 users for 5 minutes. *)
Lemma enduranceTest_request_count_witness :
  exists r self',
    enduranceTest local_after_scheme (steady_world 200 50 60) new_LoadTester
      health_url 25 5 = Fulfilled (r, self')
    /\ EndpointResult.requestsPerUser r = 12
    /\ 60 * 5 <= EndpointResult.totalRequests r
    /\ EndpointResult.totalRequests r < 60 * 5 + 25.
Proof.
  eexists. eexists. split; [vm_compute; reflexivity|].
  split; [reflexivity|].
  refine (proj2 (proj2
    (enduranceTest_request_count local_after_scheme (steady_world 200 50 60)
       new_LoadTester health_url 25 5 _ _ _ _))).
  - lia.
  - vm_compute. reflexivity.
Defined.

(** ** The stability verdict *)



(** X15.  A batch that made no request has the full stability score: its
    error rate and average are [NaN] and its spread is [-Infinity], and no
    comparison with them holds, so nothing is deducted. *)
Theorem calculateStabilityScore_empty_batch
    (after_scheme : string -> string -> option Url.URL)
    (w : BatchWorld) (self : LoadTester) (url : string) (C M : nat) (D : Q)
    (r : EndpointResult.t) (self' : LoadTester) :
  testEndpoint after_scheme w self url C M D = Fulfilled (r, self') ->
  EndpointResult.totalRequests r = 0 ->
  calculateStabilityScore r = 100%Z.
Proof.
  intros H Hn. apply testEndpoint_inv in H as (results & _ & -> & _).
  cbn [endpoint_result EndpointResult.totalRequests] in Hn.
  apply length_zero_iff_nil in Hn. subst results. reflexivity.
Qed.

Lemma calculateStabilityScore_empty_batch_witness :
  exists r self',
    testEndpoint local_after_scheme (steady_world 200 50 60) new_LoadTester
      health_url 25 0 100 = Fulfilled (r, self')
    /\ calculateStabilityScore r = 100%Z.
Proof.
  eexists. eexists. split; [vm_compute; reflexivity|].
  eapply (calculateStabilityScore_empty_batch local_after_scheme
            (steady_world 200 50 60) new_LoadTester health_url 25 0 100%Q).
  - vm_compute. reflexivity.
  - reflexivity.
Defined.

(** ** The spike test and its recovery batch *)

(** X16.  The verdict of the spike test does not read the recovery batch:
    two runs that differ in what happens during recovery only have the same
    [passed], [spikeMultiplier] and [degradationRatio]. *)
Theorem runSpikeTest_ignores_recovery
    (after_scheme : string -> string -> option Url.URL)
    (w_baseline w_spike w_recovery w_recovery' : BatchWorld)
    (baseUrl : string) (cfg : SpikeConfig) (res res' : SpikeTestResults) :
  runSpikeTest after_scheme w_baseline w_spike w_recovery baseUrl cfg
  = Fulfilled res ->
  runSpikeTest after_scheme w_baseline w_spike w_recovery' baseUrl cfg
  = Fulfilled res' ->
  passed res = passed res'
  /\ spikeMultiplier res = spikeMultiplier res'
  /\ degradationRatio res = degradationRatio res'
  /\ baseline res = baseline res' /\ spike res = spike res'.
Proof.
  intros H H'.
  apply runSpikeTest_inv in H
    as (t1 & t2 & t3 & b & s & r & Hb & Hs & _ & Eb & Es & _ & Hm & Hd & Hp).
  apply runSpikeTest_inv in H'
    as (t1' & t2' & t3' & b' & s' & r' & Hb' & Hs' & _ & Eb' & Es' & _
        & Hm' & Hd' & Hp').
  rewrite Hb in Hb'. injection Hb' as <- <-.
  rewrite Hs in Hs'. injection Hs' as <- <-.
  rewrite Hp, Hp', Hm, Hm', Hd, Hd', Eb, Eb', Es, Es'. auto.
Qed.

(** A healthy spike followed by a recovery batch that is answered, or by
    one that is refused throughout: the test passes in both runs. *)
Lemma runSpikeTest_ignores_recovery_witness :
  exists res res',
    runSpikeTest local_after_scheme (steady_world 200 100 600)
      (steady_world 200 150 900) (steady_world 200 100 600)
      "http://localhost:3000" config_spikeTest = Fulfilled res
    /\ runSpikeTest local_after_scheme (steady_world 200 100 600)
         (steady_world 200 150 900) (refusing_world 5 10)
         "http://localhost:3000" config_spikeTest = Fulfilled res'
    /\ EndpointResult.successfulRequests (recovery res') = 0
    /\ passed res' = true
    /\ passed res = passed res'.
Proof.
  eexists. eexists.
  split; [vm_compute; reflexivity|].
  split; [vm_compute; reflexivity|].
  split; [reflexivity|]. split; [reflexivity|].
  refine (proj1
    (runSpikeTest_ignores_recovery local_after_scheme
       (steady_world 200 100 600) (steady_world 200 150 900)
       (steady_world 200 100 600) (refusing_world 5 10)
       "http://localhost:3000" config_spikeTest _ _ _ _));
    vm_compute; reflexivity.
Defined.


(** ** Facts about the database tester *)

Lemma await_each_fulfilled {A : Type} (ps : list (Promise A)) :
  List.Forall (fun p => exists a, p = Fulfilled a) ps ->
  exists vs,
    await_each ps = Fulfilled vs /\ Forall2 (fun p v => p = Fulfilled v) ps vs.
Proof.
  induction ps as [|p ps IH]; intros H.
  - exists []. split; [reflexivity | constructor].
  - inversion H as [|? ? [a Ha] Hps]; subst.
    destruct (IH Hps) as (vs & Hvs & Hall).
    exists (a :: vs). split.
    + simpl. rewrite Hvs. reflexivity.
    + constructor; [reflexivity | exact Hall].
Qed.

Lemma Promise_all_of_fulfilled {A : Type} (ps : list (Promise A)) :
  List.Forall (fun p => exists a, p = Fulfilled a) ps ->
  exists vs,
    Promise_all ps = Fulfilled vs /\ Forall2 (fun p v => p = Fulfilled v) ps vs.
Proof.
  intros H.
  assert (Hv : exists vs, first_rejection ps = None /\ all_values ps = Some vs).
  { induction ps as [|p ps IH].
    - exists []. split; reflexivity.
    - inversion H as [|? ? [a Ha] Hps]; subst.
      destruct (IH Hps) as (vs & Hr & Hvs).
      exists (a :: vs). simpl. rewrite Hr, Hvs. split; reflexivity. }
  destruct Hv as (vs & Hr & Hvs).
  exists vs. split.
  - unfold Promise_all. rewrite Hr, Hvs. reflexivity.
  - now apply all_values_Forall2.
Qed.

Lemma Forall2_fulfilled_transfer {A : Type} (P : A -> Prop)
    (ps : list (Promise A)) (vs : list A) :
  Forall2 (fun p v => p = Fulfilled v) ps vs ->
  List.Forall (fun p => forall v, p = Fulfilled v -> P v) ps ->
  List.Forall P vs.
Proof.
  induction 1 as [|p v ps vs Hp _ IH]; intros H.
  - constructor.
  - inversion H; subst. constructor; [auto | apply IH; assumption].
Qed.

Lemma Forall2_fulfilled_length {A : Type}
    (ps : list (Promise A)) (vs : list A) :
  Forall2 (fun p v => p = Fulfilled v) ps vs -> length vs = length ps.
Proof.
  induction 1; simpl; congruence.
Qed.

Lemma filter_none {A : Type} (f : A -> bool) (l : list A) :
  List.Forall (fun x => f x = false) l -> List.filter f l = [].
Proof.
  induction 1 as [|x l Hx _ IH]; simpl; [reflexivity|].
  now rewrite Hx.
Qed.

Lemma filter_all {A : Type} (f : A -> bool) (l : list A) :
  List.Forall (fun x => f x = true) l -> List.filter f l = l.
Proof.
  induction 1 as [|x l Hx _ IH]; simpl; [reflexivity|].
  rewrite Hx. now f_equal.
Qed.

Lemma filter_length_le_of_impl {A : Type} (f g : A -> bool) (l : list A) :
  (forall x, List.In x l -> f x = true -> g x = true) ->
  length (List.filter f l) <= length (List.filter g l).
Proof.
  induction l as [|x l IH]; intros H; simpl; [lia|].
  assert (IH' : length (List.filter f l) <= length (List.filter g l)).
  { apply IH. intros y Hy. apply H. now right. }
  destruct (f x) eqn:Ef.
  - rewrite (H x (or_introl eq_refl) Ef). simpl. lia.
  - destruct (g x); simpl; lia.
Qed.

Lemma filter_length_le {A : Type} (f : A -> bool) (l : list A) :
  length (List.filter f l) <= length l.
Proof.
  induction l as [|x l IH]; simpl; [lia|].
  destruct (f x); simpl; lia.
Qed.

(** What one query of a batch resolves with, when it does, and that it does
    whenever the driver settles. *)
Lemma query_promise_resolves (w : QueryBatchWorld) (pool : Pool) (i j : nat)
    (o : QueryOutcome) :
  query_promise w pool i j = Fulfilled o ->
  (q_success o = true <->
   pool <> None
   /\ acquire (query_world_at w i j) = Acquired
   /\ exists rows, execute (query_world_at w i j) = Rows rows)
  /\ (q_success o = true -> q_error o = None)
  /\ (pool = None ->
      q_error o
      = Some "Cannot read properties of null (reading 'getConnection')").
Proof.
  unfold query_promise, executeQuery.
  destruct pool as [inUse|].
  - destruct (acquire (query_world_at w i j)) as [|message|] eqn:Ea.
    + destruct (execute (query_world_at w i j)) as [rows|message|] eqn:Ee;
        cbn [fst]; intros H; inversion H; subst; clear H; simpl.
      * split; [|split].
        -- split; [|reflexivity]. intros _.
           split; [discriminate|]. split; [reflexivity|]. now exists rows.
        -- reflexivity.
        -- discriminate.
      * split; [|split].
        -- split; [discriminate|]. intros (_ & _ & rows & H). discriminate.
        -- discriminate.
        -- discriminate.
    + cbn [fst]. intros H. inversion H; subst; clear H. simpl.
      split; [|split].
      * split; [discriminate|]. intros (_ & H & _). discriminate.
      * discriminate.
      * discriminate.
    + discriminate.
  - cbn [fst]. intros H. inversion H; subst; clear H. simpl.
    split; [|split].
    + split; [discriminate|]. intros (H & _). congruence.
    + discriminate.
    + reflexivity.
Qed.

Lemma query_promise_fulfilled (w : QueryBatchWorld) (pool : Pool) (i j : nat) :
  pool = None \/ settles (query_world_at w i j) = true ->
  exists o, query_promise w pool i j = Fulfilled o.
Proof.
  intros H. unfold query_promise.
  destruct (proj2 (executeQuery_resolves
                     (query_clock_at w i j) (query_world_at w i j) pool) H)
    as (o & Ho & _).
  rewrite Ho. now exists o.
Qed.

Lemma query_promise_not_rejected (w : QueryBatchWorld) (pool : Pool)
    (i j : nat) (e : string) :
  query_promise w pool i j <> Rejected e.
Proof.
  unfold query_promise. apply executeQuery_resolves.
Qed.

Lemma Promise_all_not_rejected {A : Type} (ps : list (Promise A)) :
  List.Forall (fun p => forall e, p <> Rejected e) ps ->
  forall e, Promise_all ps <> Rejected e.
Proof.
  intros H e. unfold Promise_all.
  assert (Hr : first_rejection ps = None).
  { induction H as [|p ps Hp _ IH]; [reflexivity|].
    simpl. destruct p as [a|e'|]; [exact IH | | exact IH].
    exfalso. now apply (Hp e'). }
  rewrite Hr. destruct (all_values ps); discriminate.
Qed.

Lemma await_each_not_rejected {A : Type} (ps : list (Promise A)) :
  List.Forall (fun p => forall e, p <> Rejected e) ps ->
  forall e, await_each ps <> Rejected e.
Proof.
  induction 1 as [|p ps Hp _ IH]; intros e; [discriminate|].
  cbn [await_each]. unfold mbind, Promise_bind, await, mret, Promise_ret.
  destruct p as [a|e'|].
  - specialize (IH e). destruct (await_each ps); congruence.
  - exfalso. now apply (Hp e').
  - discriminate.
Qed.

Lemma await_each_inv {A : Type} (ps : list (Promise A)) (vs : list A) :
  await_each ps = Fulfilled vs -> Forall2 (fun p v => p = Fulfilled v) ps vs.
Proof.
  revert vs. induction ps as [|p ps IH]; intros vs H.
  - inversion H. constructor.
  - simpl in H. destruct p as [a| |]; try discriminate. simpl in H.
    destruct (await_each ps) as [others| |]; try discriminate.
    inversion H; subst. constructor; [reflexivity | now apply IH].
Qed.

Lemma getConnectionPoolStats_not_rejected (pool : Pool) (reply : StatsReply)
    (e : string) :
  getConnectionPoolStats pool reply <> Rejected e.
Proof.
  unfold getConnectionPoolStats. destruct pool; [destruct reply|]; discriminate.
Qed.

Lemma getConnectionPoolStats_settles (pool : Pool) (reply : StatsReply) :
  pool = None \/ reply <> StatsPending ->
  exists stats, getConnectionPoolStats pool reply = Fulfilled stats.
Proof.
  unfold getConnectionPoolStats. intros H.
  destruct pool as [inUse|]; [|eauto].
  destruct reply; eauto. destruct H as [H|H]; [discriminate | congruence].
Qed.

Lemma flat_map_constant_length {A B : Type} (f : A -> list B) (n : nat)
    (l : list A) :
  (forall x, length (f x) = n) -> length (flat_map f l) = length l * n.
Proof.
  intros H. induction l as [|x l IH]; simpl; [reflexivity|].
  rewrite length_app, H, IH. lia.
Qed.

Lemma Forall_flat_map_intro {A B : Type} (P : B -> Prop) (f : A -> list B)
    (l : list A) :
  (forall x, List.Forall P (f x)) -> List.Forall P (flat_map f l).
Proof.
  intros H. induction l as [|x l IH]; simpl; [constructor|].
  apply List.Forall_app. split; [apply H | exact IH].
Qed.

Lemma Forall_map_intro {A B : Type} (P : B -> Prop) (f : A -> B)
    (l : list A) :
  (forall x, P (f x)) -> List.Forall P (map f l).
Proof.
  intros H. induction l as [|x l IH]; simpl; constructor; auto.
Qed.

(** X17. [testConnectionPool] never rejects, and it returns whenever the
    driver settles every checkout, query and statistics request; it may stay
    pending otherwise.  When it returns it has counted
    [concurrentConnections * queriesPerConnection] queries, each as
    successful or failed.  On a tester that was not initialised every query
    fails and the pool statistics are an error; with a pool whose driver
    answers every query, none fails. *)
Theorem testConnectionPool_accounts (w : QueryBatchWorld) (pool : Pool)
    (concurrentConnections queriesPerConnection : nat) :
  (forall e,
      testConnectionPool w pool concurrentConnections queriesPerConnection
      <> Rejected e)
  /\ ((forall i j, pool = None \/ settles (query_world_at w i j) = true) ->
      pool = None \/ statsReply w <> StatsPending ->
      exists r,
        testConnectionPool w pool concurrentConnections queriesPerConnection
        = Fulfilled r)
  /\ (forall r,
        testConnectionPool w pool concurrentConnections queriesPerConnection
        = Fulfilled r ->
        PoolResult.totalQueries r
        = concurrentConnections * queriesPerConnection
        /\ PoolResult.successfulQueries r + PoolResult.failedQueries r
           = PoolResult.totalQueries r
        /\ (pool = None ->
            PoolResult.successfulQueries r = 0
            /\ PoolResult.failedQueries r
               = concurrentConnections * queriesPerConnection
            /\ PoolResult.connectionPoolStats r
               = StatsError
                   "Cannot read properties of null (reading 'pool')")
        /\ (pool <> None ->
            (forall i j,
                acquire (query_world_at w i j) = Acquired
                /\ exists rows, execute (query_world_at w i j) = Rows rows) ->
            PoolResult.successfulQueries r
            = concurrentConnections * queriesPerConnection
            /\ PoolResult.failedQueries r = 0)).
Proof.
  unfold testConnectionPool, mbind, Promise_bind, await, mret, Promise_ret.
  set (promises :=
         flat_map
           (fun conn =>
              map (query_promise w pool conn) (seq 0 queriesPerConnection))
           (seq 0 concurrentConnections)).
  assert (Hlen : length promises
                 = concurrentConnections * queriesPerConnection).
  { unfold promises.
    rewrite (flat_map_constant_length _ queriesPerConnection).
    - now rewrite length_seq.
    - intros conn. now rewrite length_map, length_seq. }
  assert (Hall : forall P : Promise QueryOutcome -> Prop,
             (forall i j, P (query_promise w pool i j)) ->
             List.Forall P promises).
  { intros P HP. unfold promises. apply Forall_flat_map_intro.
    intros conn. apply Forall_map_intro. intros j. apply HP. }
  split; [|split].
  - intros e.
    pose proof (Promise_all_not_rejected promises
                  (Hall _ (fun i j e' =>
                             query_promise_not_rejected w pool i j e')))
      as Hnr.
    destruct (Promise_all promises) as [results|e'|] eqn:Hres; simpl.
    + pose proof (getConnectionPoolStats_not_rejected pool (statsReply w) e)
        as Hst.
      destruct (getConnectionPoolStats pool (statsReply w)); simpl;
        congruence.
    + exfalso. now apply (Hnr e').
    + discriminate.
  - intros Hsettle Hstats.
    destruct (Promise_all_of_fulfilled promises) as (results & Hres & _).
    { apply Hall. intros i j. apply query_promise_fulfilled, Hsettle. }
    destruct (getConnectionPoolStats_settles pool (statsReply w) Hstats)
      as (stats & Hst).
    rewrite Hres. simpl. rewrite Hst. simpl. eauto.
  - intros r Hr.
    destruct (Promise_all promises) as [results| |] eqn:Hres;
      try discriminate.
    simpl in Hr.
    destruct (getConnectionPoolStats pool (statsReply w)) as [stats| |]
      eqn:Hst; try discriminate.
    simpl in Hr. injection Hr as <-.
    apply Promise_all_fulfilled, all_values_Forall2 in Hres.
    pose proof (Forall2_fulfilled_length _ _ Hres) as Hlr.
    cbn [PoolResult.totalQueries PoolResult.successfulQueries
         PoolResult.failedQueries PoolResult.connectionPoolStats].
    pose proof (filter_partition_length (fun r => q_success r) results)
      as Hpart.
    split; [congruence|]. split; [exact Hpart|]. split.
    + intros ->.
      assert (Hf : List.Forall (fun o => q_success o = false) results).
      { apply (Forall2_fulfilled_transfer _ _ _ Hres).
        apply Hall. intros i j v Hv.
        destruct (query_promise_resolves w None i j v Hv) as (Hs & _).
        destruct (q_success v) eqn:E; [|reflexivity].
        destruct (proj1 Hs eq_refl) as (Hne & _). congruence. }
      rewrite (filter_none (fun r => q_success r) _ Hf) in *. simpl in *.
      split; [reflexivity|]. split; [lia|].
      simpl in Hst. congruence.
    + intros Hpool Hok.
      assert (Ht : List.Forall (fun o => q_success o = true) results).
      { apply (Forall2_fulfilled_transfer _ _ _ Hres).
        apply Hall. intros i j v Hv.
        destruct (query_promise_resolves w pool i j v Hv) as (Hs & _).
        apply Hs. split; [exact Hpool|]. apply Hok. }
      rewrite (filter_all (fun r => q_success r) _ Ht) in *. lia.
Qed.

(** Twenty connections of five queries on a database that answers. *)
Lemma testConnectionPool_accounts_witness :
  exists r,
    testConnectionPool (steady_query_world 40 1000) (Some 0) 20 5
    = Fulfilled r
    /\ PoolResult.totalQueries r = 100
    /\ PoolResult.successfulQueries r = 100
    /\ PoolResult.failedQueries r = 0.
Proof.
  destruct (proj1 (proj2 (testConnectionPool_accounts
                            (steady_query_world 40 1000) (Some 0) 20 5)))
    as (r & Hr).
  - intros i j. right. reflexivity.
  - right. discriminate.
  - exists r. split; [exact Hr|].
    destruct (proj2 (proj2 (testConnectionPool_accounts
                              (steady_query_world 40 1000) (Some 0) 20 5))
                r Hr) as (Ht & _ & _ & Hok).
    split; [exact Ht|]. apply Hok; [discriminate|].
    intros i j. split; [reflexivity | now exists (Some 1)].
Defined.

(** The runs of one query and what [query_stats] makes of them. *)
Lemma query_runs_inv (w : QueryBatchWorld) (pool : Pool) (i : nat)
    (results : list QueryOutcome) :
  query_runs w pool i = Fulfilled results ->
  length results = 10
  /\ Forall2 (fun p v => p = Fulfilled v)
       (map (query_promise w pool i) (seq 0 10)) results.
Proof.
  unfold query_runs. intros H. apply await_each_inv in H.
  split; [|exact H].
  rewrite (Forall2_fulfilled_length _ _ H). reflexivity.
Qed.

Lemma query_runs_settle (w : QueryBatchWorld) (pool : Pool) (i : nat) :
  (forall j, pool = None \/ settles (query_world_at w i j) = true) ->
  exists results, query_runs w pool i = Fulfilled results.
Proof.
  intros H. unfold query_runs.
  destruct (await_each_fulfilled (map (query_promise w pool i) (seq 0 10)))
    as (results & Hres & _); [|eauto].
  apply Forall_map_intro. intros j. apply query_promise_fulfilled, H.
Qed.

Lemma query_runs_not_rejected (w : QueryBatchWorld) (pool : Pool) (i : nat)
    (e : string) :
  query_runs w pool i <> Rejected e.
Proof.
  unfold query_runs. apply await_each_not_rejected.
  apply Forall_map_intro. intros j e'. apply query_promise_not_rejected.
Qed.

Lemma testINR100Queries_from_inv (P : QueryStats -> Prop)
    (w : QueryBatchWorld) (pool : Pool) :
  (forall i text weight results,
      query_runs w pool i = Fulfilled results ->
      P (query_stats text weight results)) ->
  forall queries i entries,
    testINR100Queries_from w pool i queries = Fulfilled entries ->
    map fst entries = map fst queries
    /\ List.Forall (fun entry => P (snd entry)) entries.
Proof.
  intros HP. induction queries as [|[name [text weight]] rest IH];
    intros i entries H.
  - inversion H. split; [reflexivity | constructor].
  - simpl in H.
    destruct (query_runs w pool i) as [results| |] eqn:Hres;
      try discriminate.
    simpl in H.
    destruct (testINR100Queries_from w pool (S i) rest) as [tail| |]
      eqn:Htail; try discriminate.
    simpl in H. injection H as <-.
    destruct (IH (S i) tail Htail) as [Hnames Hall].
    split; [simpl; now f_equal|].
    constructor; [|exact Hall]. simpl. now apply (HP i).
Qed.

Lemma testINR100Queries_from_settles (w : QueryBatchWorld) (pool : Pool) :
  (forall i j, pool = None \/ settles (query_world_at w i j) = true) ->
  forall queries i,
  exists entries, testINR100Queries_from w pool i queries = Fulfilled entries.
Proof.
  intros H. induction queries as [|[name [text weight]] rest IH]; intros i.
  - exists []. reflexivity.
  - destruct (query_runs_settle w pool i (H i)) as (results & Hres).
    destruct (IH (S i)) as (tail & Htail).
    simpl. rewrite Hres. simpl. rewrite Htail. simpl. eauto.
Qed.

Lemma testINR100Queries_from_not_rejected (w : QueryBatchWorld) (pool : Pool) :
  forall queries i e, testINR100Queries_from w pool i queries <> Rejected e.
Proof.
  induction queries as [|[name [text weight]] rest IH]; intros i e;
    [discriminate|].
  simpl.
  pose proof (query_runs_not_rejected w pool i) as Hr.
  destruct (query_runs w pool i) as [results|e'|]; simpl.
  - specialize (IH (S i)).
    destruct (testINR100Queries_from w pool (S i) rest) as [tail|e'|]; simpl;
      [discriminate | | discriminate].
    exfalso. now apply (IH e').
  - exfalso. now apply (Hr e').
  - discriminate.
Qed.

(** X18. [testINR100Queries] never rejects and returns whenever the driver
    settles every checkout and query.  When it returns it has one entry per
    named query, in their order, each over 10 runs.  Its field [failed] is
    the number of runs that ended without an error message, not of those
    that failed: it is never below [successful]; when every run succeeds
    both fields are 10 (and the success rate is 100); on a tester that was
    not initialised both are 0. *)
Theorem testINR100Queries_failed_counts_clean_runs (w : QueryBatchWorld)
    (pool : Pool) :
  (forall e, testINR100Queries w pool <> Rejected e)
  /\ ((forall i j, pool = None \/ settles (query_world_at w i j) = true) ->
      exists entries, testINR100Queries w pool = Fulfilled entries)
  /\ (forall entries,
        testINR100Queries w pool = Fulfilled entries ->
        map fst entries = map fst inr100_queries
        /\ List.Forall
             (fun entry =>
                runs (snd entry) = 10
                /\ successful (snd entry) <= failed (snd entry)
                /\ failed (snd entry) <= 10
                /\ (pool = None ->
                    successful (snd entry) = 0 /\ failed (snd entry) = 0)
                /\ (pool <> None ->
                    (forall i j,
                        acquire (query_world_at w i j) = Acquired
                        /\ exists rows,
                          execute (query_world_at w i j) = Rows rows) ->
                    successful (snd entry) = 10
                    /\ failed (snd entry) = 10
                    /\ JS.eqv (successRate (snd entry)) (JS.Fin 100)))
             entries).
Proof.
  unfold testINR100Queries.
  split; [apply testINR100Queries_from_not_rejected|].
  split; [intros H; now apply testINR100Queries_from_settles|].
  apply (testINR100Queries_from_inv
           (fun st =>
              runs st = 10
              /\ successful st <= failed st
              /\ failed st <= 10
              /\ (pool = None -> successful st = 0 /\ failed st = 0)
              /\ (pool <> None ->
                  (forall i j,
                      acquire (query_world_at w i j) = Acquired
                      /\ exists rows,
                        execute (query_world_at w i j) = Rows rows) ->
                  successful st = 10
                  /\ failed st = 10
                  /\ JS.eqv (successRate st) (JS.Fin 100)))).
  intros i text weight results Hruns.
  destruct (query_runs_inv w pool i results Hruns) as (Hlen & Hvs).
  assert (Hall : forall P : QueryOutcome -> Prop,
             (forall j v, query_promise w pool i j = Fulfilled v -> P v) ->
             List.Forall P results).
  { intros P HP. apply (Forall2_fulfilled_transfer _ _ _ Hvs).
    apply Forall_map_intro. intros j v. apply HP. }
  cbn [query_stats runs successful failed successRate snd].
  split; [reflexivity|]. split; [|split; [|split]].
  - apply filter_length_le_of_impl. intros o Ho Hs.
    assert (Hclean : List.Forall
                       (fun o => q_success o = true -> no_error o = true)
                       results).
    { apply Hall. intros j v Hv Hsv.
      destruct (query_promise_resolves w pool i j v Hv) as (_ & He & _).
      unfold no_error. now rewrite (He Hsv). }
    rewrite List.Forall_forall in Hclean. now apply Hclean.
  - rewrite <- Hlen. apply filter_length_le.
  - intros ->.
    assert (Hf : List.Forall
                   (fun o => q_success o = false /\ no_error o = false)
                   results).
    { apply Hall. intros j v Hv.
      destruct (query_promise_resolves w None i j v Hv) as (Hs & _ & He).
      split.
      - destruct (q_success v) eqn:E; [|reflexivity].
        destruct (proj1 Hs eq_refl) as (Hne & _). congruence.
      - unfold no_error. rewrite (He eq_refl). reflexivity. }
    rewrite (filter_none (fun r => q_success r)), (filter_none no_error).
    + split; reflexivity.
    + eapply List.Forall_impl; [|exact Hf]. now intros o [_ H].
    + eapply List.Forall_impl; [|exact Hf]. now intros o [H _].
  - intros Hpool Hok.
    assert (Ht : List.Forall
                   (fun o => q_success o = true /\ no_error o = true)
                   results).
    { apply Hall. intros j v Hv.
      destruct (query_promise_resolves w pool i j v Hv) as (Hs & He & _).
      assert (Hsucc : q_success v = true).
      { apply Hs. split; [exact Hpool|]. apply Hok. }
      split; [exact Hsucc|]. unfold no_error. now rewrite (He Hsucc). }
    rewrite (filter_all (fun r => q_success r)), (filter_all no_error).
    + rewrite Hlen. split; [reflexivity|]. split; [reflexivity|].
      vm_compute. reflexivity.
    + eapply List.Forall_impl; [|exact Ht]. now intros o [_ H].
    + eapply List.Forall_impl; [|exact Ht]. now intros o [H _].
Qed.

(** The named queries on a database that answers: every entry reports ten
    successes and ten in [failed]. *)
Lemma testINR100Queries_failed_counts_clean_runs_witness :
  exists entries,
    testINR100Queries (steady_query_world 40 1000) (Some 0)
    = Fulfilled entries
    /\ length entries = 7
    /\ List.Forall
         (fun entry =>
            successful (snd entry) = 10 /\ failed (snd entry) = 10)
         entries.
Proof.
  destruct (proj1 (proj2 (testINR100Queries_failed_counts_clean_runs
                            (steady_query_world 40 1000) (Some 0))))
    as (entries & He).
  - intros i j. right. reflexivity.
  - exists entries. split; [exact He|].
    destruct (proj2 (proj2 (testINR100Queries_failed_counts_clean_runs
                              (steady_query_world 40 1000) (Some 0)))
                entries He) as (Hnames & Hall).
    split.
    + rewrite <- (length_map fst), Hnames. reflexivity.
    + eapply List.Forall_impl; [|exact Hall].
      intros entry (_ & _ & _ & _ & Hok).
      destruct Hok as (H1 & H2 & _); [discriminate | | auto].
      intros i j. split; [reflexivity | now exists (Some 1)].
Defined.

(** The number of iterations [testConcurrentLoad] plans. *)
Lemma planned_queries (concurrentUsers durationSeconds : nat) :
  Z.to_nat (Qfloor (inject_Z (Z.of_nat concurrentUsers)
                    * (inject_Z (Z.of_nat durationSeconds) / 2)))
  = concurrentUsers * durationSeconds / 2.
Proof.
  unfold Qfloor, Qdiv, Qmult, Qinv, inject_Z.
  cbn -[Nat.div Z.div Z.mul Z.of_nat].
  rewrite Z.mul_1_r, <- Nat2Z.inj_mul.
  change (Z.pos (1 * (1 * 2))) with (Z.of_nat 2).
  rewrite <- Nat2Z.inj_div. apply Nat2Z.id.
Qed.

Lemma select_query_some (random : Q) :
  (random <= 1)%Q -> exists text, select_query random = Some text.
Proof.
  intros H. unfold select_query, weightedQueries. simpl.
  repeat match goal with
         | |- context [Qle_bool random ?c] =>
             destruct (Qle_bool random c) eqn:?; [eexists; reflexivity|]
         end.
  exfalso.
  match goal with
  | E : Qle_bool random ?c = false |- _ =>
      assert (Hc : (random <= c)%Q) by (eapply Qle_trans; [exact H|]; vm_compute; discriminate);
      apply Qle_bool_iff in Hc; congruence
  end.
Qed.

Lemma launch_queries_length_le (w : QueryBatchWorld) (pool : Pool)
    (endTime : Q) (remaining i : nat) :
  length (launch_queries w pool endTime remaining i) <= remaining.
Proof.
  revert i. induction remaining as [|n IH]; intros i; simpl; [lia|].
  destruct (Qle_bool endTime (loop_clock_at w i)); simpl; [lia|].
  rewrite length_app. specialize (IH (S i)).
  destruct (select_query (random_at w i)); simpl; lia.
Qed.

Lemma launch_queries_length_full (w : QueryBatchWorld) (pool : Pool)
    (endTime : Q) (remaining i : nat) :
  (forall k, i <= k < i + remaining -> (loop_clock_at w k < endTime)%Q) ->
  (forall k, i <= k < i + remaining -> (random_at w k <= 1)%Q) ->
  length (launch_queries w pool endTime remaining i) = remaining.
Proof.
  revert i. induction remaining as [|n IH]; intros i Hclock Hrandom; simpl;
    [reflexivity|].
  destruct (Qle_bool endTime (loop_clock_at w i)) eqn:E.
  - apply Qle_bool_iff in E. specialize (Hclock i ltac:(lia)).
    exfalso. apply (Qlt_not_le _ _ Hclock E).
  - destruct (select_query_some _ (Hrandom i ltac:(lia))) as (text & ->).
    simpl. rewrite IH; [reflexivity | |].
    + intros k Hk. apply Hclock. lia.
    + intros k Hk. apply Hrandom. lia.
Qed.

Lemma launch_queries_fulfilled (w : QueryBatchWorld) (pool : Pool)
    (endTime : Q) (remaining i : nat) :
  (forall k, pool = None \/ settles (query_world_at w k 0) = true) ->
  List.Forall (fun p => exists o, p = Fulfilled o)
    (launch_queries w pool endTime remaining i).
Proof.
  intros Hsettle.
  revert i. induction remaining as [|n IH]; intros i; simpl; [constructor|].
  destruct (Qle_bool endTime (loop_clock_at w i)); [constructor|].
  apply List.Forall_app. split; [|apply IH].
  destruct (select_query (random_at w i)); constructor;
    [apply query_promise_fulfilled, Hsettle | constructor].
Qed.

Lemma launch_queries_not_rejected (w : QueryBatchWorld) (pool : Pool)
    (endTime : Q) (remaining i : nat) :
  List.Forall (fun p => forall e, p <> Rejected e)
    (launch_queries w pool endTime remaining i).
Proof.
  revert i. induction remaining as [|n IH]; intros i; simpl; [constructor|].
  destruct (Qle_bool endTime (loop_clock_at w i)); [constructor|].
  apply List.Forall_app. split; [|apply IH].
  destruct (select_query (random_at w i)); constructor;
    [intros e; apply query_promise_not_rejected | constructor].
Qed.

(** X19. [testConcurrentLoad] never rejects and returns whenever the driver
    settles every checkout, query and statistics request.  When it returns,
    the queries it counts, each as successful or failed, are at most
    [floor(concurrentUsers * durationSeconds / 2)]: one query per user every
    two seconds.  It runs exactly that many when the deadline is not reached
    while they are launched and [Math.random] stays within its range. *)
Theorem testConcurrentLoad_query_count (w : QueryBatchWorld) (pool : Pool)
    (concurrentUsers durationSeconds : nat) :
  (forall e,
      testConcurrentLoad w pool concurrentUsers durationSeconds
      <> Rejected e)
  /\ ((forall k, pool = None \/ settles (query_world_at w k 0) = true) ->
      pool = None \/ statsReply w <> StatsPending ->
      exists c,
        testConcurrentLoad w pool concurrentUsers durationSeconds
        = Fulfilled c)
  /\ (forall c,
        testConcurrentLoad w pool concurrentUsers durationSeconds
        = Fulfilled c ->
        ConcurrentResult.totalQueries c
        <= concurrentUsers * durationSeconds / 2
        /\ ConcurrentResult.successfulQueries c
           + ConcurrentResult.failedQueries c
           = ConcurrentResult.totalQueries c
        /\ ((forall k,
                k < concurrentUsers * durationSeconds / 2 ->
                (loop_clock_at w k
                 < batchStart w
                   + inject_Z (Z.of_nat durationSeconds) * 1000)%Q) ->
            (forall k,
                k < concurrentUsers * durationSeconds / 2 ->
                (random_at w k <= 1)%Q) ->
            ConcurrentResult.totalQueries c
            = concurrentUsers * durationSeconds / 2)).
Proof.
  unfold testConcurrentLoad, mbind, Promise_bind, await, mret, Promise_ret.
  rewrite planned_queries.
  set (endTime :=
         (batchStart w + inject_Z (Z.of_nat durationSeconds) * 1000)%Q).
  set (planned := concurrentUsers * durationSeconds / 2).
  split; [|split].
  - intros e.
    pose proof (Promise_all_not_rejected _
                  (launch_queries_not_rejected w pool endTime planned 0))
      as Hnr.
    destruct (Promise_all (launch_queries w pool endTime planned 0))
      as [results|e'|]; simpl.
    + pose proof (getConnectionPoolStats_not_rejected pool (statsReply w) e)
        as Hst.
      destruct (getConnectionPoolStats pool (statsReply w)); simpl;
        congruence.
    + exfalso. now apply (Hnr e').
    + discriminate.
  - intros Hsettle Hstats.
    destruct (Promise_all_of_fulfilled
                (launch_queries w pool endTime planned 0)
                (launch_queries_fulfilled w pool endTime planned 0 Hsettle))
      as (results & Hres & _).
    destruct (getConnectionPoolStats_settles pool (statsReply w) Hstats)
      as (stats & Hst).
    rewrite Hres. simpl. rewrite Hst. simpl. eauto.
  - intros c Hc.
    destruct (Promise_all (launch_queries w pool endTime planned 0))
      as [results| |] eqn:Hres; try discriminate.
    simpl in Hc.
    destruct (getConnectionPoolStats pool (statsReply w)) as [stats| |];
      try discriminate.
    simpl in Hc. injection Hc as <-.
    apply Promise_all_fulfilled, all_values_Forall2 in Hres.
    pose proof (Forall2_fulfilled_length _ _ Hres) as Hlen.
    cbn [concurrent_result ConcurrentResult.totalQueries
         ConcurrentResult.successfulQueries ConcurrentResult.failedQueries].
    split; [|split].
    + rewrite Hlen. apply launch_queries_length_le.
    + apply (filter_partition_length (fun r => q_success r)).
    + intros Hclock Hrandom. rewrite Hlen.
      apply launch_queries_length_full.
      * intros k Hk. apply Hclock. lia.
      * intros k Hk. apply Hrandom. lia.
Qed.

(** Three users for four seconds on a database that answers: six queries. *)
Lemma testConcurrentLoad_query_count_witness :
  exists c,
    testConcurrentLoad (steady_query_world 40 1000) (Some 0) 3 4
    = Fulfilled c
    /\ ConcurrentResult.totalQueries c = 6.
Proof.
  destruct (proj1 (proj2 (testConcurrentLoad_query_count
                            (steady_query_world 40 1000) (Some 0) 3 4)))
    as (c & Hc).
  - intros k. right. reflexivity.
  - right. discriminate.
  - exists c. split; [exact Hc|].
    destruct (proj2 (proj2 (testConcurrentLoad_query_count
                              (steady_query_world 40 1000) (Some 0) 3 4))
                c Hc) as (_ & _ & Hfull).
    apply Hfull.
    + intros k Hk. change (3 * 4 / 2) with 6 in Hk.
      unfold steady_query_world. cbn [loop_clock_at batchStart].
      apply Qlt_le_trans with (inject_Z 30).
      * rewrite <- Zlt_Qlt. lia.
      * vm_compute. discriminate.
    + intros k _. vm_compute. discriminate.
Defined.


(** ** Facts about the summary of the runner *)

Ltac split_comparisons :=
  repeat match goal with
         | |- context [JS.Qltb ?x ?y] => destruct (JS.Qltb x y) eqn:?
         end;
  repeat match goal with
         | H : JS.Qltb _ _ = true |- _ => apply Qltb_lt in H
         | H : JS.Qltb _ _ = false |- _ => apply Qltb_ge in H
         end.

(** X20. The grade and the readiness verdict agree in one direction: a
    summary declared ready for production is graded A with a score of 95 or
    100.  The score lies between 45 and 100, and the grade is F exactly when
    the average response time is above 2000 ms with more than 1% of errors,
    or above 1000 ms with more than 5%. *)
Theorem calculateOverallGrade_and_readiness (webSummary : WebSummary.t) :
  (45 <= snd (calculateOverallGrade webSummary) <= 100)%Z
  /\ (fst (calculateOverallGrade webSummary) = Grade.F <->
      (JS.gt (WebSummary.avgResponseTime webSummary) (JS.Fin 2000)
       && JS.gt (WebSummary.errorRate webSummary) (JS.Fin 1))
      || (JS.gt (WebSummary.avgResponseTime webSummary) (JS.Fin 1000)
          && JS.gt (WebSummary.errorRate webSummary) (JS.Fin 5)) = true)
  /\ (ready (assessProductionReadiness webSummary) = true ->
      fst (calculateOverallGrade webSummary) = Grade.A
      /\ (95 <= snd (calculateOverallGrade webSummary))%Z).
Proof.
  destruct webSummary as [total successes avg err].
  unfold calculateOverallGrade, assessProductionReadiness.
  cbn [WebSummary.avgResponseTime WebSummary.errorRate ready forallb].
  destruct avg as [a| | |], err as [e| | |]; cbn [JS.gt JS.lt];
    split_comparisons; try (exfalso; lra);
    vm_compute; repeat split; intros; try discriminate; congruence.
Qed.

(** The accumulation of [generateOverallSummary]. *)
Lemma add_NaN_r (x : JS.number) : Number.add x JS.NaN = JS.NaN.
Proof. now destruct x. Qed.

Lemma web_fold_NaN (l : list EndpointResult.t) :
  forall acc : WebSummary.t,
    (WebSummary.avgResponseTime acc = JS.NaN
     \/ exists r, In r l /\ EndpointResult.avgResponseTime r = JS.NaN) ->
    (WebSummary.errorRate acc = JS.NaN
     \/ exists r, In r l /\ EndpointResult.errorRate r = JS.NaN) ->
    let final :=
      fold_left
        (fun acc result =>
           {| WebSummary.totalRequests :=
                WebSummary.totalRequests acc
                + EndpointResult.totalRequests result;
              WebSummary.successfulRequests :=
                WebSummary.successfulRequests acc
                + EndpointResult.successfulRequests result;
              WebSummary.avgResponseTime :=
                Number.add (WebSummary.avgResponseTime acc)
                  (EndpointResult.avgResponseTime result);
              WebSummary.errorRate :=
                Number.add (WebSummary.errorRate acc)
                  (EndpointResult.errorRate result) |})
        l acc in
    WebSummary.avgResponseTime final = JS.NaN
    /\ WebSummary.errorRate final = JS.NaN.
Proof.
  induction l as [|x l IH]; intros acc Ha He; cbn zeta.
  - destruct Ha as [Ha|(r & [] & _)], He as [He|(r & [] & _)]. now split.
  - simpl. apply IH; cbn [WebSummary.avgResponseTime WebSummary.errorRate].
    + destruct Ha as [->|(r & [<-|Hin] & Hr)].
      * left. reflexivity.
      * left. rewrite Hr. apply add_NaN_r.
      * right. now exists r.
    + destruct He as [->|(r & [<-|Hin] & Hr)].
      * left. reflexivity.
      * left. rewrite Hr. apply add_NaN_r.
      * right. now exists r.
Qed.

Section SummaryFacts.

Variable after_scheme : string -> string -> option Url.URL.

Lemma testEndpoint_empty_batch (w : BatchWorld) (self : LoadTester)
    (url : string) (C M : nat) (D : Q) (r : EndpointResult.t)
    (self' : LoadTester) :
  testEndpoint after_scheme w self url C M D = Fulfilled (r, self') ->
  C * M = 0 ->
  EndpointResult.avgResponseTime r = JS.NaN
  /\ EndpointResult.errorRate r = JS.NaN.
Proof.
  intros H Hzero.
  apply (testEndpoint_inv after_scheme) in H as (results & Hall & -> & _).
  apply Promise_all_fulfilled, all_values_length in Hall.
  rewrite push_all_length, Hzero in Hall.
  destruct results; [|discriminate]. split; reflexivity.
Qed.

(** X21. One batch without requests among the web results (a scenario with
    0 users or 0 requests per user) turns both averages of the overall
    summary into NaN; every comparison with NaN fails, so the run is graded
    A with the full score of 100, and yet is not ready for production. *)
Theorem generateOverallSummary_empty_batch_graded_A (w : BatchWorld)
    (self self' : LoadTester) (url : string) (C M : nat) (D : Q)
    (r : EndpointResult.t) (allResults : list EndpointResult.t) :
  testEndpoint after_scheme w self url C M D = Fulfilled (r, self') ->
  C * M = 0 ->
  In r allResults ->
  WebSummary.avgResponseTime (web_summary allResults) = JS.NaN
  /\ WebSummary.errorRate (web_summary allResults) = JS.NaN
  /\ calculateOverallGrade (web_summary allResults) = (Grade.A, 100%Z)
  /\ ready (assessProductionReadiness (web_summary allResults)) = false.
Proof.
  intros Hcall Hzero Hin.
  destruct (testEndpoint_empty_batch _ _ _ _ _ _ _ _ Hcall Hzero)
    as [Havg Herr].
  assert (Hlen : (0 <? length allResults) = true).
  { apply Nat.ltb_lt. destruct allResults; [destruct Hin | simpl; lia]. }
  assert (Hnan : WebSummary.avgResponseTime (web_summary allResults) = JS.NaN
                 /\ WebSummary.errorRate (web_summary allResults) = JS.NaN).
  { unfold web_summary. rewrite Hlen.
    cbn [WebSummary.avgResponseTime WebSummary.errorRate].
    destruct (web_fold_NaN allResults
                {| WebSummary.totalRequests := 0;
                   WebSummary.successfulRequests := 0;
                   WebSummary.avgResponseTime := JS.Fin 0;
                   WebSummary.errorRate := JS.Fin 0 |}) as [Ha He].
    - right. now exists r.
    - right. now exists r.
    - cbn zeta in Ha, He. rewrite Ha, He. split; reflexivity. }
  destruct Hnan as [Ha He].
  split; [exact Ha|]. split; [exact He|].
  unfold calculateOverallGrade, assessProductionReadiness.
  rewrite Ha, He. split; reflexivity.
Qed.

End SummaryFacts.

Lemma generateOverallSummary_empty_batch_graded_A_witness :
  exists r self',
    testEndpoint local_after_scheme (steady_world 200 50 60) new_LoadTester
      health_url 0 5 100%Q = Fulfilled (r, self')
    /\ calculateOverallGrade (web_summary [r]) = (Grade.A, 100%Z)
    /\ ready (assessProductionReadiness (web_summary [r])) = false.
Proof.
  eexists. eexists. split; [vm_compute; reflexivity|].
  refine (proj2 (proj2
    (generateOverallSummary_empty_batch_graded_A local_after_scheme
       (steady_world 200 50 60) new_LoadTester _ health_url 0 5 100%Q _ _
       _ _ _))).
  - vm_compute. reflexivity.
  - reflexivity.
  - left. reflexivity.
Defined.

(** The database results of the testers. *)
Lemma testConcurrentLoad_inv (w : QueryBatchWorld) (pool : Pool)
    (concurrentUsers durationSeconds : nat) (c : ConcurrentResult.t) :
  testConcurrentLoad w pool concurrentUsers durationSeconds = Fulfilled c ->
  exists stats results totalTime,
    c = concurrent_result stats concurrentUsers durationSeconds results
          totalTime.
Proof.
  unfold testConcurrentLoad, mbind, Promise_bind, await, mret, Promise_ret.
  destruct (Promise_all _) as [results| |]; try discriminate.
  destruct (getConnectionPoolStats _ _) as [stats| |]; try discriminate.
  intros H. inversion H. eauto.
Qed.

Lemma testINR100Queries_names (w : QueryBatchWorld) (pool : Pool)
    (entries : list (string * QueryStats)) :
  testINR100Queries w pool = Fulfilled entries ->
  map fst entries = map fst inr100_queries.
Proof.
  intros H.
  apply (testINR100Queries_from_inv (fun _ => True) w pool
           (fun _ _ _ _ _ => I) inr100_queries 0 entries H).
Qed.

Lemma plain_entries_names (entries entries' : list (string * QueryStats)) :
  map fst entries = map fst entries' ->
  plain_entries (DbQueries entries) = plain_entries (DbQueries entries').
Proof.
  revert entries'. induction entries as [|e entries IH];
    intros [|e' entries'] H; try discriminate; [reflexivity|].
  simpl in H. injection H as Hfst Hrest.
  specialize (IH _ Hrest). simpl in *. now rewrite Hfst, IH.
Qed.

Lemma produced_plain (r : DbResult) :
  produced_by_tester r -> plain_entries r = true.
Proof.
  intros [w pool entries H | w pool u d c H]; [|reflexivity].
  apply testINR100Queries_names in H.
  rewrite (plain_entries_names entries
             (map (fun q => (fst q, query_stats "" 0 [])) inr100_queries)).
  - vm_compute. reflexivity.
  - rewrite H, map_map. reflexivity.
Qed.

Lemma produced_all_plain (dbResults : list DbResult) :
  List.Forall produced_by_tester dbResults ->
  forallb plain_entries dbResults = true.
Proof.
  induction 1 as [|r l Hr _ IH]; simpl; [reflexivity|].
  now rewrite (produced_plain r Hr), IH.
Qed.

(** The throughput of a batch of queries is falsy only for an empty batch,
    whose average query time is [NaN]. *)
Lemma concurrent_result_no_throughput (stats : PoolStats)
    (concurrentUsers durationSeconds : nat)
    (results : list QueryOutcome) (totalTime : Q) :
  let c := concurrent_result stats concurrentUsers durationSeconds
             results totalTime in
  Number.truthy (ConcurrentResult.queriesPerSecond c) = false ->
  ConcurrentResult.avgQueryTime c = JS.NaN.
Proof.
  cbn zeta.
  cbn [concurrent_result ConcurrentResult.queriesPerSecond
       ConcurrentResult.avgQueryTime].
  rewrite length_map.
  destruct results as [|o results]; [reflexivity|].
  intros H. exfalso. revert H.
  set (n := length (o :: results)).
  assert (Hn : 0 < n) by (unfold n; simpl; lia).
  pose proof (of_nat_pos n Hn) as Hpos.
  unfold JS.of_nat. cbn [JS.div].
  change (Qeq_bool 1000 0) with false. cbv iota.
  destruct (Qeq_bool (totalTime / 1000) 0) eqn:Et.
  - destruct (Qeq_bool (inject_Z (Z.of_nat n)) 0) eqn:En.
    + apply Qeq_bool_eq in En. rewrite En in Hpos.
      exfalso. apply (Qlt_irrefl _ Hpos).
    + destruct (JS.Qltb 0 (inject_Z (Z.of_nat n))); discriminate.
  - cbn [Number.truthy]. rewrite negb_false_iff. intros E.
    apply Qeq_bool_eq in E.
    apply Qeq_bool_neq in Et.
    assert (Hz : (inject_Z (Z.of_nat n) == 0)%Q).
    { rewrite <- (Qmult_div_r (inject_Z (Z.of_nat n)) (totalTime / 1000) Et)
        at 1.
      rewrite E. apply Qmult_0_r. }
    rewrite Hz in Hpos. apply (Qlt_irrefl _ Hpos).
Qed.

Lemma fold_add_zero (l : list DbResult) (f : DbResult -> JS.number) :
  List.Forall (fun r => f r = JS.Fin 0) l ->
  forall q, (q == 0)%Q ->
  exists q', fold_left (fun sum r => Number.add sum (f r)) l (JS.Fin q)
             = JS.Fin q' /\ (q' == 0)%Q.
Proof.
  induction 1 as [|r l Hr _ IH]; intros q Hq; simpl.
  - now exists q.
  - rewrite Hr. cbn [Number.add]. apply IH. rewrite Hq. reflexivity.
Qed.

(** X22. For the database results the runner stores, the summary's
    [averageQueryTime] is 0 whatever was measured: the results it averages
    are those without a throughput, which are the objects of
    [testINR100Queries] (they have no [avgQueryTime] of their own) and the
    concurrent runs that ran no query.  Every result is counted once, as a
    query test or as a concurrent test. *)
Theorem summarizeDatabaseResults_averageQueryTime_zero
    (dbResults : list DbResult) :
  List.Forall produced_by_tester dbResults ->
  exists s,
    summarizeDatabaseResults dbResults = Some s
    /\ JS.eqv (averageQueryTime s) (JS.Fin 0)
    /\ queryTests s + concurrentTests s = length dbResults.
Proof.
  intros Hprod. unfold summarizeDatabaseResults.
  rewrite (produced_all_plain _ Hprod).
  eexists. split; [reflexivity|].
  cbn [averageQueryTime queryTests concurrentTests].
  set (isQuery := fun r => negb (field_truthy (field_queriesPerSecond r))).
  set (queryResults := List.filter isQuery dbResults).
  split.
  - destruct (0 <? length queryResults) eqn:Hlen; [|reflexivity].
    apply Nat.ltb_lt in Hlen.
    assert (Hzero : List.Forall
                      (fun r => field_or_zero (field_avgQueryTime r)
                                = JS.Fin 0)
                      queryResults).
    { apply List.Forall_forall. intros r Hr.
      apply List.filter_In in Hr as [Hin Hq].
      rewrite List.Forall_forall in Hprod. specialize (Hprod r Hin).
      destruct Hprod as [w pool entries H | w pool u d c H];
        [reflexivity|].
      apply testConcurrentLoad_inv in H as (stats & results & t & ->).
      unfold isQuery in Hq. apply negb_true_iff in Hq.
      cbn [field_queriesPerSecond field_truthy] in Hq.
      cbn [field_avgQueryTime field_or_zero].
      now rewrite (concurrent_result_no_throughput _ _ _ _ _ Hq). }
    destruct (fold_add_zero queryResults _ Hzero 0 (Qeq_refl 0))
      as (q' & Hfold & Hq').
    rewrite Hfold, (div_by_count _ _ Hlen). cbn [JS.eqv].
    rewrite Hq'. unfold Qdiv. apply Qmult_0_l.
  - rewrite <- (filter_partition_length
                  (fun r => field_truthy (field_queriesPerSecond r))
                  dbResults).
    apply Nat.add_comm.
Qed.

Lemma summarizeDatabaseResults_averageQueryTime_zero_witness :
  exists entries c s,
    testINR100Queries (steady_query_world 40 1000) (Some 0)
    = Fulfilled entries
    /\ testConcurrentLoad (steady_query_world 40 1000) (Some 0) 3 4
       = Fulfilled c
    /\ List.Forall
         (fun entry => JS.eqv (qs_avgQueryTime (snd entry)) (JS.Fin 40))
         entries
    /\ JS.eqv (ConcurrentResult.avgQueryTime c) (JS.Fin 40)
    /\ summarizeDatabaseResults [DbQueries entries; DbConcurrent c] = Some s
    /\ JS.eqv (averageQueryTime s) (JS.Fin 0)
    /\ queryTests s + concurrentTests s = 2.
Proof.
  assert (Hq : exists entries,
             testINR100Queries (steady_query_world 40 1000) (Some 0)
             = Fulfilled entries
             /\ List.Forall
                  (fun entry =>
                     JS.eqv (qs_avgQueryTime (snd entry)) (JS.Fin 40))
                  entries).
  { eexists. split; [vm_compute; reflexivity|].
    repeat constructor. }
  assert (Hc : exists c,
             testConcurrentLoad (steady_query_world 40 1000) (Some 0) 3 4
             = Fulfilled c
             /\ JS.eqv (ConcurrentResult.avgQueryTime c) (JS.Fin 40)).
  { eexists. split; [vm_compute; reflexivity|]. reflexivity. }
  destruct Hq as (entries & Hq & Hslow), Hc as (c & Hc & Hcslow).
  destruct (summarizeDatabaseResults_averageQueryTime_zero
              [DbQueries entries; DbConcurrent c]) as (s & Hs & Hz & Hn).
  { constructor; [eapply produced_queries; exact Hq|].
    constructor; [eapply produced_concurrent; exact Hc | constructor]. }
  exists entries, c, s. auto 10.
Defined.


(** X23. A run that stored database results only is graded A with the full
    score and declared ready for production: the web summary it grades is
    the initial one, all zeros. *)
Theorem generateOverallSummary_database_only (dbResults : list DbResult) :
  dbResults <> [] ->
  List.Forall produced_by_tester dbResults ->
  exists webApplication database readiness,
    generateOverallSummary [] dbResults
    = Some (Overall webApplication database (Grade.A, 100%Z) readiness)
    /\ WebSummary.totalRequests webApplication = 0
    /\ WebSummary.avgResponseTime webApplication = JS.Fin 0
    /\ WebSummary.errorRate webApplication = JS.Fin 0
    /\ ready readiness = true.
Proof.
  intros Hne Hprod. unfold generateOverallSummary.
  destruct dbResults as [|r rest]; [congruence|].
  cbn [length Nat.eqb andb].
  unfold summarizeDatabaseResults.
  rewrite (produced_all_plain _ Hprod).
  do 3 eexists. split; [reflexivity|].
  repeat split.
Qed.

Lemma generateOverallSummary_database_only_witness :
  exists entries webApplication database readiness,
    testINR100Queries (steady_query_world 40 1000) None = Fulfilled entries
    /\ generateOverallSummary [] [DbQueries entries]
       = Some (Overall webApplication database (Grade.A, 100%Z) readiness)
    /\ ready readiness = true.
Proof.
  assert (Hq : exists entries,
             testINR100Queries (steady_query_world 40 1000) None
             = Fulfilled entries)
    by (eexists; vm_compute; reflexivity).
  destruct Hq as (entries & Hq).
  destruct (generateOverallSummary_database_only [DbQueries entries])
    as (web & database & readiness & Hs & _ & _ & _ & Hready).
  - discriminate.
  - constructor; [eapply produced_queries; exact Hq | constructor].
  - exists entries, web, database, readiness. auto.
Defined.

(** ** Facts about the monitoring *)

Lemma Number_sum_from (qs : list Q) (a : Q) :
  fold_left Number.add (map JS.Fin qs) (JS.Fin a)
  = JS.Fin (fold_left Qplus qs a).
Proof.
  revert a. induction qs as [|q qs IH]; intros a; simpl; [reflexivity|].
  apply IH.
Qed.

Lemma Number_sum_Fin (qs : list Q) :
  Number.sum (map JS.Fin qs) = JS.Fin (sum qs).
Proof. apply Number_sum_from. Qed.

Lemma Qdiv_lt_iff (a b c : Q) :
  (0 < b)%Q -> (a / b < c <-> a < c * b)%Q.
Proof.
  intros Hb. split; intros H.
  - apply Qnot_le_lt. intros Hle.
    apply (Qle_shift_div_l _ _ _ Hb) in Hle.
    apply (Qlt_not_le _ _ H Hle).
  - now apply Qlt_shift_div_r.
Qed.

Lemma Qlt_div_iff (a b c : Q) :
  (0 < b)%Q -> (c < a / b <-> c * b < a)%Q.
Proof.
  intros Hb. split; intros H.
  - apply Qnot_le_lt. intros Hle.
    apply (Qle_shift_div_r _ _ _ Hb) in Hle.
    apply (Qlt_not_le _ _ H Hle).
  - now apply Qlt_shift_div_l.
Qed.

(** With fewer than two samples the first half is empty, its average is
    [NaN], and no comparison holds. *)
Lemma analyzeStabilityTrend_few_samples (results : list EndpointResult.t) :
  length results < 2 -> analyzeStabilityTrend results = Improving.
Proof.
  intros H. destruct results as [|r [|r' rest]]; [reflexivity| |simpl in H; lia].
  unfold analyzeStabilityTrend. simpl map.
  destruct (EndpointResult.avgResponseTime r); reflexivity.
Qed.

(** X24. [analyzeStabilityTrend] on at least two samples whose averages
    lie between [2^-900] and [2^900] ms (no sum or quotient leaves the
    range of the normal doubles), away from the two thresholds of 10% by
    one point or more: the trend is stable when the average of the second
    half is within 9% of that of the first, degrading when it is at least
    11% above, and improving when it is at least 11% below.  A second half
    that is not slower than the first is never reported as degrading.
    (Closer to a threshold, the label depends on how the quotient
    rounds.) *)
Theorem analyzeStabilityTrend_away_from_thresholds
    (results : list EndpointResult.t) (times : list Q) :
  map EndpointResult.avgResponseTime results = map JS.Fin times ->
  List.Forall (fun t => (2 ^ (-900) <= t)%Q /\ (t <= 2 ^ 900)%Q) times ->
  2 <= length times ->
  let half := length times / 2 in
  let firstAvg := (sum (firstn half times) / inject_Z (Z.of_nat half))%Q in
  let secondAvg :=
    (sum (skipn half times)
     / inject_Z (Z.of_nat (length times - half)))%Q in
  ((firstAvg * (91 # 100) <= secondAvg)%Q ->
   (secondAvg <= firstAvg * (109 # 100))%Q ->
   analyzeStabilityTrend results = Stable)
  /\ ((firstAvg * (111 # 100) <= secondAvg)%Q ->
      analyzeStabilityTrend results = Degrading)
  /\ ((secondAvg <= firstAvg * (89 # 100))%Q ->
      analyzeStabilityTrend results = Improving)
  /\ ((secondAvg <= firstAvg)%Q ->
      analyzeStabilityTrend results <> Degrading).
Proof.
  intros Hmap Hrange Hlen half firstAvg secondAvg.
  assert (Hhalf : 1 <= half /\ half < length times).
  { unfold half. split.
    - apply Nat.div_le_lower_bound; lia.
    - apply Nat.div_lt; lia. }
  assert (Hpos : (0 < firstAvg)%Q).
  { assert (Hp : (0 < 2 ^ (-900))%Q) by (apply Qpower_0_lt; reflexivity).
    assert (Hh : (0 < inject_Z (Z.of_nat half))%Q) by (apply of_nat_pos; lia).
    assert (Hlow : List.Forall (fun t => (2 ^ (-900) <= t)%Q)
                     (firstn half times)).
    { apply Forall_take. eapply List.Forall_impl; [|exact Hrange].
      now intros t [Ht _]. }
    pose proof (sum_lower _ _ Hlow) as Hs.
    rewrite length_firstn in Hs.
    replace (Nat.min half (length times)) with half in Hs by lia.
    unfold firstAvg. apply Qlt_shift_div_l; [exact Hh|].
    rewrite Qmult_0_l.
    eapply Qlt_le_trans; [|exact Hs].
    apply Qmult_lt_0_compat; assumption. }
  unfold analyzeStabilityTrend. rewrite Hmap, length_map.
  fold half. rewrite firstn_map, skipn_map, !Number_sum_Fin, !length_map.
  rewrite length_firstn, length_skipn.
  replace (Nat.min half (length times)) with half by lia.
  rewrite !div_by_count by lia.
  fold firstAvg secondAvg. cbn [JS.sub JS.div].
  assert (Hne : Qeq_bool firstAvg 0 = false).
  { destruct (Qeq_bool firstAvg 0) eqn:E; [|reflexivity].
    apply Qeq_bool_eq in E. rewrite E in Hpos.
    exfalso. apply (Qlt_irrefl _ Hpos). }
  rewrite Hne. cbn [Number.abs JS.lt JS.gt].
  set (trend := ((secondAvg - firstAvg) / firstAvg)%Q).
  pose proof (Qdiv_lt_iff (secondAvg - firstAvg) firstAvg (1 # 10) Hpos) as Hup.
  pose proof (Qlt_div_iff (secondAvg - firstAvg) firstAvg (1 # 10) Hpos) as Hover.
  pose proof (Qlt_div_iff (secondAvg - firstAvg) firstAvg (- (1 # 10)) Hpos)
    as Hlow.
  fold trend in Hup, Hover, Hlow.
  pose proof (Qabs_Qlt_condition trend (1 # 10)) as Habs.
  destruct (JS.Qltb (Qabs trend) (1 # 10)) eqn:E1.
  - apply Qltb_lt in E1. apply Habs in E1 as [Ha Hb].
    apply Hup in Hb. apply Hlow in Ha.
    split; [reflexivity|]. split; [intros H; exfalso; lra|].
    split; [intros H; exfalso; lra | discriminate].
  - apply Qltb_ge in E1.
    assert (Hout : ~ (- (1 # 10) < trend /\ trend < 1 # 10)%Q).
    { intros H. apply Habs in H. apply (Qlt_not_le _ _ H E1). }
    destruct (JS.Qltb (1 # 10) trend) eqn:E2.
    + apply Qltb_lt in E2. apply Hover in E2.
      split; [intros H1 H2; exfalso; lra|]. split; [reflexivity|].
      split; intros H; exfalso; lra.
    + apply Qltb_ge in E2.
      assert (Hnot : ~ ((1 # 10) * firstAvg < secondAvg - firstAvg)%Q).
      { intros H. apply Hover in H. apply (Qlt_not_le _ _ H E2). }
      split; [|split; [|split]].
      * intros H1 H2. exfalso. apply Hout. split.
        -- apply Hlow. lra.
        -- apply Hup. lra.
      * intros H. exfalso. apply Hnot. lra.
      * reflexivity.
      * discriminate.
Qed.


(** Two samples, of 100 ms and of 120 ms: degrading. *)
Lemma analyzeStabilityTrend_away_from_thresholds_witness :
  exists r1 r2 tester1 tester2,
    testEndpoint local_after_scheme (steady_world 200 100 60) new_LoadTester
      health_url 5 2 100%Q = Fulfilled (r1, tester1)
    /\ testEndpoint local_after_scheme (steady_world 200 120 60) tester1
         health_url 5 2 100%Q = Fulfilled (r2, tester2)
    /\ analyzeStabilityTrend [r1; r2] = Degrading.
Proof.
  do 4 eexists.
  split; [vm_compute; reflexivity|]. split; [vm_compute; reflexivity|].
  refine (proj1 (proj2
    (analyzeStabilityTrend_away_from_thresholds _ [1000 # 10; 1200 # 10]%Q
       _ _ _)) _).
  - vm_compute. reflexivity.
  - repeat constructor; vm_compute; discriminate.
  - simpl. lia.
  - vm_compute. discriminate.
Defined.

Section ContinuousFacts.

Variable after_scheme : string -> string -> option Url.URL.

(** Readings of the clock that are two minutes apart, as the [sleep] of the
    loop makes them. *)
Lemma readings_lower_bound (startTime : Q) (now_at : nat -> Q) :
  (startTime <= now_at 0%nat)%Q ->
  (forall k, now_at k + 120000 <= now_at (S k))%Q ->
  forall k, (startTime + 120000 * inject_Z (Z.of_nat k) <= now_at k)%Q.
Proof.
  intros H0 Hstep. induction k as [|k IH].
  - change (inject_Z (Z.of_nat 0)) with 0%Q. lra.
  - specialize (Hstep k).
    rewrite Nat2Z.inj_succ. unfold Z.succ. rewrite inject_Z_plus.
    change (inject_Z 1) with 1%Q. lra.
Qed.

Lemma continuous_loop_ends (worlds : nat -> BatchWorld) (startTime : Q)
    (now_at : nat -> Q) (url : string) (durationMinutes : Z) :
  (forall k, startTime + 120000 * inject_Z (Z.of_nat k) <= now_at k)%Q ->
  forall (fuel : nat) (tester : LoadTester)
         (monitoringResults : list EndpointResult.t),
    1 <= fuel ->
    (durationMinutes
     <= 2 * (Z.of_nat (length monitoringResults) + Z.of_nat fuel - 1))%Z ->
    exists p,
      continuous_loop after_scheme fuel worlds now_at
        (startTime + inject_Z durationMinutes * 60 * 1000)%Q tester url
        monitoringResults = Some p
      /\ forall results,
          p = Fulfilled results ->
          length results = length monitoringResults
          \/ (length monitoringResults < length results
              /\ (2 * (Z.of_nat (length results) - 1) < durationMinutes)%Z).
Proof.
  intros Hclock. induction fuel as [|fuel IH];
    intros tester monitoringResults Hfuel Hbound; [lia|].
  simpl.
  destruct (JS.Qltb (now_at (length monitoringResults)) _) eqn:Hcheck.
  2:{ eexists. split; [reflexivity|]. intros results H.
      injection H as <-. now left. }
  apply Qltb_lt in Hcheck.
  pose proof (Hclock (length monitoringResults)) as Hlow.
  assert (Hn : (2 * Z.of_nat (length monitoringResults) < durationMinutes)%Z).
  { rewrite Zlt_Qlt, inject_Z_mult.
    change (inject_Z 2) with 2%Q. lra. }
  destruct (testEndpoint after_scheme (worlds (length monitoringResults))
              tester url 5 2 100) as [[result tester']| |].
  - destruct (IH tester' (monitoringResults ++ [result]))
      as (p & Hp & Hspec).
    + lia.
    + rewrite length_app. simpl. lia.
    + exists p. split; [exact Hp|].
      intros results Hres. right.
      specialize (Hspec results Hres).
      rewrite length_app in Hspec. simpl in Hspec.
      destruct Hspec as [Heq|[Hlt Hd]]; [|lia].
      rewrite Heq. lia.
  - eexists. split; [reflexivity|]. discriminate.
  - eexists. split; [reflexivity|]. discriminate.
Qed.

(** X25. With readings of the clock two minutes apart, [runContinuousTest]
    ends and takes at most one sample per two minutes of the duration, the
    first at once: sample [n] is taken only when [2 * (n - 1)] is below the
    minutes asked for, and none is when the duration is not positive.  A
    monitoring of two minutes or less has at most one sample, and its trend
    is reported as improving. *)
Theorem runContinuousTest_samples (fuel : nat) (worlds : nat -> BatchWorld)
    (startTime : Q) (now_at : nat -> Q) (baseUrl : string)
    (durationMinutes : Z) :
  (startTime <= now_at 0%nat)%Q ->
  (forall k, now_at k + 120000 <= now_at (S k))%Q ->
  1 <= fuel ->
  (durationMinutes <= 2 * (Z.of_nat fuel - 1))%Z ->
  exists p,
    runContinuousTest after_scheme fuel worlds startTime now_at baseUrl
      durationMinutes = Some p
    /\ forall monitoring,
        p = Fulfilled monitoring ->
        (ContinuousMonitoring.samples monitoring = 0
         \/ (2 * (Z.of_nat (ContinuousMonitoring.samples monitoring) - 1)
             < durationMinutes)%Z)
        /\ ((durationMinutes <= 0)%Z ->
            ContinuousMonitoring.samples monitoring = 0)
        /\ ((durationMinutes <= 2)%Z ->
            ContinuousMonitoring.samples monitoring <= 1
            /\ ContinuousMonitoring.stabilityTrend monitoring = Improving).
Proof.
  intros H0 Hstep Hfuel Hbound.
  destruct (continuous_loop_ends worlds startTime now_at
              (baseUrl ++ "/api/health")%string durationMinutes
              (readings_lower_bound startTime now_at H0 Hstep)
              fuel new_LoadTester [] Hfuel)
    as (p & Hp & Hspec); [simpl; lia|].
  unfold runContinuousTest. rewrite Hp.
  eexists. split; [reflexivity|].
  intros monitoring Hm.
  destruct p as [results| |]; try discriminate.
  injection Hm as <-.
  cbn [ContinuousMonitoring.samples ContinuousMonitoring.stabilityTrend].
  specialize (Hspec results eq_refl). simpl in Hspec.
  assert (Hcount : length results = 0
                   \/ (2 * (Z.of_nat (length results) - 1)
                       < durationMinutes)%Z).
  { destruct Hspec as [H|[_ H]]; [now left | now right]. }
  split; [exact Hcount|]. split.
  - intros Hd. destruct Hcount as [H|H]; [exact H | lia].
  - intros Hd.
    assert (Hle : length results <= 1) by (destruct Hcount; lia).
    split; [exact Hle|].
    apply analyzeStabilityTrend_few_samples. lia.
Qed.

End ContinuousFacts.

Lemma two_minute_clock_advances (k : nat) :
  (two_minute_clock k + 120000 <= two_minute_clock (S k))%Q.
Proof.
  unfold two_minute_clock.
  rewrite Nat2Z.inj_succ. unfold Z.succ.
  rewrite Z.mul_add_distr_l, inject_Z_plus.
  change (inject_Z (120000 * 1)) with 120000%Q. lra.
Qed.

Lemma runContinuousTest_samples_witness :
  exists monitoring,
    runContinuousTest local_after_scheme 2
      (fun _ => steady_world 200 100 60) 0 two_minute_clock
      "http://localhost:3000" 2
    = Some (Fulfilled monitoring)
    /\ ContinuousMonitoring.samples monitoring = 1
    /\ ContinuousMonitoring.stabilityTrend monitoring = Improving.
Proof.
  destruct (runContinuousTest_samples local_after_scheme 2
              (fun _ => steady_world 200 100 60) 0 two_minute_clock
              "http://localhost:3000" 2)
    as (p & Hp & Hspec).
  - vm_compute. discriminate.
  - apply two_minute_clock_advances.
  - lia.
  - lia.
  - assert (Hrun : exists monitoring,
               runContinuousTest local_after_scheme 2
                 (fun _ => steady_world 200 100 60) 0 two_minute_clock
                 "http://localhost:3000" 2
               = Some (Fulfilled monitoring)
               /\ ContinuousMonitoring.samples monitoring = 1)
      by (eexists; split; vm_compute; reflexivity).
    destruct Hrun as (monitoring & Hrun & Hone).
    exists monitoring. split; [exact Hrun|]. split; [exact Hone|].
    rewrite Hrun in Hp. injection Hp as <-.
    apply (Hspec monitoring eq_refl). lia.
Defined.


(** ** Facts about the scenarios *)

Section ScenarioFacts.

Variable after_scheme : string -> string -> option Url.URL.

(** A scenario that lacks one of the two fields leaves the database results
    as they were. *)
Lemma runScenario_without_database (worlds : nat -> BatchWorld)
    (db : DatabasePlatform) (saveReply : option string)
    (results : RunnerResults) (scenarioName environment : string)
    (scenario : Scenario.t) :
  property scenarioName config_scenarios = Some scenario ->
  Scenario.databaseQueries scenario = None
  \/ Scenario.endpoints scenario = None ->
  exists outcome results',
    runScenario after_scheme worlds db saveReply results scenarioName
      environment = Some (outcome, results')
    /\ databaseTests results' = databaseTests results
    /\ (Scenario.endpoints scenario = None ->
        exists e, outcome = Rejected e /\ results' = results).
Proof.
  intros Hfound Hlacks. unfold runScenario. rewrite Hfound.
  destruct (property environment config_environments) as [baseUrl|].
  2:{ do 2 eexists. split; [reflexivity|]. split; [reflexivity|]. eauto. }
  destruct (Scenario.endpoints scenario) as [endpoints|] eqn:Hendpoints.
  2:{ do 2 eexists. split; [reflexivity|]. split; [reflexivity|]. eauto. }
  destruct Hlacks as [Hnone|Hnone]; [|discriminate]. rewrite Hnone.
  destruct (run_endpoints _ _ _ _ _ _ _ _ _ _ _) as [[[]| |] webTests'];
    do 2 eexists; (split; [reflexivity|]); (split; [reflexivity|]);
    discriminate.
Qed.

Lemma property_In {A : Type} (key : string) (object : list (string * A))
    (value : A) :
  property key object = Some value -> In (key, value) object.
Proof.
  induction object as [|[name v] rest IH]; simpl; [discriminate|].
  destruct (String.eqb key name) eqn:E.
  - apply String.eqb_eq in E. intros H. injection H as <-. subst. now left.
  - intros H. right. now apply IH.
Qed.

(** X26. No scenario of the configuration reaches the database tests of
    [runScenario]: the scenarios with endpoints have no [databaseQueries],
    and the one that has them, [databaseLoad], has no endpoints, so that
    the loop over them throws and the call is rejected with the results
    untouched.  Whatever the scenario asked for and whatever the platform
    does, the call leaves [results.databaseTests] as it was. *)
Theorem runScenario_never_tests_database (worlds : nat -> BatchWorld)
    (db : DatabasePlatform) (saveReply : option string)
    (results : RunnerResults) (scenarioName environment : string) :
  exists outcome results',
    runScenario after_scheme worlds db saveReply results scenarioName
      environment = Some (outcome, results')
    /\ databaseTests results' = databaseTests results
    /\ (scenarioName = "databaseLoad" ->
        exists e, outcome = Rejected e /\ results' = results).
Proof.
  destruct (property scenarioName config_scenarios) as [scenario|] eqn:Hfound.
  2:{ unfold runScenario. rewrite Hfound.
      do 2 eexists. split; [reflexivity|]. split; [reflexivity|]. eauto. }
  assert (Hlacks : (Scenario.databaseQueries scenario = None
                    /\ scenarioName <> "databaseLoad")
                   \/ Scenario.endpoints scenario = None).
  { apply property_In in Hfound. simpl in Hfound.
    repeat (destruct Hfound as [Hfound|Hfound];
            [injection Hfound as <- <-;
             first [ left; split; [reflexivity | discriminate]
                   | right; reflexivity ] |]).
    destruct Hfound. }
  destruct (runScenario_without_database worlds db saveReply results
              scenarioName environment scenario Hfound)
    as (outcome & results' & Hrun & Hdb & Hrejected).
  { destruct Hlacks as [[H _]|H]; [now left | now right]. }
  exists outcome, results'. split; [exact Hrun|]. split; [exact Hdb|].
  intros Hname. apply Hrejected.
  destruct Hlacks as [[_ H]|H]; [congruence | exact H].
Qed.

End ScenarioFacts.
